(** * MesoGen: the tile-suggestion voting check ([tests/check_tile_suggestion.py])

    A shallow embedding of the Python script that reproduces MesoGen's
    tile-suggestion voting system, and the properties of it that the
    specification states.

    Conventions of the embedding:
    - a Python [int] is a [Z]; a tile and an admissible-label set are Python
      lists of ints, hence [list Z];
    - a raised exception is the [Raise] branch of [result];
    - a [dict]/[defaultdict] is an association list in insertion order
      ([dict K V]), because [findBest2] breaks ties by iteration order;
    - a [for] loop that mutates local variables is [for_in], a fold that
      threads the mutated variables and stops at the first exception. *)

From Stdlib Require Import ZArith List String Ascii Bool Lia DecimalString
  Permutation.
Import ListNotations.
Local Open Scope Z_scope.

(** ** Exceptions *)

Inductive error : Type :=
| IndexError
| KeyError
| AssertionError.

Inductive result (A : Type) : Type :=
| Ok (a : A)
| Raise (e : error).

Arguments Ok {A} a.
Arguments Raise {A} e.

Definition bind {A B : Type} (r : result A) (k : A -> result B) : result B :=
  match r with
  | Ok a => k a
  | Raise e => Raise e
  end.

Notation "x <- e ;; k" := (bind e (fun x => k))
  (at level 61, e at next level, right associativity).
Notation "' p <- e ;; k" := (bind e (fun x => match x with p => k end))
  (at level 61, p pattern, e at next level, right associativity).

(** [assert(b)] *)
Definition assert (b : bool) : result unit :=
  if b then Ok tt else Raise AssertionError.

(** [for x in l: body], the loop's variables threaded as [s]. *)
Fixpoint for_in {A S : Type} (l : list A) (body : A -> S -> result S) (s : S)
  : result S :=
  match l with
  | [] => Ok s
  | x :: l' => s' <- body x s ;; for_in l' body s'
  end.

(** [range(n)] *)
Definition range (n : nat) : list Z := map Z.of_nat (seq 0 n).

(** [l[i]] on a Python list: a negative index counts from the end, an index
    out of range raises [IndexError]. *)
Definition getitem {A : Type} (l : list A) (i : Z) : result A :=
  let n := Z.of_nat (List.length l) in
  let j := if i <? 0 then i + n else i in
  if (0 <=? j) && (j <? n)
  then match nth_error l (Z.to_nat j) with
       | Some x => Ok x
       | None => Raise IndexError
       end
  else Raise IndexError.

(** ** Transform and Score *)

Record Transform : Type := mkTransform {
  flipX : bool;
  flipY : bool;
  rotation : Z
}.

(** [Transform.isIdentity] *)
Definition isIdentity (self : Transform) : bool :=
  negb (flipX self) && negb (flipY self) && (rotation self =? 0).

(** [dataclasses.replace(tr, field=v)] for each field the script replaces. *)
Definition replace_flipX (tr : Transform) (v : bool) : Transform :=
  {| flipX := v; flipY := flipY tr; rotation := rotation tr |}.
Definition replace_flipY (tr : Transform) (v : bool) : Transform :=
  {| flipX := flipX tr; flipY := v; rotation := rotation tr |}.
Definition replace_rotation (tr : Transform) (r : Z) : Transform :=
  {| flipX := flipX tr; flipY := flipY tr; rotation := r |}.

Record Score : Type := mkScore {
  total_votes : Z;
  untransformed_votes : Z;
  flipped_edges : Z
}.

(** [Score()] *)
Definition Score_default : Score := mkScore 0 0 0.

(** [Score.__gt__] *)
Definition Score_gt (self other : Score) : bool :=
  if total_votes self >? total_votes other then true
  else if total_votes self <? total_votes other then false
  else if flipped_edges self <? flipped_edges other then true
  else if flipped_edges self >? flipped_edges other then false
  else if untransformed_votes self >? untransformed_votes other then true
  else if untransformed_votes self <? untransformed_votes other then false
  else false.

(** ** The symmetry group *)

Definition computeAllTransforms : list Transform :=
  let all_transforms := [mkTransform false false 0] in
  let all_transforms :=
    flat_map (fun tr => [tr; replace_flipX tr true]) all_transforms in
  let all_transforms :=
    flat_map (fun tr => [tr; replace_flipY tr true]) all_transforms in
  let all_transforms :=
    flat_map (fun tr => map (fun r => replace_rotation tr r) (range 4))
             all_transforms in
  all_transforms.

Definition computeAllTransforms_check : list Transform :=
  fold_left (fun all_transforms fx =>
    fold_left (fun all_transforms fy =>
      fold_left (fun all_transforms rot =>
        all_transforms ++ [mkTransform fx fy rot])
        (range 4) all_transforms)
      [false; true] all_transforms)
    [false; true] [].

(** The module-level [all_transforms = computeAllTransforms()]. *)
Definition all_transforms : list Transform := computeAllTransforms.

(** ** Tiles *)

(** [str(n)] for an int: decimal digits, [-] in front of a negative one. *)
Definition str (n : Z) : string := NilZero.string_of_int (Z.to_int n).

(** [hash_tile]: ["".join(map(str, tile))] *)
Definition hash_tile (tile : list Z) : string :=
  String.concat "" (map str tile).

Definition transform_tile_flipX (tile : list Z) : result (list Z) :=
  a <- getitem tile 2 ;;
  b <- getitem tile 1 ;;
  c <- getitem tile 0 ;;
  d <- getitem tile 3 ;;
  Ok [a; - b; c; - d].

Definition transform_tile_flipY (tile : list Z) : result (list Z) :=
  a <- getitem tile 0 ;;
  b <- getitem tile 3 ;;
  c <- getitem tile 2 ;;
  d <- getitem tile 1 ;;
  Ok [- a; b; - c; d].

Definition transform_tile_rotate (tile : list Z) (r : Z) : result (list Z) :=
  a <- getitem tile ((0 + r) mod 4) ;;
  b <- getitem tile ((1 + r) mod 4) ;;
  c <- getitem tile ((2 + r) mod 4) ;;
  d <- getitem tile ((3 + r) mod 4) ;;
  Ok [a; b; c; d].

Definition transform_tile (tile : list Z) (transform : Transform)
  : result (list Z) :=
  tile <- (if flipX transform then transform_tile_flipX tile else Ok tile) ;;
  tile <- (if flipY transform then transform_tile_flipY tile else Ok tile) ;;
  tile <- transform_tile_rotate tile (rotation transform) ;;
  Ok tile.

(** ** Dictionaries

    A Python [dict] keeps its keys in insertion order; assigning to a key
    that is present keeps the key's position.  Keys are compared with
    [__eq__], which for [str] and for the dataclass [Transform] is
    structural equality.  [Transform.__hash__] is a function of the three
    fields that [__eq__] compares, so it has no part in which keys a
    dictionary tells apart. *)

Class PyKey (K : Type) : Type := key_eqb : K -> K -> bool.

Definition Transform_eqb (a b : Transform) : bool :=
  Bool.eqb (flipX a) (flipX b) && Bool.eqb (flipY a) (flipY b)
  && (rotation a =? rotation b).

#[export] Instance PyKey_string : PyKey string := String.eqb.
#[export] Instance PyKey_Transform : PyKey Transform := Transform_eqb.

(** [__eq__] on keys decides equality of the modelled values. *)
Class PyKeyLawful (K : Type) {E : PyKey K} : Prop :=
  key_eqb_eq : forall a b : K, key_eqb a b = true <-> a = b.

Arguments PyKeyLawful K {E}.

Definition dict (K V : Type) : Type := list (K * V).

(** [d.get(k)] *)
Fixpoint dict_get {K V : Type} `{PyKey K} (d : dict K V) (k : K) : option V :=
  match d with
  | [] => None
  | (k', v) :: d' => if key_eqb k k' then Some v else dict_get d' k
  end.

(** [d[k]] on a plain dict *)
Definition dict_getitem {K V : Type} `{PyKey K} (d : dict K V) (k : K)
  : result V :=
  match dict_get d k with
  | Some v => Ok v
  | None => Raise KeyError
  end.

(** [d[k] = v] *)
Fixpoint dict_setitem {K V : Type} `{PyKey K} (d : dict K V) (k : K) (v : V)
  : dict K V :=
  match d with
  | [] => [(k, v)]
  | (k', v') :: d' =>
      if key_eqb k k' then (k', v) :: d'
      else (k', v') :: dict_setitem d' k v
  end.

(** [d[k]] on a [defaultdict]: a missing key is first inserted with the
    default value.  Returns the value and the dictionary afterwards. *)
Definition defaultdict_getitem {K V : Type} `{PyKey K} (default : V)
    (d : dict K V) (k : K) : V * dict K V :=
  match dict_get d k with
  | Some v => (v, d)
  | None => (default, d ++ [(k, default)])
  end.

(** [d.get(k, default)] *)
Definition dict_get_default {K V : Type} `{PyKey K} (d : dict K V) (k : K)
    (default : V) : V :=
  match dict_get d k with
  | Some v => v
  | None => default
  end.

(** [d.keys()], [d.values()] *)
Definition keys {K V : Type} (d : dict K V) : list K := map fst d.
Definition values {K V : Type} (d : dict K V) : list V := map snd d.

(** [sum(d.values())] *)
Definition sum_values {K : Type} (d : dict K Z) : Z :=
  fold_right Z.add 0 (values d).

(** ** Vote consolidation *)

Definition votes_t : Type := dict string (dict Transform Z).
Definition consolidated_votes_t : Type := dict string Z.
Definition tile_map_t : Type := dict string (list Z).

(** Lines 108-119 of [consolidateVotes]: the candidate tiles. *)
Definition consolidateVotes_possibilities
    (neighborhood_labels : list (list (list Z))) : result (list (list Z)) :=
  for_in neighborhood_labels (fun neighborhood possibilities =>
    labels0 <- getitem neighborhood 0 ;;
    for_in labels0 (fun label0 possibilities =>
      labels1 <- getitem neighborhood 1 ;;
      for_in labels1 (fun label1 possibilities =>
        labels2 <- getitem neighborhood 2 ;;
        for_in labels2 (fun label2 possibilities =>
          labels3 <- getitem neighborhood 3 ;;
          for_in labels3 (fun label3 possibilities =>
            Ok (possibilities ++ [[- label0; - label1; - label2; - label3]]))
            possibilities)
          possibilities)
        possibilities)
      possibilities)
    [].

(** Lines 121-124: every transform applied to every candidate. *)
Definition consolidateVotes_all_possibilities (possibilities : list (list Z))
  : result (list (list Z * Transform)) :=
  for_in possibilities (fun tile all_possibilities =>
    for_in all_transforms (fun tr all_possibilities =>
      t <- transform_tile tile tr ;;
      Ok (all_possibilities ++ [(t, tr)]))
      all_possibilities)
    [].

(** Lines 130-133: the body of the tally loop.  [votes[k]] is the inner
    dictionary object itself, so its update is an update of [votes]. *)
Definition consolidateVotes_vote
    (st : votes_t * consolidated_votes_t * tile_map_t)
    (p : list Z * Transform) : votes_t * consolidated_votes_t * tile_map_t :=
  let '(votes, consolidated_votes, tile_map) := st in
  let '(tile, tr) := p in
  let k := hash_tile tile in
  let '(inner, votes) := defaultdict_getitem [] votes k in
  let '(n, inner) := defaultdict_getitem 0 inner tr in
  let inner := dict_setitem inner tr (n + 1) in
  let votes := dict_setitem votes k inner in
  let '(n, consolidated_votes) := defaultdict_getitem 0 consolidated_votes k in
  let consolidated_votes := dict_setitem consolidated_votes k (n + 1) in
  let tile_map := dict_setitem tile_map k tile in
  (votes, consolidated_votes, tile_map).

(** Lines 126-133: the tally. *)
Definition consolidateVotes_tally (all_possibilities : list (list Z * Transform))
  : votes_t * consolidated_votes_t * tile_map_t :=
  fold_left consolidateVotes_vote all_possibilities ([], [], []).

(** [consolidateVotes]; its three [print] calls are left out. *)
Definition consolidateVotes (neighborhood_labels : list (list (list Z)))
  : result (votes_t * consolidated_votes_t * tile_map_t) :=
  possibilities <- consolidateVotes_possibilities neighborhood_labels ;;
  all_possibilities <- consolidateVotes_all_possibilities possibilities ;;
  Ok (consolidateVotes_tally all_possibilities).

(** ** Selection *)

Definition selection : Type :=
  option string * option Score * option string * option Score.

(** Lines 171-172 of [findBest2]: the body of the loop over the labels. *)
Definition findBest2_label (score : Score) (label : Z) : Score :=
  if label <? 0
  then {| total_votes := total_votes score;
          untransformed_votes := untransformed_votes score;
          flipped_edges := flipped_edges score + 1 |}
  else score.

(** Lines 174-176: the body of the loop over [votes[k].items()]; [count] is
    the consolidated count of the signature. *)
Definition findBest2_subcount (count : Z) (score : Score)
    (item : Transform * Z) : Score :=
  let '(tr, subcount) := item in
  let score := {| total_votes := total_votes score + subcount;
                  untransformed_votes := untransformed_votes score;
                  flipped_edges := flipped_edges score |} in
  if isIdentity tr
  then {| total_votes := total_votes score;
          untransformed_votes := count;
          flipped_edges := flipped_edges score |}
  else score.

(** Lines 169-177: the score of signature [k].  [votes] is a [defaultdict],
    so [votes[k]] never raises; the entry it would insert for a missing key
    is not part of what [findBest2] returns. *)
Definition findBest2_score (votes : votes_t) (tile_map : tile_map_t)
    (k : string) (count : Z) : result Score :=
  let score := Score_default in
  tile <- dict_getitem tile_map k ;;
  let score := fold_left findBest2_label tile score in
  let score :=
    fold_left (findBest2_subcount count)
              (fst (defaultdict_getitem [] votes k)) score in
  _ <- assert (total_votes score =? count) ;;
  Ok score.

(** [best_score is None or score > best_score] *)
Definition is_None_or_gt (score : Score) (best_score : option Score) : bool :=
  match best_score with
  | None => true
  | Some b => Score_gt score b
  end.

(** Lines 179-186: the update of best and second best. *)
Definition findBest2_update (k : string) (score : Score) (st : selection)
  : selection :=
  let '(best, best_score, second_best, second_best_score) := st in
  if is_None_or_gt score best_score
  then (Some k, Some score, best, best_score)
  else if is_None_or_gt score second_best_score
  then (best, best_score, Some k, Some score)
  else st.

Definition findBest2 (votes : votes_t)
    (consolidated_votes : consolidated_votes_t) (tile_map : tile_map_t)
  : result selection :=
  for_in consolidated_votes (fun (item : string * Z) st =>
    let '(k, count) := item in
    score <- findBest2_score votes tile_map k count ;;
    Ok (findBest2_update k score st))
    (None, None, None, None).

(** ** Import of a vote dump *)

(** One element of a record's ["counts"]: a JSON transform object and a
    count. *)
Record CountEntry : Type := mkCountEntry {
  entry_transform : Transform;
  entry_count : Z
}.

(** One element of the vote dump: [{"tile": ..., "counts": [...]}]. *)
Record VoteRecord : Type := mkVoteRecord {
  record_tile : list Z;
  record_counts : list CountEntry
}.

(** Lines 206-215 of [importVotes]: one entry of a record's counts.  The
    assertion reads [check_votes[k][tr]], which on these nested
    [defaultdict]s inserts what is missing before it compares. *)
Definition importVotes_entry (k : string) (entry : CountEntry)
    (st : votes_t * consolidated_votes_t)
  : result (votes_t * consolidated_votes_t) :=
  let '(check_votes, check_consolidated_votes) := st in
  let tr := entry_transform entry in
  let tr := mkTransform (flipX tr) (flipY tr) (rotation tr) in
  let count := entry_count entry in
  let '(inner, check_votes) := defaultdict_getitem [] check_votes k in
  let '(n, inner) := defaultdict_getitem 0 inner tr in
  let check_votes := dict_setitem check_votes k inner in
  _ <- assert (n =? 0) ;;
  let '(inner, check_votes) := defaultdict_getitem [] check_votes k in
  let '(n, inner) := defaultdict_getitem 0 inner tr in
  let inner := dict_setitem inner tr (n + count) in
  let check_votes := dict_setitem check_votes k inner in
  let '(n, check_consolidated_votes) :=
    defaultdict_getitem 0 check_consolidated_votes k in
  let check_consolidated_votes :=
    dict_setitem check_consolidated_votes k (n + count) in
  Ok (check_votes, check_consolidated_votes).

(** Lines 199-215: one record of the dump.  [tile_map] is the caller's
    dictionary, updated in place. *)
Definition importVotes_record (v : VoteRecord)
    (st : votes_t * consolidated_votes_t * tile_map_t)
  : result (votes_t * consolidated_votes_t * tile_map_t) :=
  let '(check_votes, check_consolidated_votes, tile_map) := st in
  let tile := record_tile v in
  let k := hash_tile tile in
  let tile_map := dict_setitem tile_map k tile in
  let '(n, check_consolidated_votes) :=
    defaultdict_getitem 0 check_consolidated_votes k in
  _ <- assert (n =? 0) ;;
  '(check_votes, check_consolidated_votes) <-
    for_in (record_counts v) (importVotes_entry k)
           (check_votes, check_consolidated_votes) ;;
  Ok (check_votes, check_consolidated_votes, tile_map).

(** [importVotes] returns the two dictionaries it builds; the third
    component is [tile_map] as the call leaves it. *)
Definition importVotes (raw_votes : list VoteRecord) (tile_map : tile_map_t)
  : result (votes_t * consolidated_votes_t * tile_map_t) :=
  for_in raw_votes importVotes_record ([], [], tile_map).

(** Modelled from the spec: the export of a consolidated vote map to
    VoteRecords, which the script does not contain (it reads the dump that
    the C++ program wrote).  The spec fixes what a record is, a tile with a
    list of (transform, count) pairs in which no (signature, transform)
    pair occurs twice; it fixes neither the order of the records or of the
    pairs, nor whether a transform without a vote is listed with the count
    0.  So a list of records is an export of the map when it has one record
    per signature of the map, in any order, each carrying the signature's
    representative tile and pairs, of distinct transforms, that give every
    transform the count which the map has for it. *)
Definition record_signature (v : VoteRecord) : string :=
  hash_tile (record_tile v).

Definition record_pairs (v : VoteRecord) : dict Transform Z :=
  map (fun e : CountEntry => (entry_transform e, entry_count e))
      (record_counts v).

Definition exported (votes : votes_t) (tile_map : tile_map_t)
    (raw_votes : list VoteRecord) : Prop :=
  Permutation (map record_signature raw_votes) (keys votes)
  /\ forall v, In v raw_votes ->
       dict_get tile_map (record_signature v) = Some (record_tile v)
       /\ NoDup (keys (record_pairs v))
       /\ forall tr,
            dict_get_default (record_pairs v) tr 0
            = dict_get_default
                (dict_get_default votes (record_signature v) []) tr 0.

(** Two restrictions that an export may satisfy: its records come in the
    map's iteration order; it lists no pair with the count 0. *)
Definition in_map_order (votes : votes_t) (raw_votes : list VoteRecord)
  : Prop :=
  map record_signature raw_votes = keys votes.

Definition no_zero_count (raw_votes : list VoteRecord) : Prop :=
  forall v e, In v raw_votes -> In e (record_counts v) -> entry_count e <> 0.

(** Lines 227-237 of [main]: the suggestion computed from the input. *)
Definition suggestion (neighborhood_labels : list (list (list Z)))
  : result selection :=
  '(votes, consolidated_votes, tile_map) <-
    consolidateVotes neighborhood_labels ;;
  findBest2 votes consolidated_votes tile_map.


(** ** The count-only selector *)

Definition count_selection : Type :=
  option string * option Z * option string * option Z.

(** [best_count is None or count > best_count] *)
Definition is_None_or_more (count : Z) (best_count : option Z) : bool :=
  match best_count with
  | None => true
  | Some b => count >? b
  end.

(** Lines 147-154 of [findBest]: the body of its loop. *)
Definition findBest_update (k : string) (count : Z) (st : count_selection)
  : count_selection :=
  let '(best, best_count, second_best, second_best_count) := st in
  if is_None_or_more count best_count
  then (Some k, Some count, best, best_count)
  else if is_None_or_more count second_best_count
  then (best, best_count, Some k, Some count)
  else st.

(** [findBest] reads neither [votes] nor [tile_map] and raises nothing. *)
Definition findBest (votes : votes_t)
    (consolidated_votes : consolidated_votes_t) (tile_map : tile_map_t)
  : count_selection :=
  fold_left (fun st (item : string * Z) =>
               let '(k, count) := item in findBest_update k count st)
            consolidated_votes (None, None, None, None).

(** ** The hash of a transform *)

(** [hash(n)] for an int on a 64-bit CPython: [n] reduced modulo the
    Mersenne prime [2^61 - 1] with the sign of [n], and [-2] in place of
    [-1]. *)
Definition hash_int (n : Z) : Z :=
  let h := Z.sgn n * (Z.abs n mod (2 ^ 61 - 1)) in
  if h =? -1 then -2 else h.

(** [True] and [False] in arithmetic are [1] and [0]. *)
Definition int_of_bool (b : bool) : Z := if b then 1 else 0.

(** [Transform.__hash__] *)
Definition Transform_hash (self : Transform) : Z :=
  hash_int (rotation self
            + 4 * (int_of_bool (flipX self) + 2 * int_of_bool (flipY self))).

(** ** The invariant of the tally

    The three dictionaries of [consolidateVotes] hold the same signatures in
    the same order; each signature's per-transform counts are recorded once
    per transform, are not empty and add up to its consolidated count, and
    its representative tile hashes to it. *)
Inductive aligned : votes_t -> consolidated_votes_t -> tile_map_t -> Prop :=
| aligned_nil : aligned [] [] []
| aligned_cons k inner n tile votes consolidated_votes tile_map :
    inner <> [] ->
    NoDup (keys inner) ->
    sum_values inner = n ->
    hash_tile tile = k ->
    aligned votes consolidated_votes tile_map ->
    aligned ((k, inner) :: votes) ((k, n) :: consolidated_votes)
            ((k, tile) :: tile_map).

(** * Properties *)

(** ** The exception monad and loops *)

Lemma bind_Ok_inv {A B : Type} (r : result A) (k : A -> result B) (b : B) :
  bind r k = Ok b -> exists a, r = Ok a /\ k a = Ok b.
Proof.
  destruct r as [a | e]; simpl; intros E.
  - exists a. split; [reflexivity | exact E].
  - discriminate E.
Qed.

Lemma for_in_app {A S : Type} (l1 l2 : list A) (body : A -> S -> result S)
    (s : S) :
  for_in (l1 ++ l2) body s = (s' <- for_in l1 body s ;; for_in l2 body s').
Proof.
  revert s. induction l1 as [| x l1 IH]; intros s; simpl.
  - reflexivity.
  - destruct (body x s) as [s' | e]; simpl; [apply IH | reflexivity].
Qed.

(** A loop whose body only appends to the threaded list. *)
Lemma for_in_append {A B : Type} (l : list A) (body : A -> list B -> result (list B))
    (f : A -> list B) :
  (forall x s, In x l -> body x s = Ok (s ++ f x)) ->
  forall s, for_in l body s = Ok (s ++ flat_map f l).
Proof.
  induction l as [| x l IH]; intros Hbody s; simpl.
  - rewrite app_nil_r. reflexivity.
  - rewrite Hbody by (left; reflexivity). simpl.
    rewrite IH by (intros; apply Hbody; right; assumption).
    rewrite app_assoc. reflexivity.
Qed.

(** A loop whose body never raises returns. *)
Lemma for_in_total {A S : Type} (l : list A) (body : A -> S -> result S) :
  (forall x, In x l -> forall s, exists s', body x s = Ok s') ->
  forall s, exists s', for_in l body s = Ok s'.
Proof.
  induction l as [| x l IH]; intros Hbody s; simpl.
  - exists s. reflexivity.
  - destruct (Hbody x (or_introl eq_refl) s) as (s1 & ->). simpl.
    apply IH. intros y Hy. apply Hbody. right. exact Hy.
Qed.

(** Loops whose bodies agree on the elements of the list agree. *)
Lemma for_in_ext {A S : Type} (l : list A) (body body' : A -> S -> result S) :
  (forall x s, In x l -> body x s = body' x s) ->
  forall s, for_in l body s = for_in l body' s.
Proof.
  induction l as [| x l IH]; intros Hbody s; simpl.
  - reflexivity.
  - rewrite Hbody by (left; reflexivity).
    destruct (body' x s) as [s' | e]; simpl; [| reflexivity].
    apply IH. intros y s0 Hy. apply Hbody. right. exact Hy.
Qed.

(** ** Keys *)

#[export] Instance PyKeyLawful_string : PyKeyLawful string.
Proof. exact String.eqb_eq. Qed.

#[export] Instance PyKeyLawful_Transform : PyKeyLawful Transform.
Proof.
  intros [ax ay ar] [bx by' br].
  unfold key_eqb, PyKey_Transform, Transform_eqb; simpl.
  rewrite !andb_true_iff, !Bool.eqb_true_iff, Z.eqb_eq.
  split.
  - intros [[-> ->] ->]. reflexivity.
  - intros E. injection E as -> -> ->. auto.
Qed.

Section KeyFacts.
Context {K : Type} {E : PyKey K} {L : PyKeyLawful K}.

Lemma key_eqb_refl (k : K) : key_eqb k k = true.
Proof. apply key_eqb_eq. reflexivity. Qed.

Lemma key_eqb_neq (a b : K) : a <> b -> key_eqb a b = false.
Proof.
  intros N. destruct (key_eqb a b) eqn:Hab; [| reflexivity].
  apply key_eqb_eq in Hab. contradiction.
Qed.

End KeyFacts.

(** ** The symmetry group *)

(** C8: [computeAllTransforms] yields 16 pairwise distinct transforms,
    exactly those with a rotation in 0..3 (every combination of the two
    flips with them), and [computeAllTransforms_check], the direct triple
    iteration, produces the same sequence. *)
Theorem computeAllTransforms_sixteen :
  List.length computeAllTransforms = 16%nat
  /\ NoDup computeAllTransforms
  /\ (forall tr, In tr computeAllTransforms <-> 0 <= rotation tr < 4)
  /\ computeAllTransforms_check = computeAllTransforms.
Proof.
  split; [reflexivity |].
  split.
  { cbv -[Z.of_nat]. simpl.
    repeat (constructor; [simpl; intuition discriminate |]). constructor. }
  split; [| reflexivity].
  intros [fx fy r]; simpl. split.
  - cbv -[Z.of_nat Z.le Z.lt]. simpl.
    intros Hin.
    repeat (destruct Hin as [Heq | Hin]; [injection Heq as _ _ <-; lia |]).
    contradiction.
  - intros Hr.
    assert (r = 0 \/ r = 1 \/ r = 2 \/ r = 3) as Hcases by lia.
    destruct fx, fy; destruct Hcases as [-> | [-> | [-> | ->]]];
      vm_compute; tauto.
Qed.

(** ** The tile transform *)

Lemma rotation_cases (r : Z) :
  exists m, (m = 0 \/ m = 1 \/ m = 2 \/ m = 3)
            /\ forall j, (j + r) mod 4 = (j + m) mod 4.
Proof.
  exists (r mod 4). split.
  - pose proof (Z.mod_pos_bound r 4 ltac:(lia)). lia.
  - intros j. rewrite Zplus_mod_idemp_r. reflexivity.
Qed.

(** On a tile of four labels the rotation never raises. *)
Lemma transform_tile_rotate_four (e0 e1 e2 e3 r : Z) :
  exists out,
    transform_tile_rotate [e0; e1; e2; e3] r = Ok out
    /\ List.length out = 4%nat
    /\ forall i, 0 <= i < 4 ->
         nth (Z.to_nat i) out 0
         = nth (Z.to_nat ((i + r) mod 4)) [e0; e1; e2; e3] 0.
Proof.
  destruct (rotation_cases r) as (m & Hm & Hmod).
  unfold transform_tile_rotate. rewrite !Hmod.
  destruct Hm as [-> | [-> | [-> | ->]]];
    (eexists; split; [reflexivity |]; split; [reflexivity |];
     intros i Hi; rewrite Hmod;
     assert (i = 0 \/ i = 1 \/ i = 2 \/ i = 3) as [-> | [-> | [-> | ->]]]
       by lia; reflexivity).
Qed.

(** The composition on a tile of four labels: the rotation of the tile
    that flipX, then flipY, leave. *)
Lemma transform_tile_on_four (e0 e1 e2 e3 : Z) (tr : Transform) :
  let t0 := [e0; e1; e2; e3] in
  let t1 := if flipX tr then [e2; - e1; e0; - e3] else t0 in
  let t2 := if flipY tr
            then [- nth 0 t1 0; nth 3 t1 0; - nth 2 t1 0; nth 1 t1 0]
            else t1 in
  exists out,
    transform_tile t0 tr = Ok out
    /\ List.length out = 4%nat
    /\ forall i, 0 <= i < 4 ->
         nth (Z.to_nat i) out 0
         = nth (Z.to_nat ((i + rotation tr) mod 4)) t2 0.
Proof.
  intros t0 t1 t2.
  unfold transform_tile. subst t2 t1 t0.
  destruct tr as [fx fy r]; simpl flipX; simpl flipY; simpl rotation.
  destruct fx, fy; simpl;
    match goal with
    | |- context [transform_tile_rotate [?a; ?b; ?c; ?d] r] =>
        destruct (transform_tile_rotate_four a b c d r) as (out & -> & Hlen & Hnth)
    end;
    exists out; simpl; auto.
Qed.

(** C6: on every tile [[e0,e1,e2,e3]] of integer labels and every transform,
    [transform_tile] returns a tile (it never raises): flipX maps the tile
    to [[e2,-e1,e0,-e3]], flipY to [[-e0,e3,-e2,e1]], and the result is the
    rotation [new[i] = t[(i+r) mod 4]], without sign change, of the tile [t]
    obtained by flipX first (when set) and flipY second (when set). *)
Theorem transform_tile_spec (e0 e1 e2 e3 : Z) (tr : Transform) :
  let t0 := [e0; e1; e2; e3] in
  let t1 := if flipX tr then [e2; - e1; e0; - e3] else t0 in
  let t2 := if flipY tr
            then [- nth 0 t1 0; nth 3 t1 0; - nth 2 t1 0; nth 1 t1 0]
            else t1 in
  transform_tile_flipX t0 = Ok [e2; - e1; e0; - e3]
  /\ transform_tile_flipY t0 = Ok [- e0; e3; - e2; e1]
  /\ exists out,
       transform_tile t0 tr = Ok out
       /\ List.length out = 4%nat
       /\ forall i, 0 <= i < 4 ->
            nth (Z.to_nat i) out 0
            = nth (Z.to_nat ((i + rotation tr) mod 4)) t2 0.
Proof.
  intros t0 t1 t2.
  split; [reflexivity |]. split; [reflexivity |].
  apply transform_tile_on_four.
Qed.

(** [transform_tile] never raises on a tile of four labels. *)
Lemma transform_tile_four (tile : list Z) (tr : Transform) :
  List.length tile = 4%nat ->
  exists out, transform_tile tile tr = Ok out /\ List.length out = 4%nat.
Proof.
  intros Hlen.
  destruct tile as [| e0 [| e1 [| e2 [| e3 [| ? ?]]]]]; try discriminate Hlen.
  destruct (transform_tile_on_four e0 e1 e2 e3 tr) as (out & Hout & Hl & _).
  exists out. auto.
Qed.

(** ** Signatures *)

(** C2 fails on the code: [hash_tile] joins the decimal renderings without a
    separator, so two different tiles share the signature ["12345"], and a
    consolidation that meets both merges their votes under it. *)
Theorem hash_tile_collision :
  hash_tile [1; 23; 4; 5] = hash_tile [12; 3; 4; 5]
  /\ [1; 23; 4; 5] <> [12; 3; 4; 5]
  /\ exists votes consolidated_votes tile_map,
       consolidateVotes [[[-1]; [-23]; [-4]; [-5]]; [[-12]; [-3]; [-4]; [-5]]]
       = Ok (votes, consolidated_votes, tile_map)
       /\ dict_get consolidated_votes "12345"%string = Some 2
       /\ dict_get tile_map "12345"%string = Some [12; 3; 4; 5].
Proof.
  split; [reflexivity |]. split; [discriminate |].
  vm_compute. do 3 eexists. repeat split.
Qed.

(** ** The candidate generator *)

(** The candidates of one neighbourhood: one tile of negated labels per
    element of the cartesian product of its four slots, slot 0 varying
    slowest and slot 3 fastest. *)
Local Abbreviation negated_product nb :=
  (flat_map (fun l0 : Z =>
     flat_map (fun l1 : Z =>
       flat_map (fun l2 : Z =>
         flat_map (fun l3 : Z => [[- l0; - l1; - l2; - l3]])
                  (nth 3 nb []))
                (nth 2 nb []))
              (nth 1 nb []))
            (nth 0 nb [])).

Lemma length_flat_map_const {A B : Type} (f : A -> list B) (l : list A) (n : nat) :
  (forall x, List.length (f x) = n) ->
  List.length (flat_map f l) = (List.length l * n)%nat.
Proof.
  intros Hf. induction l as [| x l IH]; simpl.
  - reflexivity.
  - rewrite length_app, Hf, IH. reflexivity.
Qed.

Lemma length_negated_product (nb : list (list Z)) :
  List.length (negated_product nb)
  = (List.length (nth 0 nb []) * List.length (nth 1 nb [])
     * List.length (nth 2 nb []) * List.length (nth 3 nb []))%nat.
Proof.
  rewrite (length_flat_map_const _ _
             (List.length (nth 1 nb []) * List.length (nth 2 nb [])
              * List.length (nth 3 nb []))%nat).
  - lia.
  - intros l0.
    rewrite (length_flat_map_const _ _
               (List.length (nth 2 nb []) * List.length (nth 3 nb []))%nat).
    + lia.
    + intros l1.
      rewrite (length_flat_map_const _ _ (List.length (nth 3 nb []))).
      * reflexivity.
      * intros l2.
        rewrite (length_flat_map_const _ _ 1%nat); [lia | reflexivity].
Qed.

(** The loops of lines 110-119 on one neighbourhood of four slots append
    its candidates and never raise. *)
Lemma possibilities_of_four_slots (neighborhood_labels : list (list (list Z))) :
  Forall (fun nb => List.length nb = 4%nat) neighborhood_labels ->
  consolidateVotes_possibilities neighborhood_labels
  = Ok (flat_map (fun nb => negated_product nb) neighborhood_labels).
Proof.
  intros Hfour. unfold consolidateVotes_possibilities.
  change (Ok (flat_map (fun nb => negated_product nb) neighborhood_labels))
    with (Ok ([] ++ flat_map (fun nb => negated_product nb) neighborhood_labels)).
  apply for_in_append.
  intros nb s Hin.
  rewrite Forall_forall in Hfour. specialize (Hfour nb Hin).
  destruct nb as [| s0 [| s1 [| s2 [| s3 [| ? ?]]]]]; try discriminate Hfour.
  cbn [getitem nth]. simpl.
  apply for_in_append. intros l0 p0 _. simpl.
  apply for_in_append. intros l1 p1 _. simpl.
  apply for_in_append. intros l2 p2 _. simpl.
  apply for_in_append. intros l3 p3 _. reflexivity.
Qed.

(** C7: on neighbourhoods of four non-empty slots the candidate generator
    returns, neighbourhoods in input order, the tiles of negated labels of
    the cartesian product of the four slots (slot 0 outermost, slot 3
    innermost); a neighbourhood contributes as many candidates as the
    product of its slot sizes, six for sizes (2,1,3,1). *)
Theorem consolidateVotes_possibilities_spec
    (neighborhood_labels : list (list (list Z))) :
  Forall (fun nb => List.length nb = 4%nat /\ ~ In [] nb) neighborhood_labels ->
  consolidateVotes_possibilities neighborhood_labels
  = Ok (flat_map (fun nb => negated_product nb) neighborhood_labels)
  /\ Forall (fun nb =>
       List.length (negated_product nb)
       = (List.length (nth 0 nb []) * List.length (nth 1 nb [])
          * List.length (nth 2 nb []) * List.length (nth 3 nb []))%nat)
       neighborhood_labels
  /\ (forall nb, In nb neighborhood_labels ->
        map (@List.length Z) nb = [2; 1; 3; 1]%nat ->
        List.length (negated_product nb) = 6%nat).
Proof.
  intros Hwf. split; [| split].
  - apply possibilities_of_four_slots.
    eapply Forall_impl; [| exact Hwf]. simpl. intros nb [Hlen _]. exact Hlen.
  - apply Forall_forall. intros nb _. apply length_negated_product.
  - intros nb _ Hsizes. rewrite length_negated_product.
    destruct nb as [| s0 [| s1 [| s2 [| s3 [| ? ?]]]]]; try discriminate Hsizes.
    simpl in Hsizes. injection Hsizes as H0 H1 H2 H3.
    simpl. rewrite H0, H1, H2, H3. reflexivity.
Qed.

Lemma consolidateVotes_possibilities_spec_witness :
  Forall (fun nb : list (list Z) => List.length nb = 4%nat /\ ~ In [] nb)
         [[[1; 2]; [3]; [4; 5; 6]; [7]]]
  /\ consolidateVotes_possibilities [[[1; 2]; [3]; [4; 5; 6]; [7]]]
     = Ok [[-1; -3; -4; -7]; [-1; -3; -5; -7]; [-1; -3; -6; -7];
           [-2; -3; -4; -7]; [-2; -3; -5; -7]; [-2; -3; -6; -7]].
Proof.
  assert (Forall (fun nb : list (list Z) =>
                    List.length nb = 4%nat /\ ~ In [] nb)
                 [[[1; 2]; [3]; [4; 5; 6]; [7]]]) as Hwf
    by (repeat constructor; simpl; intuition discriminate).
  split; [exact Hwf |].
  exact (proj1 (consolidateVotes_possibilities_spec
                  [[[1; 2]; [3]; [4; 5; 6]; [7]]] Hwf)).
Defined.

(** ** Dictionaries *)

Section DictFacts.
Context {K V : Type} {E : PyKey K} {L : PyKeyLawful K}.

Lemma dict_get_not_in (d : dict K V) (k : K) :
  ~ In k (keys d) -> dict_get d k = None.
Proof.
  induction d as [| [k' v'] d IH]; simpl; intros Hnot.
  - reflexivity.
  - rewrite key_eqb_neq by (intros ->; apply Hnot; left; reflexivity).
    apply IH. intros Hin. apply Hnot. right. exact Hin.
Qed.

Lemma dict_get_in_keys (d : dict K V) (k : K) (v : V) :
  dict_get d k = Some v -> In k (keys d).
Proof.
  induction d as [| [k' v'] d IH]; simpl; intros Hget.
  - discriminate Hget.
  - destruct (key_eqb k k') eqn:Hk.
    + left. symmetry. apply key_eqb_eq. exact Hk.
    + right. apply IH. exact Hget.
Qed.

Lemma dict_get_None_not_in (d : dict K V) (k : K) :
  dict_get d k = None -> ~ In k (keys d).
Proof.
  induction d as [| [k' v'] d IH]; simpl; intros Hget Hin.
  - exact Hin.
  - destruct (key_eqb k k') eqn:Hk; [discriminate Hget |].
    destruct Hin as [-> | Hin].
    + rewrite key_eqb_refl in Hk. discriminate Hk.
    + exact (IH Hget Hin).
Qed.

Lemma dict_get_app_last (d : dict K V) (k : K) (v : V) :
  ~ In k (keys d) -> dict_get (d ++ [(k, v)]) k = Some v.
Proof.
  induction d as [| [k' v'] d IH]; simpl; intros Hnot.
  - rewrite key_eqb_refl. reflexivity.
  - rewrite key_eqb_neq by (intros ->; apply Hnot; left; reflexivity).
    apply IH. intros Hin. apply Hnot. right. exact Hin.
Qed.

(** Assigning to a missing key appends it. *)
Lemma dict_setitem_not_in (d : dict K V) (k : K) (v : V) :
  ~ In k (keys d) -> dict_setitem d k v = d ++ [(k, v)].
Proof.
  induction d as [| [k' v'] d IH]; simpl; intros Hnot.
  - reflexivity.
  - rewrite key_eqb_neq by (intros ->; apply Hnot; left; reflexivity).
    rewrite IH; [reflexivity |]. intros Hin. apply Hnot. right. exact Hin.
Qed.

Lemma dict_setitem_app_last (d : dict K V) (k : K) (v0 v : V) :
  ~ In k (keys d) -> dict_setitem (d ++ [(k, v0)]) k v = d ++ [(k, v)].
Proof.
  induction d as [| [k' v'] d IH]; simpl; intros Hnot.
  - rewrite key_eqb_refl. reflexivity.
  - rewrite key_eqb_neq by (intros ->; apply Hnot; left; reflexivity).
    rewrite IH; [reflexivity |]. intros Hin. apply Hnot. right. exact Hin.
Qed.

(** Assigning the value a key already has changes nothing. *)
Lemma dict_setitem_same (d : dict K V) (k : K) (v : V) :
  dict_get d k = Some v -> dict_setitem d k v = d.
Proof.
  induction d as [| [k' v'] d IH]; simpl; intros Hget.
  - discriminate Hget.
  - destruct (key_eqb k k').
    + injection Hget as ->. reflexivity.
    + rewrite IH by exact Hget. reflexivity.
Qed.

(** Reading through a [defaultdict] and assigning to the same key is the
    assignment alone. *)
Lemma defaultdict_getitem_fst (default : V) (d : dict K V) (k : K) :
  fst (defaultdict_getitem default d k) = dict_get_default d k default.
Proof.
  unfold defaultdict_getitem, dict_get_default.
  destruct (dict_get d k); reflexivity.
Qed.

Lemma dict_setitem_defaultdict (default : V) (d : dict K V) (k : K) (v : V) :
  dict_setitem (snd (defaultdict_getitem default d k)) k v = dict_setitem d k v.
Proof.
  unfold defaultdict_getitem.
  destruct (dict_get d k) eqn:Hget; simpl; [reflexivity |].
  apply dict_get_None_not_in in Hget.
  rewrite dict_setitem_app_last, dict_setitem_not_in by exact Hget.
  reflexivity.
Qed.

Lemma defaultdict_getitem_eta (default : V) (d : dict K V) (k : K) :
  defaultdict_getitem default d k
  = (dict_get_default d k default, snd (defaultdict_getitem default d k)).
Proof.
  rewrite <- defaultdict_getitem_fst. apply surjective_pairing.
Qed.

Lemma in_keys_setitem (d : dict K V) (k k' : K) (v : V) :
  In k' (keys (dict_setitem d k v)) <-> In k' (keys d) \/ k' = k.
Proof.
  induction d as [| [k0 v0] d IH]; simpl.
  - intuition.
  - destruct (key_eqb k k0) eqn:Hk; simpl.
    + apply key_eqb_eq in Hk. subst k0. intuition.
    + rewrite IH. intuition.
Qed.

Lemma NoDup_keys_setitem (d : dict K V) (k : K) (v : V) :
  NoDup (keys d) -> NoDup (keys (dict_setitem d k v)).
Proof.
  induction d as [| [k0 v0] d IH]; simpl; intros Hnd.
  - constructor; [intros [] | constructor].
  - inversion Hnd as [| ? ? Hnot Hnd']; subst.
    destruct (key_eqb k k0) eqn:Hk; simpl.
    + constructor; assumption.
    + constructor; [| apply IH; exact Hnd'].
      rewrite in_keys_setitem. intros [Hin | ->].
      * exact (Hnot Hin).
      * rewrite key_eqb_refl in Hk. discriminate Hk.
Qed.

Lemma dict_setitem_not_nil (d : dict K V) (k : K) (v : V) :
  dict_setitem d k v <> [].
Proof.
  destruct d as [| [k0 v0] d]; simpl; [discriminate |].
  destruct (key_eqb k k0); discriminate.
Qed.

End DictFacts.

Section Counts.
Context {K : Type} {E : PyKey K} {L : PyKeyLawful K}.

Lemma sum_values_app (d1 d2 : dict K Z) :
  sum_values (d1 ++ d2) = sum_values d1 + sum_values d2.
Proof.
  unfold sum_values, values. induction d1 as [| [k v] d1 IH]; simpl.
  - reflexivity.
  - rewrite IH. lia.
Qed.

(** [d[k] += c] on a [defaultdict(int)] adds [c] to the sum of the values. *)
Lemma sum_values_increment (d : dict K Z) (k : K) (c : Z) :
  sum_values (dict_setitem d k (dict_get_default d k 0 + c))
  = sum_values d + c.
Proof.
  unfold dict_get_default, sum_values, values.
  induction d as [| [k0 v0] d IH]; simpl.
  - lia.
  - destruct (key_eqb k k0); simpl; [lia |].
    rewrite IH. lia.
Qed.

End Counts.

(** ** The tally *)

(** The body of the tally loop, with the [defaultdict] reads resolved. *)
Lemma consolidateVotes_vote_eq (votes : votes_t)
    (consolidated_votes : consolidated_votes_t) (tile_map : tile_map_t)
    (tile : list Z) (tr : Transform) :
  consolidateVotes_vote (votes, consolidated_votes, tile_map) (tile, tr)
  = (let k := hash_tile tile in
     let inner := dict_get_default votes k [] in
     (dict_setitem votes k
        (dict_setitem inner tr (dict_get_default inner tr 0 + 1)),
      dict_setitem consolidated_votes k
        (dict_get_default consolidated_votes k 0 + 1),
      dict_setitem tile_map k tile)).
Proof.
  unfold consolidateVotes_vote. cbv zeta.
  rewrite (defaultdict_getitem_eta [] votes).
  rewrite (defaultdict_getitem_eta 0 (dict_get_default votes (hash_tile tile) [])).
  rewrite (defaultdict_getitem_eta 0 consolidated_votes).
  rewrite !dict_setitem_defaultdict. reflexivity.
Qed.

Lemma aligned_keys (votes : votes_t) (consolidated_votes : consolidated_votes_t)
    (tile_map : tile_map_t) :
  aligned votes consolidated_votes tile_map ->
  keys consolidated_votes = keys votes /\ keys tile_map = keys votes.
Proof.
  induction 1 as [| k inner n tile v c t _ _ _ _ _ [IHc IHt]]; simpl.
  - split; reflexivity.
  - rewrite IHc, IHt. split; reflexivity.
Qed.

(** One vote keeps the three dictionaries aligned. *)
Lemma aligned_vote (votes : votes_t) (consolidated_votes : consolidated_votes_t)
    (tile_map : tile_map_t) (tile : list Z) (tr : Transform) :
  aligned votes consolidated_votes tile_map ->
  let k := hash_tile tile in
  let inner := dict_get_default votes k [] in
  aligned
    (dict_setitem votes k
       (dict_setitem inner tr (dict_get_default inner tr 0 + 1)))
    (dict_setitem consolidated_votes k
       (dict_get_default consolidated_votes k 0 + 1))
    (dict_setitem tile_map k tile).
Proof.
  intros Hal k. subst k.
  induction Hal as [| k0 inner0 n0 tile0 v c t Hne Hnd Hsum Hhash Hal IH].
  - cbn. apply aligned_cons; try reflexivity.
    + discriminate.
    + constructor; [intros [] | constructor].
    + apply aligned_nil.
  - unfold dict_get_default in *. simpl.
    destruct (key_eqb (hash_tile tile) k0) eqn:Hk.
    + apply aligned_cons.
      * apply dict_setitem_not_nil.
      * apply NoDup_keys_setitem. exact Hnd.
      * pose proof (sum_values_increment inner0 tr 1) as Hinc.
        unfold dict_get_default in Hinc. rewrite Hinc. lia.
      * apply key_eqb_eq in Hk. exact Hk.
      * exact Hal.
    + apply aligned_cons; assumption.
Qed.

(** The state of the tally after any sequence of votes. *)
Lemma consolidateVotes_tally_aligned (all_possibilities : list (list Z * Transform)) :
  forall votes consolidated_votes tile_map,
    aligned votes consolidated_votes tile_map ->
    NoDup (keys votes) ->
    forall votes' consolidated_votes' tile_map',
      fold_left consolidateVotes_vote all_possibilities
                (votes, consolidated_votes, tile_map)
      = (votes', consolidated_votes', tile_map') ->
      aligned votes' consolidated_votes' tile_map' /\ NoDup (keys votes').
Proof.
  induction all_possibilities as [| [tile tr] rest IH];
    intros v c t Hal Hnd v' c' t'; cbn [fold_left].
  - intros Heq. injection Heq as <- <- <-. split; assumption.
  - rewrite consolidateVotes_vote_eq. cbv zeta. apply IH.
    + apply aligned_vote. exact Hal.
    + apply NoDup_keys_setitem. exact Hnd.
Qed.

(** What [consolidateVotes] returns is aligned. *)
Lemma consolidateVotes_aligned (neighborhood_labels : list (list (list Z)))
    (votes : votes_t) (consolidated_votes : consolidated_votes_t)
    (tile_map : tile_map_t) :
  consolidateVotes neighborhood_labels
  = Ok (votes, consolidated_votes, tile_map) ->
  aligned votes consolidated_votes tile_map /\ NoDup (keys votes).
Proof.
  unfold consolidateVotes. intros Hrun.
  apply bind_Ok_inv in Hrun. destruct Hrun as (possibilities & _ & Hrun).
  apply bind_Ok_inv in Hrun. destruct Hrun as (all_possibilities & _ & Hrun).
  injection Hrun as Hrun. unfold consolidateVotes_tally in Hrun.
  eapply consolidateVotes_tally_aligned; [apply aligned_nil | constructor | exact Hrun].
Qed.

(** ** The selector's score *)

Lemma findBest2_label_total (tile : list Z) (score : Score) :
  total_votes (fold_left findBest2_label tile score) = total_votes score.
Proof.
  revert score. induction tile as [| label tile IH]; intros score; simpl.
  - reflexivity.
  - rewrite IH. unfold findBest2_label. destruct (label <? 0); reflexivity.
Qed.

(** The total that [findBest2] recomputes is the sum of the per-transform
    counts. *)
Lemma findBest2_subcount_total (count : Z) (inner : dict Transform Z)
    (score : Score) :
  total_votes (fold_left (findBest2_subcount count) inner score)
  = total_votes score + sum_values inner.
Proof.
  revert score. induction inner as [| [tr subcount] inner IH]; intros score.
  - unfold sum_values; simpl. lia.
  - cbn [fold_left]. rewrite IH.
    unfold sum_values, values; simpl.
    destruct (isIdentity tr); simpl; lia.
Qed.

Lemma findBest2_score_total (votes : votes_t) (tile_map : tile_map_t)
    (k : string) (count : Z) (tile : list Z) :
  dict_get tile_map k = Some tile ->
  sum_values (dict_get_default votes k []) = count ->
  exists score,
    findBest2_score votes tile_map k count = Ok score
    /\ total_votes score = count.
Proof.
  intros Htile Hsum. unfold findBest2_score, dict_getitem.
  rewrite Htile. cbn [bind]. cbv zeta. rewrite defaultdict_getitem_fst.
  match goal with
  | |- context [fold_left (findBest2_subcount count) ?d ?s] =>
      assert (total_votes (fold_left (findBest2_subcount count) d s) = count)
        as Htot
        by (rewrite findBest2_subcount_total, findBest2_label_total;
            simpl; exact Hsum)
  end.
  eexists. split; [| exact Htot].
  rewrite Htot, Z.eqb_refl. reflexivity.
Qed.

(** What an aligned state records about a signature of the consolidated
    dictionary. *)
Lemma aligned_lookup (votes : votes_t) (consolidated_votes : consolidated_votes_t)
    (tile_map : tile_map_t) :
  aligned votes consolidated_votes tile_map ->
  NoDup (keys votes) ->
  forall k n, In (k, n) consolidated_votes ->
    exists inner tile,
      dict_get votes k = Some inner
      /\ dict_get tile_map k = Some tile
      /\ sum_values inner = n
      /\ hash_tile tile = k.
Proof.
  induction 1 as [| k0 inner0 n0 tile0 v c t Hne Hnd Hsum Hhash Hal IH];
    intros Hkeys k n Hin.
  - destruct Hin.
  - simpl in Hkeys. inversion Hkeys as [| ? ? Hnot Hkeys']; subst.
    destruct Hin as [Heq | Hin].
    + injection Heq as <- <-. exists inner0, tile0. simpl.
      rewrite key_eqb_refl. auto.
    + destruct (IH Hkeys' k n Hin) as (inner & tile & Hv & Ht & Hs & Hh).
      exists inner, tile. simpl.
      assert (key_eqb k (hash_tile tile0) = false) as Hk.
      { apply key_eqb_neq. intros ->. apply Hnot.
        eapply dict_get_in_keys. exact Hv. }
      rewrite Hk. auto.
Qed.

(** On an aligned state every score is computed and the assertion holds. *)
Lemma findBest2_aligned (votes : votes_t) (consolidated_votes : consolidated_votes_t)
    (tile_map : tile_map_t) :
  aligned votes consolidated_votes tile_map ->
  NoDup (keys votes) ->
  (forall k n, In (k, n) consolidated_votes ->
     exists score, findBest2_score votes tile_map k n = Ok score
                   /\ total_votes score = n)
  /\ exists sel, findBest2 votes consolidated_votes tile_map = Ok sel.
Proof.
  intros Hal Hnd.
  assert (forall k n, In (k, n) consolidated_votes ->
            exists score, findBest2_score votes tile_map k n = Ok score
                          /\ total_votes score = n) as Hscore.
  { intros k n Hin.
    destruct (aligned_lookup _ _ _ Hal Hnd k n Hin) as (inner & tile & Hv & Ht & Hs & _).
    apply (findBest2_score_total votes tile_map k n tile Ht).
    unfold dict_get_default. rewrite Hv. exact Hs. }
  split; [exact Hscore |].
  unfold findBest2. apply for_in_total.
  intros [k n] Hin st.
  destruct (Hscore k n Hin) as (score & -> & _). simpl.
  eexists. reflexivity.
Qed.

(** ** Consolidation returns *)

Lemma negated_product_four (nb : list (list Z)) (tile : list Z) :
  In tile (negated_product nb) -> List.length tile = 4%nat.
Proof.
  intros Hin.
  apply in_flat_map in Hin. destruct Hin as (l0 & _ & Hin).
  apply in_flat_map in Hin. destruct Hin as (l1 & _ & Hin).
  apply in_flat_map in Hin. destruct Hin as (l2 & _ & Hin).
  apply in_flat_map in Hin. destruct Hin as (l3 & _ & Hin).
  destruct Hin as [<- | []]. reflexivity.
Qed.

Lemma consolidateVotes_all_possibilities_total (possibilities : list (list Z)) :
  Forall (fun tile => List.length tile = 4%nat) possibilities ->
  exists all_possibilities,
    consolidateVotes_all_possibilities possibilities = Ok all_possibilities.
Proof.
  intros Hfour. unfold consolidateVotes_all_possibilities.
  apply for_in_total. intros tile Hin.
  rewrite Forall_forall in Hfour. specialize (Hfour tile Hin).
  apply for_in_total. intros tr _ acc.
  destruct (transform_tile_four tile tr Hfour) as (out & -> & _). simpl.
  eexists. reflexivity.
Qed.

(** On neighbourhoods of four slots [consolidateVotes] never raises. *)
Lemma consolidateVotes_total (neighborhood_labels : list (list (list Z))) :
  Forall (fun nb => List.length nb = 4%nat) neighborhood_labels ->
  exists r, consolidateVotes neighborhood_labels = Ok r.
Proof.
  intros Hfour. unfold consolidateVotes.
  rewrite (possibilities_of_four_slots _ Hfour). cbn [bind].
  destruct (consolidateVotes_all_possibilities_total
              (flat_map (fun nb => negated_product nb) neighborhood_labels))
    as (all_possibilities & ->).
  - apply Forall_forall. intros tile Hin.
    apply in_flat_map in Hin. destruct Hin as (nb & _ & Hin).
    exact (negated_product_four nb tile Hin).
  - cbn [bind]. eexists. reflexivity.
Qed.

(** C9: in what [consolidateVotes] returns, the per-transform counts of
    every signature add up to its consolidated count; [findBest2] recomputes
    that sum as the score's total, so its assertion passes for every
    signature and [findBest2] returns a selection. *)
Theorem consolidateVotes_totals_consistent
    (neighborhood_labels : list (list (list Z)))
    (votes : votes_t) (consolidated_votes : consolidated_votes_t)
    (tile_map : tile_map_t) :
  consolidateVotes neighborhood_labels
  = Ok (votes, consolidated_votes, tile_map) ->
  (forall k count, In (k, count) consolidated_votes ->
     sum_values (dict_get_default votes k []) = count
     /\ exists score,
          findBest2_score votes tile_map k count = Ok score
          /\ total_votes score = count)
  /\ exists sel, findBest2 votes consolidated_votes tile_map = Ok sel.
Proof.
  intros Hrun.
  destruct (consolidateVotes_aligned _ _ _ _ Hrun) as [Hal Hnd].
  destruct (findBest2_aligned _ _ _ Hal Hnd) as [Hscore Hsel].
  split; [| exact Hsel].
  intros k count Hin. split; [| exact (Hscore k count Hin)].
  destruct (aligned_lookup _ _ _ Hal Hnd k count Hin) as (inner & tile & Hv & _ & Hs & _).
  unfold dict_get_default. rewrite Hv. exact Hs.
Qed.

(** ** Reading and assigning the same key *)

Section GetSet.
Context {K V : Type} {E : PyKey K} {L : PyKeyLawful K}.

Lemma dict_get_setitem (d : dict K V) (k : K) (v : V) :
  dict_get (dict_setitem d k v) k = Some v.
Proof.
  induction d as [| [k0 v0] d IH]; simpl.
  - rewrite key_eqb_refl. reflexivity.
  - destruct (key_eqb k k0) eqn:Hk; simpl; rewrite Hk; [reflexivity | exact IH].
Qed.

Lemma dict_get_setitem_other (d : dict K V) (k k' : K) (v : V) :
  k' <> k -> dict_get (dict_setitem d k v) k' = dict_get d k'.
Proof.
  intros Hne. induction d as [| [k0 v0] d IH]; simpl.
  - rewrite key_eqb_neq by exact Hne. reflexivity.
  - destruct (key_eqb k k0) eqn:Hk; simpl.
    + apply key_eqb_eq in Hk. subst k0.
      rewrite key_eqb_neq by exact Hne. reflexivity.
    + rewrite IH. reflexivity.
Qed.

Lemma dict_setitem_setitem (d : dict K V) (k : K) (v v' : V) :
  dict_setitem (dict_setitem d k v) k v' = dict_setitem d k v'.
Proof.
  induction d as [| [k0 v0] d IH]; simpl.
  - rewrite key_eqb_refl. reflexivity.
  - destruct (key_eqb k k0) eqn:Hk; simpl; rewrite Hk; [reflexivity |].
    rewrite IH. reflexivity.
Qed.

(** What a [defaultdict] read returns and leaves behind. *)
Lemma defaultdict_getitem_eq (default : V) (d : dict K V) (k : K) :
  defaultdict_getitem default d k
  = (dict_get_default d k default,
     dict_setitem d k (dict_get_default d k default)).
Proof.
  unfold defaultdict_getitem, dict_get_default.
  destruct (dict_get d k) eqn:Hget.
  - rewrite dict_setitem_same by exact Hget. reflexivity.
  - apply dict_get_None_not_in in Hget.
    rewrite dict_setitem_not_in by exact Hget. reflexivity.
Qed.

Lemma dict_get_default_setitem (d : dict K V) (k : K) (v default : V) :
  dict_get_default (dict_setitem d k v) k default = v.
Proof. unfold dict_get_default. rewrite dict_get_setitem. reflexivity. Qed.

Lemma dict_get_default_not_in (d : dict K V) (k : K) (default : V) :
  ~ In k (keys d) -> dict_get_default d k default = default.
Proof.
  intros Hnot. unfold dict_get_default.
  rewrite dict_get_not_in by exact Hnot. reflexivity.
Qed.

Lemma dict_get_default_app_last (d : dict K V) (k : K) (v default : V) :
  ~ In k (keys d) -> dict_get_default (d ++ [(k, v)]) k default = v.
Proof.
  intros Hnot. unfold dict_get_default.
  rewrite dict_get_app_last by exact Hnot. reflexivity.
Qed.

End GetSet.

(** ** Import of a vote dump *)

Lemma Transform_eta (tr : Transform) :
  mkTransform (flipX tr) (flipY tr) (rotation tr) = tr.
Proof. destruct tr; reflexivity. Qed.

(** One entry of a record, with the [defaultdict] reads resolved: the
    assertion is on the count recorded so far for the transform. *)
Lemma importVotes_entry_eq (k : string) (entry : CountEntry)
    (check_votes : votes_t) (check_consolidated_votes : consolidated_votes_t) :
  importVotes_entry k entry (check_votes, check_consolidated_votes)
  = (let tr := entry_transform entry in
     let inner := dict_get_default check_votes k [] in
     let n := dict_get_default inner tr 0 in
     _ <- assert (n =? 0) ;;
     Ok (dict_setitem check_votes k
           (dict_setitem inner tr (n + entry_count entry)),
         dict_setitem check_consolidated_votes k
           (dict_get_default check_consolidated_votes k 0 + entry_count entry))).
Proof.
  unfold importVotes_entry. cbv zeta. rewrite Transform_eta.
  rewrite (defaultdict_getitem_eq [] check_votes).
  rewrite (defaultdict_getitem_eq 0 (dict_get_default check_votes k [])).
  rewrite dict_setitem_setitem.
  destruct (dict_get_default (dict_get_default check_votes k [])
              (entry_transform entry) 0 =? 0); simpl; [| reflexivity].
  rewrite (defaultdict_getitem_eq [] (dict_setitem check_votes k _)).
  rewrite dict_get_default_setitem.
  rewrite (defaultdict_getitem_eq 0 (dict_setitem _ (entry_transform entry) _)).
  rewrite dict_get_default_setitem.
  rewrite (defaultdict_getitem_eq 0 check_consolidated_votes).
  rewrite !dict_setitem_setitem. reflexivity.
Qed.

(** The counts of a record, as the dump lists them. *)
Local Abbreviation entries_of inner :=
  (map (fun p : Transform * Z => mkCountEntry (fst p) (snd p)) inner).

(** The loop over a record's counts, once the signature [k] has its entry
    at the end of both dictionaries. *)
Lemma importVotes_entries_loop (k : string) (v1 : votes_t)
    (c1 : consolidated_votes_t) :
  ~ In k (keys v1) -> ~ In k (keys c1) ->
  forall (q p : dict Transform Z),
    NoDup (keys (p ++ q)) ->
    for_in (entries_of q) (importVotes_entry k)
           (v1 ++ [(k, p)], c1 ++ [(k, sum_values p)])
    = Ok (v1 ++ [(k, p ++ q)], c1 ++ [(k, sum_values (p ++ q))]).
Proof.
  intros Hv Hc. induction q as [| [tr cnt] q IH]; intros p Hnd.
  - rewrite app_nil_r. reflexivity.
  - cbn [map for_in]. rewrite importVotes_entry_eq. cbv zeta.
    cbn [entry_transform entry_count fst snd].
    assert (~ In tr (keys p)) as Htr.
    { unfold keys in *. rewrite map_app in Hnd. simpl in Hnd.
      apply NoDup_remove_2 in Hnd. intros Hin. apply Hnd.
      apply in_or_app. left. exact Hin. }
    rewrite (dict_get_default_app_last v1 k p []) by exact Hv.
    rewrite (dict_get_default_not_in p tr 0) by exact Htr.
    rewrite (dict_setitem_not_in p tr) by exact Htr.
    rewrite (dict_setitem_app_last v1 k) by exact Hv.
    rewrite (dict_get_default_app_last c1 k _ 0) by exact Hc.
    rewrite (dict_setitem_app_last c1 k) by exact Hc.
    cbn [Z.eqb assert bind Z.add].
    replace (sum_values p + cnt) with (sum_values (p ++ [(tr, cnt)]))
      by (rewrite sum_values_app; unfold sum_values; simpl; lia).
    rewrite IH by (rewrite <- app_assoc; exact Hnd).
    rewrite <- app_assoc. reflexivity.
Qed.

(** Importing the record of a signature that is new to the dictionaries
    built so far. *)
Lemma importVotes_record_new (tile : list Z) (inner : dict Transform Z)
    (v1 : votes_t) (c1 : consolidated_votes_t) (tile_map : tile_map_t) :
  ~ In (hash_tile tile) (keys v1) -> ~ In (hash_tile tile) (keys c1) ->
  inner <> [] -> NoDup (keys inner) ->
  importVotes_record (mkVoteRecord tile (entries_of inner)) (v1, c1, tile_map)
  = Ok (v1 ++ [(hash_tile tile, inner)],
        c1 ++ [(hash_tile tile, sum_values inner)],
        dict_setitem tile_map (hash_tile tile) tile).
Proof.
  intros Hv Hc Hne Hnd.
  unfold importVotes_record. cbn [record_tile record_counts]. cbv zeta.
  rewrite (defaultdict_getitem_eq 0 c1).
  rewrite (dict_get_default_not_in c1 _ 0) by exact Hc.
  rewrite (dict_setitem_not_in c1) by exact Hc.
  cbn [Z.eqb assert bind].
  destruct inner as [| [tr cnt] q]; [contradiction |].
  cbn [map for_in]. rewrite importVotes_entry_eq. cbv zeta.
  cbn [entry_transform entry_count fst snd].
  rewrite (dict_get_default_not_in v1 _ []) by exact Hv.
  rewrite (dict_setitem_not_in v1) by exact Hv.
  rewrite (dict_get_default_app_last c1 _ 0 0) by exact Hc.
  rewrite (dict_setitem_app_last c1) by exact Hc.
  cbn -[for_in sum_values dict_setitem].
  replace cnt with (sum_values [(tr, cnt)]) at 2
    by (unfold sum_values; simpl; lia).
  pose proof (importVotes_entries_loop _ v1 c1 Hv Hc q [(tr, cnt)] Hnd)
    as Hloop.
  match goal with
  | |- bind ?run _ = _ =>
      replace run
        with (Ok (v1 ++ [(hash_tile tile, [(tr, cnt)] ++ q)],
                  c1 ++ [(hash_tile tile, sum_values ([(tr, cnt)] ++ q))]))
        by (symmetry; exact Hloop)
  end.
  reflexivity.
Qed.

(** ** The entries of an aligned state *)

(** Entry by entry, what an aligned state holds. *)
Lemma aligned_entries (votes : votes_t) (consolidated_votes : consolidated_votes_t)
    (tile_map : tile_map_t) :
  aligned votes consolidated_votes tile_map ->
  NoDup (keys votes) ->
  Forall (fun item : string * dict Transform Z =>
            snd item <> [] /\ NoDup (keys (snd item))
            /\ exists tile, dict_get tile_map (fst item) = Some tile
                            /\ hash_tile tile = fst item) votes
  /\ consolidated_votes
     = map (fun item : string * dict Transform Z =>
              (fst item, sum_values (snd item))) votes.
Proof.
  induction 1 as [| k0 inner0 n0 tile0 v c t Hne Hnd Hsum Hhash Hal IH];
    intros Hkeys.
  - split; [constructor | reflexivity].
  - simpl in Hkeys. inversion Hkeys as [| ? ? Hnot Hkeys']; subst.
    destruct (IH Hkeys') as [Hall Hc]. split.
    + constructor.
      * cbn [fst snd]. repeat split; try assumption.
        exists tile0. simpl. rewrite key_eqb_refl. auto.
      * rewrite Forall_forall in *. intros [k inner] Hin.
        destruct (Hall _ Hin) as (H1 & H2 & tile & Ht & Hh).
        cbn [fst snd] in *. repeat split; try assumption.
        exists tile. simpl.
        rewrite key_eqb_neq; [auto |].
        intros ->. apply Hnot. unfold keys.
        change (hash_tile tile0) with (fst (hash_tile tile0, inner)).
        apply in_map. exact Hin.
    + simpl. rewrite <- Hc. reflexivity.
Qed.

(** ** Ranking *)

(** The order of the specification: more votes; then fewer flipped edges;
    then more untransformed votes. *)
Local Abbreviation lex_better a b :=
  (total_votes a > total_votes b
   \/ (total_votes a = total_votes b
       /\ (flipped_edges a < flipped_edges b
           \/ (flipped_edges a = flipped_edges b
               /\ untransformed_votes a > untransformed_votes b)))).

Lemma Score_gt_lex (a b : Score) : Score_gt a b = true <-> lex_better a b.
Proof.
  unfold Score_gt. rewrite !Z.gtb_ltb.
  destruct (Z.ltb_spec (total_votes b) (total_votes a));
    destruct (Z.ltb_spec (total_votes a) (total_votes b));
    destruct (Z.ltb_spec (flipped_edges a) (flipped_edges b));
    destruct (Z.ltb_spec (flipped_edges b) (flipped_edges a));
    destruct (Z.ltb_spec (untransformed_votes b) (untransformed_votes a));
    destruct (Z.ltb_spec (untransformed_votes a) (untransformed_votes b));
    split; intros Hgt; try reflexivity; try discriminate Hgt; lia.
Qed.

Lemma Score_gt_false_lex (a b : Score) :
  Score_gt a b = false <-> ~ lex_better a b.
Proof.
  rewrite <- Score_gt_lex. destruct (Score_gt a b); split; intros Hf;
    try reflexivity; try discriminate Hf; try (intros Ht; discriminate Ht).
  exfalso. apply Hf. reflexivity.
Qed.

(** A score that beats [b] beats every score that does not beat [b]. *)
Lemma Score_gt_above (a b c : Score) :
  Score_gt a b = true -> Score_gt c b = false -> Score_gt a c = true.
Proof.
  rewrite (Score_gt_lex a b), (Score_gt_false_lex c b), (Score_gt_lex a c). lia.
Qed.

(** The best signature after the loop has gone through [done]: it is the
    first entry of [done] whose score no entry's score beats. *)
Local Abbreviation first_best votes tile_map done best best_score :=
  (match best, best_score with
   | Some k, Some s =>
       exists pre n post,
         done = pre ++ (k, n) :: post
         /\ findBest2_score votes tile_map k n = Ok s
         /\ (forall k' n', In (k', n') pre ->
               exists s', findBest2_score votes tile_map k' n' = Ok s'
                          /\ Score_gt s s' = true)
         /\ (forall k' n', In (k', n') post ->
               exists s', findBest2_score votes tile_map k' n' = Ok s'
                          /\ Score_gt s' s = false)
   | None, None => done = []
   | _, _ => False
   end).

Section Selection.
Variables (votes : votes_t) (tile_map : tile_map_t).

Lemma findBest2_update_first_best (done : consolidated_votes_t)
    (k : string) (n : Z) (score : Score)
    (best : option string) (best_score : option Score)
    (second_best : option string) (second_best_score : option Score) :
  findBest2_score votes tile_map k n = Ok score ->
  first_best votes tile_map done best best_score ->
  forall best' best_score' second_best' second_best_score',
    findBest2_update k score (best, best_score, second_best, second_best_score)
    = (best', best_score', second_best', second_best_score') ->
    first_best votes tile_map (done ++ [(k, n)]) best' best_score'.
Proof.
  intros Hscore Hinv b' bs' sb' sbs'. unfold findBest2_update.
  destruct best as [kb |], best_score as [s |]; try contradiction.
  - destruct Hinv as (pre & nb & post & -> & Hb & Hpre & Hpost).
    cbn [is_None_or_gt]. destruct (Score_gt score s) eqn:Hgt.
    + intros Heq. injection Heq as <- <- <- <-.
      exists (pre ++ (kb, nb) :: post), n, []. repeat split; auto.
      * intros k' n' Hin. apply in_app_or in Hin.
        destruct Hin as [Hin | [Heq | Hin]].
        -- destruct (Hpre k' n' Hin) as (s' & Hs' & Hgt').
           exists s'. split; [exact Hs' |].
           apply Score_gt_above with (b := s); [exact Hgt |].
           apply Score_gt_false_lex. apply Score_gt_lex in Hgt'. lia.
        -- injection Heq as <- <-. exists s. auto.
        -- destruct (Hpost k' n' Hin) as (s' & Hs' & Hgt').
           exists s'. split; [exact Hs' |].
           apply Score_gt_above with (b := s); assumption.
      * intros k' n' [].
    + intros Heq.
      assert (b' = Some kb /\ bs' = Some s) as [-> ->]
        by (destruct (is_None_or_gt score second_best_score);
            injection Heq as <- <- _ _; auto).
      exists pre, nb, (post ++ [(k, n)]). repeat split; auto.
      * rewrite <- app_assoc. reflexivity.
      * intros k' n' Hin. apply in_app_or in Hin.
        destruct Hin as [Hin | [Heq' | []]]; [exact (Hpost k' n' Hin) |].
        injection Heq' as <- <-. exists score. auto.
  - subst done. cbn [is_None_or_gt]. intros Heq. injection Heq as <- <- <- <-.
    exists [], n, []. repeat split; auto; intros k' n' [].
Qed.

Lemma findBest2_loop_first_best (rest : consolidated_votes_t) :
  forall (done : consolidated_votes_t)
         (best : option string) (best_score : option Score)
         (second_best : option string) (second_best_score : option Score)
         best' best_score' second_best' second_best_score',
    first_best votes tile_map done best best_score ->
    for_in rest (fun (item : string * Z) st =>
                   let '(k, count) := item in
                   score <- findBest2_score votes tile_map k count ;;
                   Ok (findBest2_update k score st))
           (best, best_score, second_best, second_best_score)
    = Ok (best', best_score', second_best', second_best_score') ->
    first_best votes tile_map (done ++ rest) best' best_score'.
Proof.
  induction rest as [| [k n] rest IH];
    intros done b bs sb sbs b' bs' sb' sbs' Hinv Hrun.
  - simpl in Hrun. injection Hrun as <- <- <- <-.
    rewrite app_nil_r. exact Hinv.
  - cbn [for_in] in Hrun.
    apply bind_Ok_inv in Hrun. destruct Hrun as (st & Hbody & Hrun).
    apply bind_Ok_inv in Hbody. destruct Hbody as (score & Hscore & Hst).
    injection Hst as Hst.
    destruct st as [[[b1 bs1] sb1] sbs1].
    change (done ++ (k, n) :: rest) with (done ++ [(k, n)] ++ rest).
    rewrite app_assoc.
    eapply IH; [| exact Hrun].
    eapply findBest2_update_first_best; [exact Hscore | exact Hinv |].
    exact Hst.
Qed.

End Selection.

(** C5: [Score.__gt__] is the strict lexicographic order (more total votes;
    then fewer flipped edges; then more untransformed votes), and the best
    signature that [findBest2] returns is the first one in iteration order
    whose score none beats: it beats every earlier score and no later score
    beats it, so among equal scores the first met is kept.  Of two
    signatures with 5 total votes each and 1 and 2 flipped edges, the one
    with 1 flipped edge is the best whatever the untransformed votes and
    the order are. *)
Theorem findBest2_ranking :
  (forall a b : Score, Score_gt a b = true <-> lex_better a b)
  /\ (forall votes consolidated_votes tile_map
             best best_score second_best second_best_score,
        findBest2 votes consolidated_votes tile_map
        = Ok (best, best_score, second_best, second_best_score) ->
        first_best votes tile_map consolidated_votes best best_score)
  /\ (forall votes tile_map k1 n1 s1 k2 n2 s2,
        findBest2_score votes tile_map k1 n1 = Ok s1 ->
        findBest2_score votes tile_map k2 n2 = Ok s2 ->
        total_votes s1 = 5 -> total_votes s2 = 5 ->
        flipped_edges s1 = 1 -> flipped_edges s2 = 2 ->
        findBest2 votes [(k1, n1); (k2, n2)] tile_map
        = Ok (Some k1, Some s1, Some k2, Some s2)
        /\ findBest2 votes [(k2, n2); (k1, n1)] tile_map
           = Ok (Some k1, Some s1, Some k2, Some s2)).
Proof.
  split; [exact Score_gt_lex |]. split.
  - intros votes c tile_map b bs sb sbs Hrun.
    apply (findBest2_loop_first_best votes tile_map c [] None None None None
             b bs sb sbs eq_refl Hrun).
  - intros votes tile_map k1 n1 s1 k2 n2 s2 H1 H2 Ht1 Ht2 Hf1 Hf2.
    assert (Score_gt s1 s2 = true) as H12 by (apply Score_gt_lex; lia).
    assert (Score_gt s2 s1 = false) as H21 by (apply Score_gt_false_lex; lia).
    unfold findBest2. cbn [for_in]. rewrite H1, H2. cbn [bind].
    unfold findBest2_update. cbn [is_None_or_gt]. rewrite H12, H21.
    split; reflexivity.
Qed.

Lemma findBest2_ranking_witness :
  let votes : votes_t :=
    [("-1234"%string, [(mkTransform false false 0, 5)]);
     ("-1-234"%string, [(mkTransform false false 1, 5)])] in
  let tile_map : tile_map_t :=
    [("-1234"%string, [-1; 2; 3; 4]); ("-1-234"%string, [-1; -2; 3; 4])] in
  findBest2 votes [("-1234"%string, 5); ("-1-234"%string, 5)] tile_map
  = Ok (Some "-1234"%string, Some (mkScore 5 5 1),
        Some "-1-234"%string, Some (mkScore 5 0 2))
  /\ findBest2 votes [("-1-234"%string, 5); ("-1234"%string, 5)] tile_map
     = Ok (Some "-1234"%string, Some (mkScore 5 5 1),
           Some "-1-234"%string, Some (mkScore 5 0 2)).
Proof.
  intros votes tile_map.
  apply (proj2 (proj2 findBest2_ranking) votes tile_map
           "-1234"%string 5 (mkScore 5 5 1) "-1-234"%string 5 (mkScore 5 0 2));
    reflexivity.
Defined.

(** ** Repeated signatures in a dump *)

(** C10: when the records imported so far have left a nonzero count for the
    signature of the next record, [importVotes] fails on that record with
    an assertion error, whatever the record's transforms are. *)
Theorem importVotes_repeated_signature
    (pre : list VoteRecord) (v : VoteRecord) (post : list VoteRecord)
    (tile_map : tile_map_t)
    (check_votes : votes_t) (check_consolidated_votes : consolidated_votes_t)
    (tile_map' : tile_map_t) :
  importVotes pre tile_map
  = Ok (check_votes, check_consolidated_votes, tile_map') ->
  dict_get_default check_consolidated_votes (hash_tile (record_tile v)) 0 <> 0 ->
  importVotes (pre ++ v :: post) tile_map = Raise AssertionError.
Proof.
  unfold importVotes. intros Hpre Hcount.
  rewrite for_in_app, Hpre. cbn [bind for_in].
  unfold importVotes_record.
  rewrite (defaultdict_getitem_eq 0 check_consolidated_votes).
  apply Z.eqb_neq in Hcount. rewrite Hcount. reflexivity.
Qed.

Lemma importVotes_repeated_signature_witness :
  let first := mkVoteRecord [1; 2; 3; 4]
                 [mkCountEntry (mkTransform false false 0) 2] in
  let second := mkVoteRecord [1; 2; 3; 4]
                  [mkCountEntry (mkTransform false false 1) 3] in
  importVotes [first] []
  = Ok ([("1234"%string, [(mkTransform false false 0, 2)])],
        [("1234"%string, 2)], [("1234"%string, [1; 2; 3; 4])])
  /\ importVotes [second] []
     = Ok ([("1234"%string, [(mkTransform false false 1, 3)])],
           [("1234"%string, 3)], [("1234"%string, [1; 2; 3; 4])])
  /\ importVotes ([first] ++ second :: []) [] = Raise AssertionError.
Proof.
  intros first second.
  split; [reflexivity |]. split; [reflexivity |].
  apply (importVotes_repeated_signature [first] second [] []
           [("1234"%string, [(mkTransform false false 0, 2)])]
           [("1234"%string, 2)] [("1234"%string, [1; 2; 3; 4])]).
  - reflexivity.
  - vm_compute. discriminate.
Defined.

(** ** Untransformed votes *)

Lemma findBest2_label_untransformed (tile : list Z) (score : Score) :
  untransformed_votes (fold_left findBest2_label tile score)
  = untransformed_votes score.
Proof.
  revert score. induction tile as [| label tile IH]; intros score; simpl.
  - reflexivity.
  - rewrite IH. unfold findBest2_label. destruct (label <? 0); reflexivity.
Qed.

Lemma findBest2_subcount_untransformed (count : Z) (inner : dict Transform Z)
    (score : Score) :
  untransformed_votes (fold_left (findBest2_subcount count) inner score)
  = if existsb isIdentity (keys inner) then count
    else untransformed_votes score.
Proof.
  revert score. induction inner as [| [tr subcount] inner IH]; intros score.
  - reflexivity.
  - cbn [fold_left]. rewrite IH. simpl.
    destruct (isIdentity tr), (existsb isIdentity (keys inner)); reflexivity.
Qed.

(** What the code computes: the untransformed votes of a signature are its
    consolidated count when the identity transform has an entry, 0 otherwise. *)
Lemma findBest2_score_untransformed (votes : votes_t) (tile_map : tile_map_t)
    (k : string) (count : Z) (score : Score) :
  findBest2_score votes tile_map k count = Ok score ->
  untransformed_votes score
  = if existsb isIdentity (keys (dict_get_default votes k [])) then count
    else 0.
Proof.
  unfold findBest2_score. intros Hrun.
  apply bind_Ok_inv in Hrun. destruct Hrun as (tile & _ & Hrun).
  cbv zeta in Hrun.
  apply bind_Ok_inv in Hrun. destruct Hrun as (_ & _ & Hrun).
  injection Hrun as <-.
  rewrite findBest2_subcount_untransformed, findBest2_label_untransformed.
  rewrite defaultdict_getitem_fst. reflexivity.
Qed.

(** C3 fails on the code: for the single candidate [[1,1,1,1]] the signature
    ["1111"] has one vote from the identity transform and four in total, and
    the score that [findBest2] returns for it has 4 untransformed votes. *)
Theorem findBest2_untransformed_votes_is_total :
  suggestion [[[-1]; [-1]; [-1]; [-1]]]
  = Ok (Some "1111"%string, Some (mkScore 4 4 0),
        Some "-11-11"%string, Some (mkScore 4 0 2))
  /\ exists votes consolidated_votes tile_map,
       consolidateVotes [[[-1]; [-1]; [-1]; [-1]]]
       = Ok (votes, consolidated_votes, tile_map)
       /\ dict_get_default (dict_get_default votes "1111"%string [])
                           (mkTransform false false 0) 0 = 1
       /\ dict_get consolidated_votes "1111"%string = Some 4.
Proof.
  split; [reflexivity |].
  vm_compute. do 3 eexists. repeat split.
Qed.

(** ** Empty admissible-label sets *)

Lemma flat_map_nil {A B : Type} (f : A -> list B) (l : list A) :
  (forall x, f x = []) -> flat_map f l = [].
Proof.
  intros Hf. induction l as [| x l IH]; simpl.
  - reflexivity.
  - rewrite Hf, IH. reflexivity.
Qed.

(** A neighbourhood with an empty slot has no candidate. *)
Lemma negated_product_empty_slot (s0 s1 s2 s3 : list Z) :
  In [] [s0; s1; s2; s3] -> negated_product [s0; s1; s2; s3] = [].
Proof.
  cbn [nth]. intros [-> | [-> | [-> | [-> | []]]]].
  - reflexivity.
  - apply flat_map_nil. intros l0. reflexivity.
  - apply flat_map_nil. intros l0.
    apply flat_map_nil. intros l1. reflexivity.
  - apply flat_map_nil. intros l0.
    apply flat_map_nil. intros l1.
    apply flat_map_nil. intros l2. reflexivity.
Qed.

(** C4 fails on the code: the first neighbourhood has an empty slot, and
    the computation returns the suggestion of the second one alone. *)
Lemma suggestion_empty_slot_accepted :
  In [] (nth 0 [[[1]; []; [3]; [-1]]; [[1]; [-2]; [3]; [-1]]] [])
  /\ suggestion [[[1]; []; [3]; [-1]]; [[1]; [-2]; [3]; [-1]]]
     = Ok (Some "1132"%string, Some (mkScore 1 0 0),
           Some "1321"%string, Some (mkScore 1 0 0))
  /\ suggestion [[[1]; [-2]; [3]; [-1]]]
     = Ok (Some "1132"%string, Some (mkScore 1 0 0),
           Some "1321"%string, Some (mkScore 1 0 0)).
Proof.
  split; [simpl; auto |]. split; reflexivity.
Qed.

(** C4 as the code has it: a neighbourhood of four slots one of which is
    empty raises nothing and contributes no candidate; the other
    neighbourhoods having four slots each, the computation returns the
    suggestion computed from them alone. *)
Theorem suggestion_drops_empty_slot
    (pre post : list (list (list Z))) (s0 s1 s2 s3 : list Z) :
  In [] [s0; s1; s2; s3] ->
  Forall (fun nb => List.length nb = 4%nat) (pre ++ post) ->
  consolidateVotes_possibilities [[s0; s1; s2; s3]] = Ok []
  /\ exists sel,
       suggestion (pre ++ [s0; s1; s2; s3] :: post) = Ok sel
       /\ suggestion (pre ++ post) = Ok sel.
Proof.
  intros Hempty Hfour.
  assert (Forall (fun nb => List.length nb = 4%nat)
                 (pre ++ [s0; s1; s2; s3] :: post)) as Hfour'.
  { apply Forall_app in Hfour. destruct Hfour as [Hpre Hpost].
    apply Forall_app. split; [exact Hpre |].
    constructor; [reflexivity | exact Hpost]. }
  split.
  { rewrite possibilities_of_four_slots by (repeat constructor).
    cbn [flat_map]. rewrite (negated_product_empty_slot _ _ _ _ Hempty).
    reflexivity. }
  assert (consolidateVotes (pre ++ [s0; s1; s2; s3] :: post)
          = consolidateVotes (pre ++ post)) as Hsame.
  { unfold consolidateVotes.
    rewrite (possibilities_of_four_slots _ Hfour).
    rewrite (possibilities_of_four_slots _ Hfour').
    rewrite !flat_map_app. cbn [flat_map].
    rewrite (negated_product_empty_slot _ _ _ _ Hempty). reflexivity. }
  unfold suggestion. rewrite Hsame.
  destruct (consolidateVotes_total _ Hfour) as ([[votes c] t] & Hrun).
  rewrite Hrun. cbn [bind].
  destruct (consolidateVotes_aligned _ _ _ _ Hrun) as [Hal Hnd].
  destruct (findBest2_aligned _ _ _ Hal Hnd) as [_ (sel & Hsel)].
  exists sel. auto.
Qed.

Lemma suggestion_drops_empty_slot_witness :
  In [] [[1]; []; [3]; [-1]]
  /\ Forall (fun nb : list (list Z) => List.length nb = 4%nat)
            ([] ++ [[[1]; [-2]; [3]; [-1]]])
  /\ consolidateVotes_possibilities [[[1]; []; [3]; [-1]]] = Ok []
  /\ exists sel,
       suggestion ([] ++ [[1]; []; [3]; [-1]] :: [[[1]; [-2]; [3]; [-1]]])
       = Ok sel
       /\ suggestion ([] ++ [[[1]; [-2]; [3]; [-1]]]) = Ok sel.
Proof.
  assert (In [] [[1]; []; [3]; [-1]]) as Hempty by (simpl; auto).
  assert (Forall (fun nb : list (list Z) => List.length nb = 4%nat)
                 ([] ++ [[[1]; [-2]; [3]; [-1]]])) as Hfour
    by (repeat constructor).
  split; [exact Hempty |]. split; [exact Hfour |].
  exact (suggestion_drops_empty_slot [] [[[1]; [-2]; [3]; [-1]]]
           [1] [] [3] [-1] Hempty Hfour).
Defined.

(** ** Runs of the consolidation on one all-zero neighbourhood *)

Lemma consolidateVotes_totals_consistent_witness :
  consolidateVotes [[[0]; [0]; [0]; [0]]]
  = Ok ([("0000"%string, map (fun tr => (tr, 1)) all_transforms)],
        [("0000"%string, 16)], [("0000"%string, [0; 0; 0; 0])])
  /\ (forall k count, In (k, count) [("0000"%string, 16)] ->
        sum_values
          (dict_get_default
             [("0000"%string, map (fun tr => (tr, 1)) all_transforms)] k [])
        = count
        /\ exists score,
             findBest2_score
               [("0000"%string, map (fun tr => (tr, 1)) all_transforms)]
               [("0000"%string, [0; 0; 0; 0])] k count = Ok score
             /\ total_votes score = count)
  /\ exists sel,
       findBest2 [("0000"%string, map (fun tr => (tr, 1)) all_transforms)]
                 [("0000"%string, 16)] [("0000"%string, [0; 0; 0; 0])]
       = Ok sel.
Proof.
  split; [reflexivity |].
  apply (consolidateVotes_totals_consistent [[[0]; [0]; [0]; [0]]]).
  reflexivity.
Defined.

(** * Further properties of the script *)

(** ** Indexing *)

(** A non-negative index reads the list at that position. *)
Lemma getitem_nonneg {A : Type} (l : list A) (i : Z) :
  0 <= i ->
  getitem l i = match nth_error l (Z.to_nat i) with
                | Some x => Ok x
                | None => Raise IndexError
                end.
Proof.
  intros Hi. unfold getitem.
  destruct (Z.ltb_spec i 0) as [Hneg | _]; [lia |].
  destruct (Z.leb_spec 0 i) as [_ | Hneg]; [| lia]. cbn [andb].
  destruct (Z.ltb_spec i (Z.of_nat (List.length l))) as [Hlt | Hge];
    [reflexivity |].
  assert (nth_error l (Z.to_nat i) = None) as ->
    by (apply nth_error_None; lia).
  reflexivity.
Qed.

(** ** Flips and rotations *)

Lemma transform_tile_rotate_mod (tile : list Z) (r : Z) :
  transform_tile_rotate tile r = transform_tile_rotate tile (r mod 4).
Proof.
  unfold transform_tile_rotate.
  rewrite !(Zplus_mod_idemp_r r). reflexivity.
Qed.

Lemma transform_tile_flipX_four (e0 e1 e2 e3 : Z) :
  transform_tile_flipX [e0; e1; e2; e3] = Ok [e2; - e1; e0; - e3].
Proof. reflexivity. Qed.

Lemma transform_tile_flipY_four (e0 e1 e2 e3 : Z) :
  transform_tile_flipY [e0; e1; e2; e3] = Ok [- e0; e3; - e2; e1].
Proof. reflexivity. Qed.

(** X1: on a tile of four labels each flip undoes itself, and the two flips
    commute. *)
Theorem flips_involutive_commute (e0 e1 e2 e3 : Z) :
  let tile := [e0; e1; e2; e3] in
  (t <- transform_tile_flipX tile ;; transform_tile_flipX t) = Ok tile
  /\ (t <- transform_tile_flipY tile ;; transform_tile_flipY t) = Ok tile
  /\ (t <- transform_tile_flipX tile ;; transform_tile_flipY t)
     = (t <- transform_tile_flipY tile ;; transform_tile_flipX t).
Proof.
  intros tile. subst tile.
  rewrite !transform_tile_flipX_four, !transform_tile_flipY_four. cbn [bind].
  rewrite !transform_tile_flipX_four, !transform_tile_flipY_four.
  rewrite !Z.opp_involutive. repeat split; reflexivity.
Qed.

(** X2: on a tile of four labels, rotating by [r1] and then by [r2] is
    rotating by [r1 + r2]; a rotation by a multiple of four changes nothing,
    so rotating by [r] and then by [4 - r] gives the tile back. *)
Theorem rotations_compose (e0 e1 e2 e3 r1 r2 : Z) :
  let tile := [e0; e1; e2; e3] in
  (t <- transform_tile_rotate tile r1 ;; transform_tile_rotate t r2)
  = transform_tile_rotate tile (r1 + r2)
  /\ transform_tile_rotate tile (4 * r1) = Ok tile
  /\ (t <- transform_tile_rotate tile r1 ;; transform_tile_rotate t (4 - r1))
     = Ok tile.
Proof.
  intros tile. subst tile.
  assert (forall a b,
            (t <- transform_tile_rotate [e0; e1; e2; e3] a ;;
             transform_tile_rotate t b)
            = transform_tile_rotate [e0; e1; e2; e3] (a + b)) as Hcomp.
  { intros a b.
    rewrite (transform_tile_rotate_mod _ a), (transform_tile_rotate_mod _ (a + b)).
    rewrite Zplus_mod.
    pose proof (Z.mod_pos_bound a 4 ltac:(lia)) as Ha.
    pose proof (Z.mod_pos_bound b 4 ltac:(lia)) as Hb.
    assert (a mod 4 = 0 \/ a mod 4 = 1 \/ a mod 4 = 2 \/ a mod 4 = 3)
      as [-> | [-> | [-> | ->]]] by lia;
      match goal with
      | |- bind (transform_tile_rotate ?t ?m) _ = _ =>
          let v := eval cbv in (transform_tile_rotate t m) in
          change (transform_tile_rotate t m) with v
      end;
      cbn [bind];
      (rewrite (transform_tile_rotate_mod _ b);
       assert (b mod 4 = 0 \/ b mod 4 = 1 \/ b mod 4 = 2 \/ b mod 4 = 3)
         as [-> | [-> | [-> | ->]]] by lia; reflexivity). }
  assert (forall a, transform_tile_rotate [e0; e1; e2; e3] (4 * a)
                    = Ok [e0; e1; e2; e3]) as Hfour.
  { intros a. rewrite transform_tile_rotate_mod.
    replace ((4 * a) mod 4) with 0
      by (symmetry; rewrite Z.mul_comm; apply Z_mod_mult).
    reflexivity. }
  split; [apply Hcomp |]. split; [apply Hfour |].
  rewrite Hcomp. replace (r1 + (4 - r1)) with (4 * 1) by lia. apply Hfour.
Qed.

(** ** Tiles that do not have four labels *)

Lemma transform_tile_rotate_long (e0 e1 e2 e3 : Z) (rest : list Z) (r : Z) :
  transform_tile_rotate (e0 :: e1 :: e2 :: e3 :: rest) r
  = transform_tile_rotate [e0; e1; e2; e3] r.
Proof.
  rewrite (transform_tile_rotate_mod (_ :: _)), (transform_tile_rotate_mod [_; _; _; _]).
  pose proof (Z.mod_pos_bound r 4 ltac:(lia)) as Hr.
  unfold transform_tile_rotate.
  assert (r mod 4 = 0 \/ r mod 4 = 1 \/ r mod 4 = 2 \/ r mod 4 = 3)
    as [-> | [-> | [-> | ->]]] by lia;
    repeat match goal with
           | |- context [(?a + ?b) mod 4] =>
               let v := eval cbv in ((a + b) mod 4) in
               change ((a + b) mod 4) with v
           end;
    rewrite !getitem_nonneg by lia; reflexivity.
Qed.

Lemma transform_tile_flipX_long (e0 e1 e2 e3 : Z) (rest : list Z) :
  transform_tile_flipX (e0 :: e1 :: e2 :: e3 :: rest)
  = transform_tile_flipX [e0; e1; e2; e3].
Proof.
  unfold transform_tile_flipX. rewrite !getitem_nonneg by lia. reflexivity.
Qed.

Lemma transform_tile_flipY_long (e0 e1 e2 e3 : Z) (rest : list Z) :
  transform_tile_flipY (e0 :: e1 :: e2 :: e3 :: rest)
  = transform_tile_flipY [e0; e1; e2; e3].
Proof.
  unfold transform_tile_flipY. rewrite !getitem_nonneg by lia. reflexivity.
Qed.

(** X3: [transform_tile] raises [IndexError] on every tile with fewer than
    four labels, whatever the transform, and on a tile with more than four
    labels it returns the transform of the first four. *)
Theorem transform_tile_other_lengths (tile : list Z) (tr : Transform) :
  ((List.length tile < 4)%nat -> transform_tile tile tr = Raise IndexError)
  /\ ((4 <= List.length tile)%nat ->
      transform_tile tile tr = transform_tile (firstn 4 tile) tr).
Proof.
  destruct tr as [fx fy r]. unfold transform_tile.
  cbn [flipX flipY rotation]. split.
  - intros Hlen.
    destruct tile as [| e0 [| e1 [| e2 [| e3 rest]]]];
      try (simpl in Hlen; lia);
      destruct fx, fy; try reflexivity;
      cbn [bind]; rewrite transform_tile_rotate_mod;
      pose proof (Z.mod_pos_bound r 4 ltac:(lia)) as Hr;
      (assert (r mod 4 = 0 \/ r mod 4 = 1 \/ r mod 4 = 2 \/ r mod 4 = 3)
         as [-> | [-> | [-> | ->]]] by lia; reflexivity).
  - intros Hlen.
    destruct tile as [| e0 [| e1 [| e2 [| e3 rest]]]];
      try (simpl in Hlen; lia).
    cbn [firstn].
    destruct fx, fy; cbn [bind];
      rewrite ?transform_tile_flipX_long, ?transform_tile_flipY_long,
              ?transform_tile_rotate_long; reflexivity.
Qed.

Lemma transform_tile_other_lengths_witness :
  (List.length [1; 2; 3] < 4)%nat
  /\ transform_tile [1; 2; 3] (mkTransform false false 1) = Raise IndexError
  /\ (4 <= List.length [1; 2; 3; 4; 5])%nat
  /\ transform_tile [1; 2; 3; 4; 5] (mkTransform true false 1)
     = transform_tile (firstn 4 [1; 2; 3; 4; 5]) (mkTransform true false 1).
Proof.
  assert ((List.length [1; 2; 3] < 4)%nat) as Hshort by (simpl; lia).
  assert ((4 <= List.length [1; 2; 3; 4; 5])%nat) as Hlong by (simpl; lia).
  split; [exact Hshort |].
  split; [exact (proj1 (transform_tile_other_lengths
                          [1; 2; 3] (mkTransform false false 1)) Hshort) |].
  split; [exact Hlong |].
  exact (proj2 (transform_tile_other_lengths
                  [1; 2; 3; 4; 5] (mkTransform true false 1)) Hlong).
Defined.

(** ** The transforms as a group of signed permutations *)

Lemma in_all_transforms (tr : Transform) :
  In tr all_transforms <-> 0 <= rotation tr < 4.
Proof.
  destruct tr as [fx fy r]. cbn [rotation]. split.
  - cbv -[Z.of_nat Z.le Z.lt]. simpl. intros Hin.
    repeat (destruct Hin as [Heq | Hin]; [injection Heq as _ _ <-; lia |]).
    contradiction.
  - intros Hr.
    assert (r = 0 \/ r = 1 \/ r = 2 \/ r = 3) as Hcases by lia.
    destruct fx, fy; destruct Hcases as [-> | [-> | [-> | ->]]];
      vm_compute; tauto.
Qed.

Lemma transform_tile_rotate_four_cases (a b c d r : Z) :
  transform_tile_rotate [a; b; c; d] r
  = Ok (if r mod 4 =? 0 then [a; b; c; d]
        else if r mod 4 =? 1 then [b; c; d; a]
        else if r mod 4 =? 2 then [c; d; a; b]
        else [d; a; b; c]).
Proof.
  rewrite transform_tile_rotate_mod.
  pose proof (Z.mod_pos_bound r 4 ltac:(lia)) as Hr.
  assert (r mod 4 = 0 \/ r mod 4 = 1 \/ r mod 4 = 2 \/ r mod 4 = 3)
    as [-> | [-> | [-> | ->]]] by lia; reflexivity.
Qed.

(** Decides a permutation of two lists of the same few elements. *)
Ltac permutation_of_four :=
  repeat first
    [ apply perm_nil
    | apply perm_skip
    | apply (Permutation_cons_app [_])
    | apply (Permutation_cons_app [_; _])
    | apply (Permutation_cons_app [_; _; _]) ];
  cbn [app].

(** X4: a transform only moves the labels of a tile around and changes
    signs: the absolute values of the labels it returns are those of the
    tile, each as many times. *)
Theorem transform_tile_permutes_labels (e0 e1 e2 e3 : Z) (tr : Transform)
    (out : list Z) :
  transform_tile [e0; e1; e2; e3] tr = Ok out ->
  Permutation (map Z.abs out) (map Z.abs [e0; e1; e2; e3]).
Proof.
  destruct tr as [fx fy r]. unfold transform_tile.
  cbn [flipX flipY rotation].
  destruct fx, fy;
    rewrite ?transform_tile_flipX_four; cbn [bind];
    rewrite ?transform_tile_flipY_four; cbn [bind];
    rewrite transform_tile_rotate_four_cases; cbn [bind];
    intros Hout; injection Hout as <-;
    repeat match goal with
           | |- context [if ?b then _ else _] => destruct b
           end;
    cbn [map]; rewrite ?Z.abs_opp; permutation_of_four.
Qed.

Lemma transform_tile_permutes_labels_witness :
  transform_tile [1; -2; 3; 4] (mkTransform true true 3) = Ok [2; -3; -4; -1]
  /\ Permutation (map Z.abs [2; -3; -4; -1]) (map Z.abs [1; -2; 3; 4]).
Proof.
  assert (transform_tile [1; -2; 3; 4] (mkTransform true true 3)
          = Ok [2; -3; -4; -1]) as Hrun by reflexivity.
  split; [exact Hrun |].
  exact (transform_tile_permutes_labels 1 (-2) 3 4 (mkTransform true true 3)
           [2; -3; -4; -1] Hrun).
Defined.

(** Evaluates [transform_tile] on tiles of four labels under transforms
    whose three fields are given. *)
Ltac eval_transform_tile :=
  unfold transform_tile;
  cbn [flipX flipY rotation bind xorb Z.odd];
  repeat (progress
            (rewrite ?transform_tile_flipX_four, ?transform_tile_flipY_four,
                     ?transform_tile_rotate_four_cases;
             repeat match goal with
                    | |- context [?a mod 4 =? ?b] =>
                        let v := eval vm_compute in (a mod 4 =? b) in
                        change (a mod 4 =? b) with v
                    end;
             cbn [bind])).

(** X5: the 16 transforms are closed under composition and under inverses:
    applying two of them in turn to a tile of four labels is applying a
    third one of the 16, and each of them is undone by one of the 16. *)
Theorem all_transforms_group :
  (forall tr1 tr2, In tr1 all_transforms -> In tr2 all_transforms ->
     exists tr3, In tr3 all_transforms
       /\ forall e0 e1 e2 e3,
            (t <- transform_tile [e0; e1; e2; e3] tr1 ;; transform_tile t tr2)
            = transform_tile [e0; e1; e2; e3] tr3)
  /\ (forall tr, In tr all_transforms ->
        exists tr', In tr' all_transforms
          /\ forall e0 e1 e2 e3,
               (t <- transform_tile [e0; e1; e2; e3] tr ;; transform_tile t tr')
               = Ok [e0; e1; e2; e3]).
Proof.
  split.
  - intros [x1 y1 r1] [x2 y2 r2] H1 H2.
    apply in_all_transforms in H1. apply in_all_transforms in H2.
    cbn [rotation] in H1, H2.
    exists (mkTransform (xorb x1 (if Z.odd r1 then y2 else x2))
                        (xorb y1 (if Z.odd r1 then x2 else y2))
                        ((r1 + r2) mod 4)).
    split.
    + apply in_all_transforms. cbn [rotation].
      apply Z.mod_pos_bound. lia.
    + intros e0 e1 e2 e3.
      assert (r1 = 0 \/ r1 = 1 \/ r1 = 2 \/ r1 = 3)
        as [-> | [-> | [-> | ->]]] by lia;
        (assert (r2 = 0 \/ r2 = 1 \/ r2 = 2 \/ r2 = 3)
           as [-> | [-> | [-> | ->]]] by lia;
         destruct x1, y1, x2, y2;
         eval_transform_tile; rewrite ?Z.opp_involutive; reflexivity).
  - intros [x y r] H. apply in_all_transforms in H. cbn [rotation] in H.
    exists (mkTransform (if Z.odd r then y else x) (if Z.odd r then x else y)
                        ((- r) mod 4)).
    split.
    + apply in_all_transforms. cbn [rotation].
      apply Z.mod_pos_bound. lia.
    + intros e0 e1 e2 e3.
      assert (r = 0 \/ r = 1 \/ r = 2 \/ r = 3)
        as [-> | [-> | [-> | ->]]] by lia;
        destruct x, y;
        eval_transform_tile; rewrite ?Z.opp_involutive; reflexivity.
Qed.

Lemma all_transforms_group_witness :
  In (mkTransform true false 1) all_transforms
  /\ In (mkTransform false true 2) all_transforms
  /\ exists tr3, In tr3 all_transforms
       /\ forall e0 e1 e2 e3,
            (t <- transform_tile [e0; e1; e2; e3] (mkTransform true false 1) ;;
             transform_tile t (mkTransform false true 2))
            = transform_tile [e0; e1; e2; e3] tr3.
Proof.
  assert (In (mkTransform true false 1) all_transforms) as H1
    by (vm_compute; tauto).
  assert (In (mkTransform false true 2) all_transforms) as H2
    by (vm_compute; tauto).
  split; [exact H1 |]. split; [exact H2 |].
  exact (proj1 all_transforms_group _ _ H1 H2).
Defined.

(** ** Hashing transforms *)

(** X6: [Transform.__hash__] numbers the transforms with a rotation in 0..3
    from 0 to 15, different transforms getting different numbers; and in
    general transforms that [__eq__] identifies have the same hash. *)
Theorem Transform_hash_perfect (a b : Transform) :
  (Transform_eqb a b = true -> Transform_hash a = Transform_hash b)
  /\ (0 <= rotation a < 4 -> 0 <= Transform_hash a < 16)
  /\ (0 <= rotation a < 4 -> 0 <= rotation b < 4 ->
      Transform_hash a = Transform_hash b -> a = b).
Proof.
  assert (forall t : Transform, 0 <= rotation t < 4 ->
            Transform_hash t
            = rotation t
              + 4 * (int_of_bool (flipX t) + 2 * int_of_bool (flipY t)))
    as Hsmall.
  { intros [fx fy r]. cbn [rotation flipX flipY]. intros Hr.
    assert (r = 0 \/ r = 1 \/ r = 2 \/ r = 3) as [-> | [-> | [-> | ->]]]
      by lia; destruct fx, fy; reflexivity. }
  split; [| split].
  - intros Heq. apply (proj1 (key_eqb_eq a b)) in Heq. subst b. reflexivity.
  - intros Ha. rewrite (Hsmall a Ha).
    destruct (flipX a), (flipY a); cbn [int_of_bool]; lia.
  - intros Ha Hb. rewrite (Hsmall a Ha), (Hsmall b Hb).
    destruct a as [ax ay ar], b as [bx by' br]. cbn [rotation flipX flipY] in *.
    destruct ax, ay, bx, by'; cbn [int_of_bool]; intros Heq;
      try (exfalso; lia); f_equal; lia.
Qed.

Lemma Transform_hash_perfect_witness :
  0 <= rotation (mkTransform true false 3) < 4
  /\ 0 <= Transform_hash (mkTransform true false 3) < 16.
Proof.
  assert (0 <= rotation (mkTransform true false 3) < 4) as Hr
    by (cbn [rotation]; lia).
  split; [exact Hr |].
  exact (proj1 (proj2 (Transform_hash_perfect (mkTransform true false 3)
                         (mkTransform true false 3))) Hr).
Defined.

(** ** The order on scores *)

(** X7: [Score.__gt__] is a strict total order on scores: no score beats
    itself, beating is transitive, and of two different scores exactly one
    beats the other. *)
Theorem Score_gt_strict_total_order (a b c : Score) :
  Score_gt a a = false
  /\ (Score_gt a b = true -> Score_gt b c = true -> Score_gt a c = true)
  /\ (Score_gt a b = true -> Score_gt b a = false)
  /\ (a <> b -> Score_gt a b = true \/ Score_gt b a = true).
Proof.
  split; [apply Score_gt_false_lex; lia |].
  split; [rewrite !Score_gt_lex; lia |].
  split; [rewrite Score_gt_lex, Score_gt_false_lex; lia |].
  intros Hne. rewrite !Score_gt_lex.
  destruct a as [at_ au af], b as [bt bu bf].
  cbn [total_votes untransformed_votes flipped_edges].
  destruct (Z.eq_dec at_ bt) as [-> | Ht]; [| lia].
  destruct (Z.eq_dec af bf) as [-> | Hf]; [| lia].
  destruct (Z.eq_dec au bu) as [-> | Hu]; [| lia].
  contradiction Hne. reflexivity.
Qed.

Lemma Score_gt_strict_total_order_witness :
  Score_gt (mkScore 5 0 1) (mkScore 5 3 2) = true
  /\ Score_gt (mkScore 5 3 2) (mkScore 4 9 0) = true
  /\ Score_gt (mkScore 5 0 1) (mkScore 4 9 0) = true.
Proof.
  assert (Score_gt (mkScore 5 0 1) (mkScore 5 3 2) = true) as H1
    by reflexivity.
  assert (Score_gt (mkScore 5 3 2) (mkScore 4 9 0) = true) as H2
    by reflexivity.
  split; [exact H1 |]. split; [exact H2 |].
  exact (proj1 (proj2 (Score_gt_strict_total_order
                         (mkScore 5 0 1) (mkScore 5 3 2) (mkScore 4 9 0)))
           H1 H2).
Defined.

(** ** Signatures of tiles with one-digit labels *)

Lemma string_append_nil_r (s : string) : (s ++ "")%string = s.
Proof.
  induction s as [| c s IH]; simpl; [reflexivity | rewrite IH; reflexivity].
Qed.

Lemma hash_tile_cons (label : Z) (tile : list Z) :
  hash_tile (label :: tile) = (str label ++ hash_tile tile)%string.
Proof.
  unfold hash_tile. destruct tile as [| label' tile]; simpl.
  - rewrite string_append_nil_r. reflexivity.
  - reflexivity.
Qed.

Ltac one_digit_cases a H :=
  assert (a = -9 \/ a = -8 \/ a = -7 \/ a = -6 \/ a = -5 \/ a = -4
          \/ a = -3 \/ a = -2 \/ a = -1 \/ a = 0 \/ a = 1 \/ a = 2 \/ a = 3
          \/ a = 4 \/ a = 5 \/ a = 6 \/ a = 7 \/ a = 8 \/ a = 9) as H by lia.

(** The rendering of a one-digit label can be read back off the front of
    whatever follows it. *)
Lemma str_one_digit_prefix (a b : Z) (s1 s2 : string) :
  -9 <= a <= 9 -> -9 <= b <= 9 ->
  (str a ++ s1)%string = (str b ++ s2)%string -> a = b /\ s1 = s2.
Proof.
  intros Ha Hb. one_digit_cases a Ha'. one_digit_cases b Hb'.
  repeat (destruct Ha' as [-> | Ha']); try subst a;
    repeat (destruct Hb' as [-> | Hb']); try subst b;
    vm_compute; intros Heq; split; congruence.
Qed.

Lemma str_one_digit_not_empty (a : Z) (s : string) :
  -9 <= a <= 9 -> (str a ++ s)%string <> ""%string.
Proof.
  intros Ha. one_digit_cases a Ha'.
  repeat (destruct Ha' as [-> | Ha']); try subst a; vm_compute; discriminate.
Qed.

(** X8: on tiles whose labels all have one digit (between -9 and 9),
    [hash_tile] is injective: two such tiles with the same signature are the
    same tile. *)
Theorem hash_tile_one_digit_injective (tile1 tile2 : list Z) :
  Forall (fun label => -9 <= label <= 9) tile1 ->
  Forall (fun label => -9 <= label <= 9) tile2 ->
  hash_tile tile1 = hash_tile tile2 -> tile1 = tile2.
Proof.
  intros H1. revert tile2.
  induction H1 as [| a tile1 Ha H1 IH]; intros tile2 H2 Heq.
  - destruct H2 as [| b tile2 Hb H2]; [reflexivity |].
    rewrite hash_tile_cons in Heq. symmetry in Heq.
    exfalso. exact (str_one_digit_not_empty b _ Hb Heq).
  - destruct H2 as [| b tile2 Hb H2].
    + rewrite hash_tile_cons in Heq.
      exfalso. exact (str_one_digit_not_empty a _ Ha Heq).
    + rewrite !hash_tile_cons in Heq.
      destruct (str_one_digit_prefix a b _ _ Ha Hb Heq) as [-> Htl].
      rewrite (IH tile2 H2 Htl). reflexivity.
Qed.

Lemma hash_tile_one_digit_injective_witness :
  Forall (fun label => -9 <= label <= 9) [-1; 2; -3; 1]
  /\ hash_tile [-1; 2; -3; 1] = hash_tile [-1; 2; -3; 1]
  /\ [-1; 2; -3; 1] = [-1; 2; -3; 1].
Proof.
  assert (Forall (fun label => -9 <= label <= 9) [-1; 2; -3; 1]) as Hd
    by (repeat constructor; lia).
  split; [exact Hd |]. split; [reflexivity |].
  exact (hash_tile_one_digit_injective [-1; 2; -3; 1] [-1; 2; -3; 1]
           Hd Hd eq_refl).
Defined.

(** ** What the tally counts *)

Lemma dict_get_default_setitem_other {K V : Type} {E : PyKey K}
    {L : PyKeyLawful K} (d : dict K V) (k k' : K) (v default : V) :
  k' <> k ->
  dict_get_default (dict_setitem d k v) k' default
  = dict_get_default d k' default.
Proof.
  intros Hne. unfold dict_get_default.
  rewrite dict_get_setitem_other by exact Hne. reflexivity.
Qed.

(** A loop whose body, when it does not raise, appends [f x] to the list. *)
Lemma for_in_appended {A B : Type} (l : list A)
    (body : A -> list B -> result (list B)) (f : A -> list B) :
  (forall x s s', In x l -> body x s = Ok s' -> s' = s ++ f x) ->
  forall s s', for_in l body s = Ok s' -> s' = s ++ flat_map f l.
Proof.
  induction l as [| x l IH]; intros Hbody s s' Hrun; simpl in *.
  - injection Hrun as <-. rewrite app_nil_r. reflexivity.
  - apply bind_Ok_inv in Hrun. destruct Hrun as (s1 & Hx & Hrun).
    apply Hbody in Hx; [| left; reflexivity]. subst s1.
    apply IH in Hrun; [| intros y t t' Hy; apply Hbody; right; exact Hy].
    rewrite Hrun, <- app_assoc. reflexivity.
Qed.

(** The pairs of lines 121-124, when no transform raises: candidate by
    candidate, each with the 16 transforms in their order. *)
Lemma consolidateVotes_all_possibilities_eq (possibilities : list (list Z))
    (all_possibilities : list (list Z * Transform)) :
  consolidateVotes_all_possibilities possibilities = Ok all_possibilities ->
  all_possibilities
  = flat_map (fun tile =>
      flat_map (fun tr =>
        match transform_tile tile tr with
        | Ok t => [(t, tr)]
        | Raise _ => []
        end) all_transforms) possibilities.
Proof.
  unfold consolidateVotes_all_possibilities. intros Hrun.
  apply (for_in_appended possibilities _
           (fun tile =>
              flat_map (fun tr =>
                match transform_tile tile tr with
                | Ok t => [(t, tr)]
                | Raise _ => []
                end) all_transforms)) in Hrun; [exact Hrun |].
  intros tile s s' _ Hinner.
  apply (for_in_appended all_transforms _
           (fun tr => match transform_tile tile tr with
                      | Ok t => [(t, tr)]
                      | Raise _ => []
                      end)) in Hinner; [exact Hinner |].
  intros tr acc acc' _ Hbody.
  destruct (transform_tile tile tr) as [t | e]; simpl in Hbody;
    [injection Hbody as <-; reflexivity | discriminate Hbody].
Qed.

(** The pairs whose tile has signature [k], and those of them obtained by
    the transform [tr]. *)
Local Abbreviation pairs_of_signature k all_possibilities :=
  (filter (fun p : list Z * Transform => String.eqb (hash_tile (fst p)) k)
          all_possibilities).
Local Abbreviation pairs_of_signature_by k tr all_possibilities :=
  (filter (fun p : list Z * Transform =>
             String.eqb (hash_tile (fst p)) k && Transform_eqb (snd p) tr)
          all_possibilities).

Lemma consolidateVotes_tally_counts_from
    (all_possibilities : list (list Z * Transform)) :
  forall votes consolidated_votes tile_map votes' consolidated_votes' tile_map',
    fold_left consolidateVotes_vote all_possibilities
              (votes, consolidated_votes, tile_map)
    = (votes', consolidated_votes', tile_map') ->
    forall k tr,
      dict_get_default consolidated_votes' k 0
      = dict_get_default consolidated_votes k 0
        + Z.of_nat (List.length (pairs_of_signature k all_possibilities))
      /\ dict_get_default (dict_get_default votes' k []) tr 0
         = dict_get_default (dict_get_default votes k []) tr 0
           + Z.of_nat (List.length
                         (pairs_of_signature_by k tr all_possibilities)).
Proof.
  induction all_possibilities as [| [tile tr0] rest IH];
    intros v c t v' c' t' Hrun k tr; cbn [fold_left] in Hrun.
  - injection Hrun as <- <- <-. simpl. split; lia.
  - rewrite consolidateVotes_vote_eq in Hrun. cbv zeta in Hrun.
    destruct (IH _ _ _ _ _ _ Hrun k tr) as [Hc Hv]. rewrite Hc, Hv.
    cbn [filter fst snd].
    destruct (String.eqb_spec (hash_tile tile) k) as [<- | Hk].
    + rewrite !dict_get_default_setitem. cbn [andb]. split.
      * cbn [List.length]. lia.
      * destruct (Transform_eqb tr0 tr) eqn:Htr.
        -- apply (proj1 (key_eqb_eq tr0 tr)) in Htr. subst tr0.
           rewrite dict_get_default_setitem. cbn [List.length]. lia.
        -- rewrite dict_get_default_setitem_other; [lia |].
           intros Heq. symmetry in Heq.
           apply (proj2 (key_eqb_eq tr0 tr)) in Heq.
           unfold key_eqb, PyKey_Transform in Heq. congruence.
    + rewrite !dict_get_default_setitem_other by (intros ->; apply Hk; reflexivity).
      cbn [andb]. split; lia.
Qed.

(** X9: what [consolidateVotes] counts.  For every signature [k] and
    transform [tr], [consolidated_votes[k]] is the number of (transformed
    candidate, transform) pairs whose tile has signature [k], and
    [votes[k][tr]] is the number of those obtained by [tr]; a signature or
    transform that no pair has is absent, that is, counts 0. *)
Theorem consolidateVotes_counts
    (neighborhood_labels : list (list (list Z)))
    (votes : votes_t) (consolidated_votes : consolidated_votes_t)
    (tile_map : tile_map_t) :
  consolidateVotes neighborhood_labels
  = Ok (votes, consolidated_votes, tile_map) ->
  exists possibilities all_possibilities,
    consolidateVotes_possibilities neighborhood_labels = Ok possibilities
    /\ consolidateVotes_all_possibilities possibilities = Ok all_possibilities
    /\ forall k tr,
         dict_get_default consolidated_votes k 0
         = Z.of_nat (List.length (pairs_of_signature k all_possibilities))
         /\ dict_get_default (dict_get_default votes k []) tr 0
            = Z.of_nat (List.length
                          (pairs_of_signature_by k tr all_possibilities)).
Proof.
  unfold consolidateVotes. intros Hrun.
  apply bind_Ok_inv in Hrun. destruct Hrun as (p & Hp & Hrun).
  apply bind_Ok_inv in Hrun. destruct Hrun as (ap & Hap & Hrun).
  injection Hrun as Hrun. unfold consolidateVotes_tally in Hrun.
  exists p, ap. split; [exact Hp |]. split; [exact Hap |].
  intros k tr.
  destruct (consolidateVotes_tally_counts_from ap _ _ _ _ _ _ Hrun k tr)
    as [Hc Hv].
  rewrite Hc, Hv. split; reflexivity.
Qed.

Lemma consolidateVotes_counts_witness :
  consolidateVotes [[[0]; [0]; [0]; [0]]]
  = Ok ([("0000"%string, map (fun tr => (tr, 1)) all_transforms)],
        [("0000"%string, 16)], [("0000"%string, [0; 0; 0; 0])])
  /\ exists possibilities all_possibilities,
       consolidateVotes_possibilities [[[0]; [0]; [0]; [0]]] = Ok possibilities
       /\ consolidateVotes_all_possibilities possibilities
          = Ok all_possibilities
       /\ forall k tr,
            dict_get_default [("0000"%string, 16)] k 0
            = Z.of_nat (List.length (pairs_of_signature k all_possibilities))
            /\ dict_get_default
                 (dict_get_default
                    [("0000"%string, map (fun tr => (tr, 1)) all_transforms)]
                    k []) tr 0
               = Z.of_nat (List.length
                             (pairs_of_signature_by k tr all_possibilities)).
Proof.
  split; [reflexivity |].
  apply (consolidateVotes_counts [[[0]; [0]; [0]; [0]]] _ _
           [("0000"%string, [0; 0; 0; 0])]).
  reflexivity.
Defined.

(** ** When the candidate loops raise *)

(** The body of the loop over the neighbourhoods (lines 110-119). *)
Local Abbreviation possibilities_body :=
  (fun (neighborhood : list (list Z)) (possibilities : list (list Z)) =>
     labels0 <- getitem neighborhood 0 ;;
     for_in labels0 (fun label0 possibilities =>
       labels1 <- getitem neighborhood 1 ;;
       for_in labels1 (fun label1 possibilities =>
         labels2 <- getitem neighborhood 2 ;;
         for_in labels2 (fun label2 possibilities =>
           labels3 <- getitem neighborhood 3 ;;
           for_in labels3 (fun label3 possibilities =>
             Ok (possibilities ++ [[- label0; - label1; - label2; - label3]]))
             possibilities)
           possibilities)
         possibilities)
       possibilities).

Lemma possibilities_body_ok (nb : list (list Z)) (s : list (list Z)) :
  (4 <= List.length nb)%nat \/ In [] nb ->
  possibilities_body nb s = Ok (s ++ negated_product nb).
Proof.
  intros Hok.
  destruct nb as [| s0 [| s1 [| s2 [| s3 rest]]]].
  - destruct Hok as [Hlen | []]. simpl in Hlen. lia.
  - destruct Hok as [Hlen | [-> | []]]; [simpl in Hlen; lia |].
    cbn. rewrite app_nil_r. reflexivity.
  - assert (s0 = [] \/ s1 = []) as [-> | ->]
      by (destruct Hok as [Hlen | [-> | [-> | []]]];
          [simpl in Hlen; lia | auto | auto]).
    + cbn. rewrite app_nil_r. reflexivity.
    + cbn [getitem nth]. simpl.
      apply for_in_append. intros l0 p0 _. simpl.
      rewrite app_nil_r. reflexivity.
  - assert (s0 = [] \/ s1 = [] \/ s2 = []) as [-> | [-> | ->]]
      by (destruct Hok as [Hlen | [-> | [-> | [-> | []]]]];
          [simpl in Hlen; lia | auto | auto | auto]).
    + cbn. rewrite app_nil_r. reflexivity.
    + cbn [getitem nth]. simpl.
      apply for_in_append. intros l0 p0 _. simpl.
      rewrite app_nil_r. reflexivity.
    + cbn [getitem nth]. simpl.
      apply for_in_append. intros l0 p0 _. simpl.
      apply for_in_append. intros l1 p1 _. simpl.
      rewrite app_nil_r. reflexivity.
  - rewrite !getitem_nonneg by lia.
    cbn [Z.to_nat Pos.to_nat Pos.iter_op Nat.add nth_error nth bind].
    apply for_in_append. intros l0 p0 _.
    apply for_in_append. intros l1 p1 _.
    apply for_in_append. intros l2 p2 _.
    apply for_in_append. intros l3 p3 _. reflexivity.
Qed.

Lemma possibilities_body_raises (nb : list (list Z)) (s : list (list Z)) :
  (List.length nb < 4)%nat -> ~ In [] nb ->
  possibilities_body nb s = Raise IndexError.
Proof.
  intros Hlen Hfull.
  destruct nb as [| [| x0 s0] [| [| x1 s1] [| [| x2 s2] [| s3 rest]]]];
    try (simpl in Hlen; lia);
    try (exfalso; apply Hfull; simpl; tauto);
    reflexivity.
Qed.

Lemma neighborhood_reads_fine_or_not (nb : list (list Z)) :
  ((4 <= List.length nb)%nat \/ In [] nb)
  \/ ((List.length nb < 4)%nat /\ ~ In [] nb).
Proof.
  destruct (le_lt_dec 4 (List.length nb)) as [Hlen | Hlen]; [auto |].
  destruct (in_dec (list_eq_dec Z.eq_dec) [] nb) as [Hin | Hin]; auto.
Qed.

Lemma possibilities_loop_raises (neighborhood_labels : list (list (list Z))) :
  Exists (fun nb => (List.length nb < 4)%nat /\ ~ In [] nb)
         neighborhood_labels ->
  forall s, for_in neighborhood_labels possibilities_body s = Raise IndexError.
Proof.
  induction neighborhood_labels as [| nb rest IH]; intros Hbad s.
  - inversion Hbad.
  - cbn [for_in].
    destruct (neighborhood_reads_fine_or_not nb) as [Hok | [Hlen Hfull]].
    + rewrite (possibilities_body_ok nb s Hok). cbn [bind].
      apply IH. inversion Hbad as [? ? [Hlen Hfull] | ? ? Hrest]; subst.
      * exfalso. destruct Hok as [Hok | Hok]; [lia | exact (Hfull Hok)].
      * exact Hrest.
    + rewrite (possibilities_body_raises nb s Hlen Hfull). reflexivity.
Qed.

Lemma possibilities_loop_ok (neighborhood_labels : list (list (list Z))) :
  Forall (fun nb => (4 <= List.length nb)%nat \/ In [] nb)
         neighborhood_labels ->
  consolidateVotes_possibilities neighborhood_labels
  = Ok (flat_map (fun nb => negated_product nb) neighborhood_labels).
Proof.
  intros Hok. unfold consolidateVotes_possibilities.
  change (Ok (flat_map (fun nb => negated_product nb) neighborhood_labels))
    with (Ok ([] ++ flat_map (fun nb => negated_product nb) neighborhood_labels)).
  apply for_in_append. intros nb s Hin.
  rewrite Forall_forall in Hok.
  exact (possibilities_body_ok nb s (Hok nb Hin)).
Qed.

(** X10: [consolidateVotes] raises exactly when some neighbourhood has
    fewer than four slots, none of them empty, and then it raises
    [IndexError]; a neighbourhood with an empty slot is passed over even if
    it is short, and slots after the fourth are never read.  When every
    neighbourhood has four slots or an empty one, the candidates are the
    negated products of the first four slots and a result is returned. *)
Theorem consolidateVotes_raises_exactly
    (neighborhood_labels : list (list (list Z))) :
  (Exists (fun nb => (List.length nb < 4)%nat /\ ~ In [] nb)
          neighborhood_labels ->
   consolidateVotes neighborhood_labels = Raise IndexError)
  /\ (Forall (fun nb => (4 <= List.length nb)%nat \/ In [] nb)
             neighborhood_labels ->
      consolidateVotes_possibilities neighborhood_labels
      = Ok (flat_map (fun nb => negated_product nb) neighborhood_labels)
      /\ exists r, consolidateVotes neighborhood_labels = Ok r).
Proof.
  split.
  - intros Hbad. unfold consolidateVotes, consolidateVotes_possibilities.
    rewrite (possibilities_loop_raises _ Hbad []). reflexivity.
  - intros Hok. split; [exact (possibilities_loop_ok _ Hok) |].
    unfold consolidateVotes. rewrite (possibilities_loop_ok _ Hok).
    cbn [bind].
    destruct (consolidateVotes_all_possibilities_total
                (flat_map (fun nb => negated_product nb) neighborhood_labels))
      as (all_possibilities & ->).
    + apply Forall_forall. intros tile Hin.
      apply in_flat_map in Hin. destruct Hin as (nb & _ & Hin).
      exact (negated_product_four nb tile Hin).
    + cbn [bind]. eexists. reflexivity.
Qed.

Lemma consolidateVotes_raises_exactly_witness :
  Exists (fun nb : list (list Z) => (List.length nb < 4)%nat /\ ~ In [] nb)
         [[[1]; [2]; [3]; [4]]; [[1]; [2]; [3]]]
  /\ consolidateVotes [[[1]; [2]; [3]; [4]]; [[1]; [2]; [3]]]
     = Raise IndexError
  /\ Forall (fun nb : list (list Z) => (4 <= List.length nb)%nat \/ In [] nb)
            [[[1]; []]; [[1]; [2]; [3]; [4]; [5]]]
  /\ consolidateVotes_possibilities [[[1]; []]; [[1]; [2]; [3]; [4]; [5]]]
     = Ok [[-1; -2; -3; -4]].
Proof.
  assert (Exists (fun nb : list (list Z) =>
                    (List.length nb < 4)%nat /\ ~ In [] nb)
                 [[[1]; [2]; [3]; [4]]; [[1]; [2]; [3]]]) as Hbad.
  { apply Exists_cons_tl. apply Exists_cons_hd. split; [simpl; lia |].
    simpl. intuition discriminate. }
  assert (Forall (fun nb : list (list Z) =>
                    (4 <= List.length nb)%nat \/ In [] nb)
                 [[[1]; []]; [[1]; [2]; [3]; [4]; [5]]]) as Hok.
  { constructor; [right; simpl; auto |].
    constructor; [left; simpl; lia | constructor]. }
  split; [exact Hbad |].
  split; [exact (proj1 (consolidateVotes_raises_exactly _) Hbad) |].
  split; [exact Hok |].
  exact (proj1 (proj2 (consolidateVotes_raises_exactly _) Hok)).
Defined.

(** ** The number of votes *)

Lemma for_in_length {A B : Type} (l : list A)
    (body : A -> list B -> result (list B)) (n : nat) :
  (forall x s s', In x l -> body x s = Ok s' ->
                  List.length s' = (List.length s + n)%nat) ->
  forall s s', for_in l body s = Ok s' ->
               List.length s' = (List.length s + n * List.length l)%nat.
Proof.
  induction l as [| x l IH]; intros Hbody s s' Hrun; simpl in *.
  - injection Hrun as <-. lia.
  - apply bind_Ok_inv in Hrun. destruct Hrun as (s1 & Hx & Hrun).
    apply Hbody in Hx; [| left; reflexivity].
    apply IH in Hrun; [| intros y t t' Hy; apply Hbody; right; exact Hy].
    rewrite Hrun, Hx. lia.
Qed.

Lemma consolidateVotes_all_possibilities_length
    (possibilities : list (list Z))
    (all_possibilities : list (list Z * Transform)) :
  consolidateVotes_all_possibilities possibilities = Ok all_possibilities ->
  List.length all_possibilities = (16 * List.length possibilities)%nat.
Proof.
  unfold consolidateVotes_all_possibilities. intros Hrun.
  apply (for_in_length possibilities _ 16) in Hrun; [exact Hrun |].
  intros tile s s' _ Hinner.
  apply (for_in_length all_transforms _ 1) in Hinner.
  - rewrite Hinner. reflexivity.
  - intros tr acc acc' _ Hbody.
    destruct (transform_tile tile tr) as [t | e]; simpl in Hbody;
      [| discriminate Hbody].
    injection Hbody as <-. rewrite length_app. reflexivity.
Qed.

Lemma consolidateVotes_tally_sum (all_possibilities : list (list Z * Transform)) :
  forall votes consolidated_votes tile_map votes' consolidated_votes' tile_map',
    fold_left consolidateVotes_vote all_possibilities
              (votes, consolidated_votes, tile_map)
    = (votes', consolidated_votes', tile_map') ->
    sum_values consolidated_votes'
    = sum_values consolidated_votes + Z.of_nat (List.length all_possibilities).
Proof.
  induction all_possibilities as [| [tile tr] rest IH];
    intros v c t v' c' t' Hrun; cbn [fold_left] in Hrun.
  - injection Hrun as <- <- <-. simpl. lia.
  - rewrite consolidateVotes_vote_eq in Hrun. cbv zeta in Hrun.
    rewrite (IH _ _ _ _ _ _ Hrun), sum_values_increment.
    cbn [List.length]. lia.
Qed.

(** X11: the consolidated counts that [consolidateVotes] returns add up to
    16 times the number of candidate tiles: every candidate casts one vote
    per transform. *)
Theorem consolidateVotes_vote_total
    (neighborhood_labels : list (list (list Z)))
    (votes : votes_t) (consolidated_votes : consolidated_votes_t)
    (tile_map : tile_map_t) :
  consolidateVotes neighborhood_labels
  = Ok (votes, consolidated_votes, tile_map) ->
  exists possibilities,
    consolidateVotes_possibilities neighborhood_labels = Ok possibilities
    /\ sum_values consolidated_votes
       = 16 * Z.of_nat (List.length possibilities).
Proof.
  unfold consolidateVotes. intros Hrun.
  apply bind_Ok_inv in Hrun. destruct Hrun as (p & Hp & Hrun).
  apply bind_Ok_inv in Hrun. destruct Hrun as (ap & Hap & Hrun).
  injection Hrun as Hrun. unfold consolidateVotes_tally in Hrun.
  exists p. split; [exact Hp |].
  rewrite (consolidateVotes_tally_sum ap _ _ _ _ _ _ Hrun).
  rewrite (consolidateVotes_all_possibilities_length p ap Hap).
  rewrite Nat2Z.inj_mul. unfold sum_values. cbn [values map fold_right].
  lia.
Qed.

Lemma consolidateVotes_vote_total_witness :
  consolidateVotes [[[0]; [0]; [0]; [0]]]
  = Ok ([("0000"%string, map (fun tr => (tr, 1)) all_transforms)],
        [("0000"%string, 16)], [("0000"%string, [0; 0; 0; 0])])
  /\ exists possibilities,
       consolidateVotes_possibilities [[[0]; [0]; [0]; [0]]] = Ok possibilities
       /\ sum_values [("0000"%string, 16)]
          = 16 * Z.of_nat (List.length possibilities).
Proof.
  split; [reflexivity |].
  apply (consolidateVotes_vote_total [[[0]; [0]; [0]; [0]]]
           [("0000"%string, map (fun tr => (tr, 1)) all_transforms)]
           [("0000"%string, 16)] [("0000"%string, [0; 0; 0; 0])]).
  reflexivity.
Defined.

(** ** Every candidate votes for itself *)

Lemma consolidateVotes_inv (neighborhood_labels : list (list (list Z)))
    (votes : votes_t) (consolidated_votes : consolidated_votes_t)
    (tile_map : tile_map_t) :
  consolidateVotes neighborhood_labels
  = Ok (votes, consolidated_votes, tile_map) ->
  exists possibilities all_possibilities,
    consolidateVotes_possibilities neighborhood_labels = Ok possibilities
    /\ consolidateVotes_all_possibilities possibilities = Ok all_possibilities
    /\ fold_left consolidateVotes_vote all_possibilities ([], [], [])
       = (votes, consolidated_votes, tile_map).
Proof.
  unfold consolidateVotes. intros Hrun.
  apply bind_Ok_inv in Hrun. destruct Hrun as (p & Hp & Hrun).
  apply bind_Ok_inv in Hrun. destruct Hrun as (ap & Hap & Hrun).
  injection Hrun as Hrun. exists p, ap. auto.
Qed.

(** Whatever the candidate loops return is made of tiles of four labels. *)
Lemma consolidateVotes_possibilities_four
    (neighborhood_labels : list (list (list Z)))
    (possibilities : list (list Z)) :
  consolidateVotes_possibilities neighborhood_labels = Ok possibilities ->
  Forall (fun tile => List.length tile = 4%nat) possibilities.
Proof.
  unfold consolidateVotes_possibilities. intros Hrun.
  apply (for_in_appended neighborhood_labels _
           (fun nb => negated_product nb)) in Hrun.
  - subst possibilities. cbn [app]. apply Forall_forall. intros tile Hin.
    apply in_flat_map in Hin. destruct Hin as (nb & _ & Hin).
    exact (negated_product_four nb tile Hin).
  - intros nb s s' _ Hbody.
    destruct (neighborhood_reads_fine_or_not nb) as [Hok | [Hlen Hfull]].
    + rewrite (possibilities_body_ok nb s Hok) in Hbody.
      injection Hbody as <-. reflexivity.
    + rewrite (possibilities_body_raises nb s Hlen Hfull) in Hbody.
      discriminate Hbody.
Qed.

Lemma length_filter_in {A : Type} (f : A -> bool) (l : list A) (x : A) :
  In x l -> f x = true -> (1 <= List.length (filter f l))%nat.
Proof.
  intros Hin Hf. induction l as [| y l IH]; [destruct Hin |].
  simpl. destruct Hin as [-> | Hin].
  - rewrite Hf. simpl. lia.
  - destruct (f y); simpl; [lia | exact (IH Hin)].
Qed.

(** X12: in what [consolidateVotes] returns, every candidate tile has at
    least one vote for its own signature from the identity transform, and
    more generally the tile that a transform of the 16 makes of a candidate
    has at least one vote from that transform. *)
Theorem consolidateVotes_candidates_vote
    (neighborhood_labels : list (list (list Z)))
    (votes : votes_t) (consolidated_votes : consolidated_votes_t)
    (tile_map : tile_map_t) :
  consolidateVotes neighborhood_labels
  = Ok (votes, consolidated_votes, tile_map) ->
  exists possibilities,
    consolidateVotes_possibilities neighborhood_labels = Ok possibilities
    /\ (forall tile tr t,
          In tile possibilities -> In tr all_transforms ->
          transform_tile tile tr = Ok t ->
          1 <= dict_get_default (dict_get_default votes (hash_tile t) []) tr 0
          /\ 1 <= dict_get_default consolidated_votes (hash_tile t) 0)
    /\ (forall tile,
          In tile possibilities ->
          1 <= dict_get_default (dict_get_default votes (hash_tile tile) [])
                                (mkTransform false false 0) 0).
Proof.
  intros Hrun.
  destruct (consolidateVotes_inv _ _ _ _ Hrun) as (p & ap & Hp & Hap & Htally).
  exists p. split; [exact Hp |].
  assert (forall tile tr t,
            In tile p -> In tr all_transforms ->
            transform_tile tile tr = Ok t ->
            1 <= dict_get_default (dict_get_default votes (hash_tile t) []) tr 0
            /\ 1 <= dict_get_default consolidated_votes (hash_tile t) 0)
    as Hvote.
  { intros tile tr t Htile Htr Ht.
    assert (In (t, tr) ap) as Hin.
    { rewrite (consolidateVotes_all_possibilities_eq p ap Hap).
      apply in_flat_map. exists tile. split; [exact Htile |].
      apply in_flat_map. exists tr. split; [exact Htr |].
      rewrite Ht. left. reflexivity. }
    destruct (consolidateVotes_tally_counts_from ap _ _ _ _ _ _ Htally
                (hash_tile t) tr) as [Hc Hv].
    rewrite Hc, Hv. unfold dict_get_default at 1 3. cbn [dict_get].
    split.
    - apply (length_filter_in
               (fun q : list Z * Transform =>
                  String.eqb (hash_tile (fst q)) (hash_tile t)
                  && Transform_eqb (snd q) tr) ap (t, tr)) in Hin.
      + cbn [dict_get_default dict_get]. lia.
      + cbn [fst snd]. rewrite String.eqb_refl.
        exact (proj2 (key_eqb_eq tr tr) eq_refl).
    - apply (length_filter_in
               (fun q : list Z * Transform =>
                  String.eqb (hash_tile (fst q)) (hash_tile t)) ap (t, tr))
        in Hin.
      + lia.
      + cbn [fst]. apply String.eqb_refl. }
  split; [exact Hvote |].
  intros tile Htile.
  pose proof (consolidateVotes_possibilities_four _ _ Hp) as Hfour.
  rewrite Forall_forall in Hfour. specialize (Hfour tile Htile).
  destruct tile as [| e0 [| e1 [| e2 [| e3 [| ? ?]]]]]; try discriminate Hfour.
  apply (Hvote [e0; e1; e2; e3] (mkTransform false false 0) [e0; e1; e2; e3]).
  - exact Htile.
  - vm_compute. tauto.
  - reflexivity.
Qed.

Lemma consolidateVotes_candidates_vote_witness :
  consolidateVotes [[[0]; [0]; [0]; [0]]]
  = Ok ([("0000"%string, map (fun tr => (tr, 1)) all_transforms)],
        [("0000"%string, 16)], [("0000"%string, [0; 0; 0; 0])])
  /\ exists possibilities,
       consolidateVotes_possibilities [[[0]; [0]; [0]; [0]]] = Ok possibilities
       /\ (forall tile tr t,
             In tile possibilities -> In tr all_transforms ->
             transform_tile tile tr = Ok t ->
             1 <= dict_get_default
                    (dict_get_default
                       [("0000"%string, map (fun tr => (tr, 1)) all_transforms)]
                       (hash_tile t) []) tr 0
             /\ 1 <= dict_get_default [("0000"%string, 16)] (hash_tile t) 0)
       /\ (forall tile,
             In tile possibilities ->
             1 <= dict_get_default
                    (dict_get_default
                       [("0000"%string, map (fun tr => (tr, 1)) all_transforms)]
                       (hash_tile tile) [])
                    (mkTransform false false 0) 0).
Proof.
  split; [reflexivity |].
  apply (consolidateVotes_candidates_vote [[[0]; [0]; [0]; [0]]] _ _
           [("0000"%string, [0; 0; 0; 0])]).
  reflexivity.
Defined.

(** ** The three dictionaries of the consolidation *)

Lemma dict_get_In {K V : Type} {E : PyKey K} {L : PyKeyLawful K}
    (d : dict K V) (k : K) (v : V) :
  dict_get d k = Some v -> In (k, v) d.
Proof.
  induction d as [| [k0 v0] d IH]; simpl; intros Hget.
  - discriminate Hget.
  - destruct (key_eqb k k0) eqn:Hk.
    + apply key_eqb_eq in Hk. subst k0. injection Hget as ->. left. reflexivity.
    + right. exact (IH Hget).
Qed.

(** X13: the three dictionaries that [consolidateVotes] returns hold the
    same signatures in the same order, each once; the tile kept for a
    signature hashes to it, and the per-transform counts of a signature are
    not empty and list each transform once. *)
Theorem consolidateVotes_dictionaries_agree
    (neighborhood_labels : list (list (list Z)))
    (votes : votes_t) (consolidated_votes : consolidated_votes_t)
    (tile_map : tile_map_t) :
  consolidateVotes neighborhood_labels
  = Ok (votes, consolidated_votes, tile_map) ->
  keys consolidated_votes = keys votes
  /\ keys tile_map = keys votes
  /\ NoDup (keys votes)
  /\ (forall k tile, dict_get tile_map k = Some tile -> hash_tile tile = k)
  /\ (forall k inner, dict_get votes k = Some inner ->
        inner <> [] /\ NoDup (keys inner)).
Proof.
  intros Hrun.
  destruct (consolidateVotes_aligned _ _ _ _ Hrun) as [Hal Hnd].
  destruct (aligned_keys _ _ _ Hal) as [Hkc Hkt].
  destruct (aligned_entries _ _ _ Hal Hnd) as [Hall _].
  rewrite Forall_forall in Hall.
  split; [exact Hkc |]. split; [exact Hkt |]. split; [exact Hnd |].
  split.
  - intros k tile Hget.
    assert (In k (keys votes)) as Hin
      by (rewrite <- Hkt; exact (dict_get_in_keys _ _ _ Hget)).
    unfold keys in Hin. apply in_map_iff in Hin.
    destruct Hin as ([k' inner] & Hk & Hin). simpl in Hk. subst k'.
    destruct (Hall _ Hin) as (_ & _ & tile' & Ht' & Hh). cbn [fst] in *.
    rewrite Hget in Ht'. injection Ht' as <-. exact Hh.
  - intros k inner Hget. apply dict_get_In in Hget.
    destruct (Hall _ Hget) as (Hne & Hndi & _). cbn [snd] in *. auto.
Qed.

Lemma consolidateVotes_dictionaries_agree_witness :
  consolidateVotes [[[0]; [0]; [0]; [0]]]
  = Ok ([("0000"%string, map (fun tr => (tr, 1)) all_transforms)],
        [("0000"%string, 16)], [("0000"%string, [0; 0; 0; 0])])
  /\ keys [("0000"%string, 16)]
     = keys [("0000"%string, map (fun tr => (tr, 1)) all_transforms)].
Proof.
  split; [reflexivity |].
  refine (proj1 (consolidateVotes_dictionaries_agree
                   [[[0]; [0]; [0]; [0]]]
                   [("0000"%string, map (fun tr => (tr, 1)) all_transforms)]
                   [("0000"%string, 16)] [("0000"%string, [0; 0; 0; 0])] _)).
  reflexivity.
Defined.

(** ** The tile kept for a signature *)

Lemma consolidateVotes_tally_tile_map_other
    (all_possibilities : list (list Z * Transform)) (k : string) :
  (forall q, In q all_possibilities -> hash_tile (fst q) <> k) ->
  forall votes consolidated_votes tile_map votes' consolidated_votes' tile_map',
    fold_left consolidateVotes_vote all_possibilities
              (votes, consolidated_votes, tile_map)
    = (votes', consolidated_votes', tile_map') ->
    dict_get tile_map' k = dict_get tile_map k.
Proof.
  induction all_possibilities as [| [tile tr] rest IH];
    intros Hother v c t v' c' t' Hrun; cbn [fold_left] in Hrun.
  - injection Hrun as <- <- <-. reflexivity.
  - rewrite consolidateVotes_vote_eq in Hrun. cbv zeta in Hrun.
    rewrite (IH (fun q Hq => Hother q (or_intror Hq)) _ _ _ _ _ _ Hrun).
    apply dict_get_setitem_other.
    intros ->. exact (Hother (tile, tr) (or_introl eq_refl) eq_refl).
Qed.

(** X14: the tile that [consolidateVotes] keeps in [tile_map] for a
    signature is the last of the transformed candidates with that
    signature, in the order of the (candidate, transform) pairs. *)
Theorem consolidateVotes_keeps_last_tile
    (neighborhood_labels : list (list (list Z)))
    (votes : votes_t) (consolidated_votes : consolidated_votes_t)
    (tile_map : tile_map_t) :
  consolidateVotes neighborhood_labels
  = Ok (votes, consolidated_votes, tile_map) ->
  exists possibilities all_possibilities,
    consolidateVotes_possibilities neighborhood_labels = Ok possibilities
    /\ consolidateVotes_all_possibilities possibilities = Ok all_possibilities
    /\ forall before tile tr after,
         all_possibilities = before ++ (tile, tr) :: after ->
         (forall q, In q after -> hash_tile (fst q) <> hash_tile tile) ->
         dict_get tile_map (hash_tile tile) = Some tile.
Proof.
  intros Hrun.
  destruct (consolidateVotes_inv _ _ _ _ Hrun) as (p & ap & Hp & Hap & Htally).
  exists p, ap. split; [exact Hp |]. split; [exact Hap |].
  intros before tile tr after -> Hafter.
  rewrite fold_left_app in Htally. cbn [fold_left] in Htally.
  destruct (fold_left consolidateVotes_vote before ([], [], []))
    as [[v1 c1] t1].
  rewrite consolidateVotes_vote_eq in Htally. cbv zeta in Htally.
  rewrite (consolidateVotes_tally_tile_map_other after (hash_tile tile)
             Hafter _ _ _ _ _ _ Htally).
  apply dict_get_setitem.
Qed.

Lemma consolidateVotes_keeps_last_tile_witness :
  consolidateVotes [[[0]; [0]; [0]; [0]]]
  = Ok ([("0000"%string, map (fun tr => (tr, 1)) all_transforms)],
        [("0000"%string, 16)], [("0000"%string, [0; 0; 0; 0])])
  /\ exists possibilities all_possibilities,
       consolidateVotes_possibilities [[[0]; [0]; [0]; [0]]] = Ok possibilities
       /\ consolidateVotes_all_possibilities possibilities
          = Ok all_possibilities
       /\ forall before tile tr after,
            all_possibilities = before ++ (tile, tr) :: after ->
            (forall q, In q after -> hash_tile (fst q) <> hash_tile tile) ->
            dict_get [("0000"%string, [0; 0; 0; 0])] (hash_tile tile)
            = Some tile.
Proof.
  split; [reflexivity |].
  apply (consolidateVotes_keeps_last_tile [[[0]; [0]; [0]; [0]]]
           [("0000"%string, map (fun tr => (tr, 1)) all_transforms)]
           [("0000"%string, 16)] [("0000"%string, [0; 0; 0; 0])]).
  reflexivity.
Defined.

(** ** Scans that keep the best two

    [findBest] and [findBest2] run the same loop, the first on the counts
    and the second on the scores.  The loop is studied once, for any way
    [sc] of scoring an item (which may raise), any strict order [gt] and
    any update [upd] that behaves as lines 147-154 and 179-186 do. *)

Section BestTwo.
Context {I K A : Type}.
Variables (key : I -> K) (sc : I -> result A) (gt : A -> A -> bool).
Variable upd : K -> A -> option K * option A * option K * option A ->
               option K * option A * option K * option A.

Hypothesis gt_irrefl : forall a, gt a a = false.
Hypothesis gt_asym : forall a b, gt a b = true -> gt b a = false.
Hypothesis gt_above :
  forall a b c, gt a b = true -> gt c b = false -> gt a c = true.
Hypothesis upd_eq :
  forall k x best best_x second second_x,
    upd k x (best, best_x, second, second_x)
    = if match best_x with None => true | Some b => gt x b end
      then (Some k, Some x, best, best_x)
      else if match second_x with None => true | Some b => gt x b end
      then (best, best_x, Some k, Some x)
      else (best, best_x, second, second_x).

(** What the four variables hold once the loop has gone through [done]. *)
Local Abbreviation best_two done st :=
  (match st with
   | (Some kb, Some xb, second, second_x) =>
       exists pre ib post,
         done = pre ++ ib :: post
         /\ key ib = kb /\ sc ib = Ok xb
         /\ (forall it, In it pre ->
               exists x, sc it = Ok x /\ gt xb x = true)
         /\ (forall it, In it post ->
               exists x, sc it = Ok x /\ gt x xb = false)
         /\ match second, second_x with
            | Some k2, Some x2 =>
                exists i2, In i2 (pre ++ post)
                  /\ key i2 = k2 /\ sc i2 = Ok x2
                  /\ forall it, In it (pre ++ post) ->
                       exists x, sc it = Ok x /\ gt x x2 = false
            | None, None => pre ++ post = []
            | _, _ => False
            end
   | (None, None, None, None) => done = []
   | _ => False
   end).

Lemma best_two_step (done : list I) (it : I) (x : A)
    (st : option K * option A * option K * option A) :
  best_two done st -> sc it = Ok x ->
  best_two (done ++ [it]) (upd (key it) x st).
Proof.
  destruct st as [[[best best_x] second] second_x].
  intros Hinv Hx. rewrite upd_eq.
  destruct best as [kb |], best_x as [xb |]; try contradiction.
  - destruct Hinv as (pre & ib & post & -> & Hk & Hb & Hpre & Hpost & H2).
    destruct (gt x xb) eqn:Hgt.
    + exists (pre ++ ib :: post), it, [].
      split; [reflexivity |]. split; [reflexivity |]. split; [exact Hx |].
      assert (forall j, In j (pre ++ ib :: post) ->
                exists y, sc j = Ok y /\ gt x y = true /\ gt y xb = false)
        as Hall.
      { intros j Hj. apply in_app_or in Hj. destruct Hj as [Hj | [<- | Hj]].
        - destruct (Hpre j Hj) as (y & Hy & Hgy). exists y.
          split; [exact Hy |].
          split; [apply gt_above with (b := xb); auto | auto].
        - exists xb. auto.
        - destruct (Hpost j Hj) as (y & Hy & Hgy). exists y.
          split; [exact Hy |].
          split; [apply gt_above with (b := xb); auto | auto]. }
      split; [| split].
      * intros j Hj. destruct (Hall j Hj) as (y & Hy & Hgy & _). eauto.
      * intros j [].
      * exists ib. rewrite app_nil_r.
        split; [apply in_or_app; right; left; reflexivity |].
        split; [exact Hk |]. split; [exact Hb |].
        intros j Hj. destruct (Hall j Hj) as (y & Hy & _ & Hgy). eauto.
    + assert (forall j, In j (post ++ [it]) ->
                exists y, sc j = Ok y /\ gt y xb = false) as Hpost'.
      { intros j Hj. apply in_app_or in Hj.
        destruct Hj as [Hj | [<- | []]]; [exact (Hpost j Hj) | eauto]. }
      assert ((pre ++ ib :: post) ++ [it] = pre ++ ib :: post ++ [it])
        as Hdone by (rewrite <- app_assoc; reflexivity).
      assert (forall j, In j (pre ++ post ++ [it]) ->
                In j (pre ++ post) \/ j = it) as Hsplit.
      { intros j Hj. rewrite app_assoc in Hj. apply in_app_or in Hj.
        destruct Hj as [Hj | [<- | []]]; auto. }
      destruct second as [k2 |], second_x as [x2 |]; try contradiction.
      * destruct H2 as (i2 & Hi2 & Hk2 & Hs2 & Hrest).
        destruct (gt x x2) eqn:Hgt2.
        -- exists pre, ib, (post ++ [it]).
           split; [exact Hdone |]. split; [exact Hk |]. split; [exact Hb |].
           split; [exact Hpre |]. split; [exact Hpost' |].
           exists it.
           split; [rewrite app_assoc; apply in_or_app; right; left; reflexivity |].
           split; [reflexivity |]. split; [exact Hx |].
           intros j Hj. destruct (Hsplit j Hj) as [Hold | ->].
           ++ destruct (Hrest j Hold) as (y & Hy & Hgy). exists y.
              split; [exact Hy |].
              apply gt_asym. apply gt_above with (b := x2); assumption.
           ++ eauto.
        -- exists pre, ib, (post ++ [it]).
           split; [exact Hdone |]. split; [exact Hk |]. split; [exact Hb |].
           split; [exact Hpre |]. split; [exact Hpost' |].
           exists i2.
           split; [rewrite app_assoc; apply in_or_app; left; exact Hi2 |].
           split; [exact Hk2 |]. split; [exact Hs2 |].
           intros j Hj. destruct (Hsplit j Hj) as [Hold | ->];
             [exact (Hrest j Hold) | eauto].
      * exists pre, ib, (post ++ [it]).
        split; [exact Hdone |]. split; [exact Hk |]. split; [exact Hb |].
        split; [exact Hpre |]. split; [exact Hpost' |].
        exists it.
        split; [rewrite app_assoc; apply in_or_app; right; left; reflexivity |].
        split; [reflexivity |]. split; [exact Hx |].
        intros j Hj. destruct (Hsplit j Hj) as [Hold | ->].
        -- rewrite H2 in Hold. destruct Hold.
        -- eauto.
  - destruct second as [k2 |]; [contradiction |].
    destruct second_x as [x2 |]; [contradiction |].
    subst done. exists [], it, [].
    repeat split; auto; intros j [].
Qed.

Lemma best_two_loop (rest : list I) :
  forall (done : list I) (st st' : option K * option A * option K * option A),
    best_two done st ->
    for_in rest (fun it st => x <- sc it ;; Ok (upd (key it) x st)) st
    = Ok st' ->
    best_two (done ++ rest) st'.
Proof.
  induction rest as [| it rest IH]; intros done st st' Hinv Hrun.
  - simpl in Hrun. injection Hrun as <-. rewrite app_nil_r. exact Hinv.
  - cbn [for_in] in Hrun.
    apply bind_Ok_inv in Hrun. destruct Hrun as (st1 & Hbody & Hrun).
    apply bind_Ok_inv in Hbody. destruct Hbody as (x & Hx & Hst).
    injection Hst as <-.
    change (done ++ it :: rest) with (done ++ [it] ++ rest).
    rewrite app_assoc.
    apply (IH (done ++ [it]) _ st' (best_two_step done it x st Hinv Hx) Hrun).
Qed.

End BestTwo.

(** ** The second best of [findBest2] *)

Lemma Score_gt_refl_false (a : Score) : Score_gt a a = false.
Proof. apply Score_gt_false_lex. lia. Qed.

Lemma Score_gt_asym (a b : Score) : Score_gt a b = true -> Score_gt b a = false.
Proof. rewrite Score_gt_lex, Score_gt_false_lex. lia. Qed.

Lemma findBest2_update_eq (k : string) (x : Score)
    (best : option string) (best_x : option Score)
    (second : option string) (second_x : option Score) :
  findBest2_update k x (best, best_x, second, second_x)
  = if match best_x with None => true | Some b => Score_gt x b end
    then (Some k, Some x, best, best_x)
    else if match second_x with None => true | Some b => Score_gt x b end
    then (best, best_x, Some k, Some x)
    else (best, best_x, second, second_x).
Proof. reflexivity. Qed.

(** [findBest2] as a scan that keeps the best two. *)
Lemma findBest2_as_scan (votes : votes_t)
    (consolidated_votes : consolidated_votes_t) (tile_map : tile_map_t) :
  findBest2 votes consolidated_votes tile_map
  = for_in consolidated_votes
      (fun (it : string * Z) st =>
         x <- findBest2_score votes tile_map (fst it) (snd it) ;;
         Ok (findBest2_update (fst it) x st))
      (None, None, None, None).
Proof.
  unfold findBest2. apply for_in_ext. intros [k n] st _. reflexivity.
Qed.

(** X15: the second best that [findBest2] returns.  It is absent exactly
    when there are fewer than two signatures.  Otherwise it is a signature
    of the dictionary, met at another place than the best one (so another
    signature, the keys of a dictionary being distinct); its score does
    not beat the best score, and the only entry whose score beats it is
    the best one. *)
Theorem findBest2_second_best (votes : votes_t)
    (consolidated_votes : consolidated_votes_t) (tile_map : tile_map_t)
    (best : option string) (best_score : option Score)
    (second_best : option string) (second_best_score : option Score) :
  findBest2 votes consolidated_votes tile_map
  = Ok (best, best_score, second_best, second_best_score) ->
  (second_best = None /\ second_best_score = None
   /\ (List.length consolidated_votes <= 1)%nat)
  \/ (exists k2 s2 kb sb n2,
        second_best = Some k2 /\ second_best_score = Some s2
        /\ best = Some kb /\ best_score = Some sb
        /\ (2 <= List.length consolidated_votes)%nat
        /\ In (k2, n2) consolidated_votes
        /\ findBest2_score votes tile_map k2 n2 = Ok s2
        /\ Score_gt s2 sb = false
        /\ (NoDup (keys consolidated_votes) -> k2 <> kb)
        /\ forall k n s,
             In (k, n) consolidated_votes ->
             findBest2_score votes tile_map k n = Ok s ->
             Score_gt s s2 = true -> k = kb /\ s = sb).
Proof.
  rewrite findBest2_as_scan. intros Hrun.
  pose proof (best_two_loop fst
                (fun it : string * Z =>
                   findBest2_score votes tile_map (fst it) (snd it))
                Score_gt findBest2_update
                Score_gt_refl_false Score_gt_asym Score_gt_above
                findBest2_update_eq
                consolidated_votes [] (None, None, None, None) _
                eq_refl Hrun) as Hinv.
  cbn [app] in Hinv.
  destruct best as [kb |], best_score as [sb |]; try contradiction.
  - destruct Hinv as (pre & ib & post & Hc & Hk & Hb & Hpre & Hpost & H2).
    destruct second_best as [k2 |], second_best_score as [s2 |];
      try contradiction.
    + right. destruct H2 as ([k2' n2] & Hi2 & Hk2 & Hs2 & Hrest).
      cbn [fst snd] in Hk2, Hs2. subst k2'.
      exists k2, s2, kb, sb, n2.
      repeat (split; [reflexivity |]).
      assert (In (k2, n2) consolidated_votes) as Hin2.
      { rewrite Hc. apply in_app_or in Hi2. apply in_or_app.
        destruct Hi2 as [Hi2 | Hi2]; [left | right; right]; exact Hi2. }
      split.
      { rewrite Hc, length_app. cbn [List.length].
        apply in_app_or in Hi2.
        destruct Hi2 as [Hi2 | Hi2];
          [destruct pre | destruct post]; try destruct Hi2;
          cbn [List.length]; lia. }
      split; [exact Hin2 |]. split; [exact Hs2 |].
      split.
      { apply in_app_or in Hi2. destruct Hi2 as [Hi2 | Hi2].
        - destruct (Hpre _ Hi2) as (y & Hy & Hgy). cbn [fst snd] in Hy.
          rewrite Hs2 in Hy. injection Hy as <-.
          apply Score_gt_asym. exact Hgy.
        - destruct (Hpost _ Hi2) as (y & Hy & Hgy). cbn [fst snd] in Hy.
          rewrite Hs2 in Hy. injection Hy as <-. exact Hgy. }
      split.
      { intros Hnd Heq. subst kb.
        unfold keys in Hnd. rewrite Hc, map_app in Hnd. cbn [map] in Hnd.
        apply NoDup_remove_2 in Hnd. apply Hnd.
        rewrite <- map_app, <- Heq.
        change k2 with (fst (k2, n2)). apply in_map. exact Hi2. }
      intros k n s Hin Hs Hgt.
      rewrite Hc in Hin. apply in_app_or in Hin.
      assert (In (k, n) (pre ++ post) \/ (k, n) = ib) as [Hold | Heq].
      { destruct Hin as [Hin | [Heq | Hin]];
          [left; apply in_or_app; left; exact Hin
          | right; symmetry; exact Heq
          | left; apply in_or_app; right; exact Hin]. }
      * destruct (Hrest _ Hold) as (y & Hy & Hgy). cbn [fst snd] in Hy.
        rewrite Hs in Hy. injection Hy as <-.
        rewrite Hgt in Hgy. discriminate Hgy.
      * subst ib. cbn [fst snd] in Hk, Hb. rewrite Hs in Hb.
        injection Hb as <-. auto.
    + left. split; [reflexivity |]. split; [reflexivity |].
      rewrite Hc, length_app. cbn [List.length].
      assert (List.length (pre ++ post) = 0%nat) as Hlen
        by (rewrite H2; reflexivity).
      rewrite length_app in Hlen. lia.
  - destruct second_best as [k2 |]; [contradiction |].
    destruct second_best_score as [s2 |]; [contradiction |].
    left. rewrite Hinv. simpl. auto.
Qed.

Lemma findBest2_second_best_witness :
  let votes : votes_t :=
    [("-1234"%string, [(mkTransform false false 0, 5)]);
     ("-1-234"%string, [(mkTransform false false 1, 5)])] in
  let tile_map : tile_map_t :=
    [("-1234"%string, [-1; 2; 3; 4]); ("-1-234"%string, [-1; -2; 3; 4])] in
  findBest2 votes [("-1-234"%string, 5); ("-1234"%string, 5)] tile_map
  = Ok (Some "-1234"%string, Some (mkScore 5 5 1),
        Some "-1-234"%string, Some (mkScore 5 0 2))
  /\ ((Some "-1-234"%string = None /\ Some (mkScore 5 0 2) = None
       /\ (List.length [("-1-234"%string, 5); ("-1234"%string, 5)] <= 1)%nat)
      \/ (exists k2 s2 kb sb n2,
            Some "-1-234"%string = Some k2 /\ Some (mkScore 5 0 2) = Some s2
            /\ Some "-1234"%string = Some kb /\ Some (mkScore 5 5 1) = Some sb
            /\ (2 <= List.length [("-1-234"%string, 5); ("-1234"%string, 5)])%nat
            /\ In (k2, n2) [("-1-234"%string, 5); ("-1234"%string, 5)]
            /\ findBest2_score votes tile_map k2 n2 = Ok s2
            /\ Score_gt s2 sb = false
            /\ (NoDup (keys [("-1-234"%string, 5); ("-1234"%string, 5)]) ->
                k2 <> kb)
            /\ forall k n s,
                 In (k, n) [("-1-234"%string, 5); ("-1234"%string, 5)] ->
                 findBest2_score votes tile_map k n = Ok s ->
                 Score_gt s s2 = true -> k = kb /\ s = sb)).
Proof.
  intros votes tile_map.
  split; [reflexivity |].
  apply (findBest2_second_best votes
           [("-1-234"%string, 5); ("-1234"%string, 5)] tile_map).
  reflexivity.
Defined.

(** ** [findBest] *)

(** A loop whose body never raises is a left fold. *)
Lemma for_in_pure {A S : Type} (l : list A) (step : S -> A -> S) :
  forall s, for_in l (fun x s => Ok (step s x)) s = Ok (fold_left step l s).
Proof.
  induction l as [| x l IH]; intros s; simpl; [reflexivity | apply IH].
Qed.

Lemma Z_gtb_refl_false (a : Z) : (a >? a) = false.
Proof. rewrite Z.gtb_ltb. apply Z.ltb_irrefl. Qed.

Lemma Z_gtb_asym (a b : Z) : (a >? b) = true -> (b >? a) = false.
Proof. rewrite !Z.gtb_ltb, Z.ltb_lt, Z.ltb_ge. lia. Qed.

Lemma Z_gtb_above (a b c : Z) :
  (a >? b) = true -> (c >? b) = false -> (a >? c) = true.
Proof. rewrite !Z.gtb_ltb, !Z.ltb_lt, Z.ltb_ge. lia. Qed.

Lemma findBest_update_eq (k : string) (x : Z)
    (best : option string) (best_x : option Z)
    (second : option string) (second_x : option Z) :
  findBest_update k x (best, best_x, second, second_x)
  = if match best_x with None => true | Some b => x >? b end
    then (Some k, Some x, best, best_x)
    else if match second_x with None => true | Some b => x >? b end
    then (best, best_x, Some k, Some x)
    else (best, best_x, second, second_x).
Proof. reflexivity. Qed.

(** [findBest] as a scan that keeps the best two. *)
Lemma findBest_as_scan (votes : votes_t)
    (consolidated_votes : consolidated_votes_t) (tile_map : tile_map_t) :
  for_in consolidated_votes
    (fun (it : string * Z) st =>
       x <- Ok (snd it) ;; Ok (findBest_update (fst it) x st))
    (None, None, None, None)
  = Ok (findBest votes consolidated_votes tile_map).
Proof.
  unfold findBest.
  rewrite <- (for_in_pure consolidated_votes
                (fun st (item : string * Z) =>
                   let '(k, count) := item in findBest_update k count st)).
  apply for_in_ext. intros [k n] st _. reflexivity.
Qed.

(** X16: [findBest] returns nothing for an empty dictionary; otherwise its
    best is the first signature with the greatest count (every count
    before it is smaller, none after it is greater).  Its second best is
    absent exactly when there is one signature only; otherwise it is an
    entry whose count is at most the best count, and no entry but the best
    one has a greater count. *)
Theorem findBest_spec (votes : votes_t)
    (consolidated_votes : consolidated_votes_t) (tile_map : tile_map_t)
    (best : option string) (best_count : option Z)
    (second_best : option string) (second_best_count : option Z) :
  findBest votes consolidated_votes tile_map
  = (best, best_count, second_best, second_best_count) ->
  match best, best_count with
  | Some kb, Some nb =>
      (exists pre post,
         consolidated_votes = pre ++ (kb, nb) :: post
         /\ (forall k n, In (k, n) pre -> n < nb)
         /\ (forall k n, In (k, n) post -> n <= nb))
      /\ match second_best, second_best_count with
         | Some k2, Some n2 =>
             In (k2, n2) consolidated_votes /\ n2 <= nb
             /\ (2 <= List.length consolidated_votes)%nat
             /\ forall k n, In (k, n) consolidated_votes -> n2 < n ->
                            (k, n) = (kb, nb)
         | None, None => consolidated_votes = [(kb, nb)]
         | _, _ => False
         end
  | None, None =>
      consolidated_votes = [] /\ second_best = None
      /\ second_best_count = None
  | _, _ => False
  end.
Proof.
  intros Hrun.
  pose proof (findBest_as_scan votes consolidated_votes tile_map) as Hscan.
  rewrite Hrun in Hscan.
  pose proof (best_two_loop fst (fun it : string * Z => Ok (snd it))
                Z.gtb findBest_update
                Z_gtb_refl_false Z_gtb_asym Z_gtb_above findBest_update_eq
                consolidated_votes [] (None, None, None, None) _
                eq_refl Hscan) as Hinv.
  cbn [app] in Hinv.
  destruct best as [kb |], best_count as [nb |]; try contradiction.
  - destruct Hinv as (pre & [kb' nb'] & post & Hc & Hk & Hb & Hpre & Hpost & H2).
    cbn [fst snd] in Hk, Hb. injection Hb as ->. subst kb'.
    assert (forall k n, In (k, n) pre -> n < nb) as Hpre'.
    { intros k n Hin. destruct (Hpre _ Hin) as (y & Hy & Hgy).
      cbn [snd] in Hy. injection Hy as <-.
      rewrite Z.gtb_ltb, Z.ltb_lt in Hgy. exact Hgy. }
    assert (forall k n, In (k, n) post -> n <= nb) as Hpost'.
    { intros k n Hin. destruct (Hpost _ Hin) as (y & Hy & Hgy).
      cbn [snd] in Hy. injection Hy as <-.
      rewrite Z.gtb_ltb, Z.ltb_ge in Hgy. exact Hgy. }
    split; [exists pre, post; auto |].
    destruct second_best as [k2 |], second_best_count as [n2 |];
      try contradiction.
    + destruct H2 as ([k2' n2'] & Hi2 & Hk2 & Hs2 & Hrest).
      cbn [fst snd] in Hk2, Hs2. injection Hs2 as ->. subst k2'.
      split.
      { rewrite Hc. apply in_app_or in Hi2. apply in_or_app.
        destruct Hi2 as [Hi2 | Hi2]; [left | right; right]; exact Hi2. }
      split.
      { apply in_app_or in Hi2. destruct Hi2 as [Hi2 | Hi2].
        - pose proof (Hpre' _ _ Hi2). lia.
        - exact (Hpost' _ _ Hi2). }
      split.
      { rewrite Hc, length_app. cbn [List.length].
        apply in_app_or in Hi2.
        destruct Hi2 as [Hi2 | Hi2];
          [destruct pre | destruct post]; try destruct Hi2;
          cbn [List.length]; lia. }
      intros k n Hin Hlt.
      rewrite Hc in Hin. apply in_app_or in Hin.
      assert (In (k, n) (pre ++ post) \/ (k, n) = (kb, nb)) as [Hold | Heq].
      { destruct Hin as [Hin | [Heq | Hin]];
          [left; apply in_or_app; left; exact Hin
          | right; symmetry; exact Heq
          | left; apply in_or_app; right; exact Hin]. }
      * destruct (Hrest _ Hold) as (y & Hy & Hgy).
        cbn [snd] in Hy. injection Hy as <-.
        rewrite Z.gtb_ltb, Z.ltb_ge in Hgy. lia.
      * exact Heq.
    + rewrite Hc. destruct pre; [| discriminate H2].
      cbn [app] in H2. subst post. reflexivity.
  - destruct second_best as [k2 |]; [contradiction |].
    destruct second_best_count as [n2 |]; [contradiction |].
    auto.
Qed.

Lemma findBest_spec_witness :
  findBest [] [("a"%string, 3); ("b"%string, 7); ("c"%string, 7)] []
  = (Some "b"%string, Some 7, Some "c"%string, Some 7)
  /\ (exists pre post,
        [("a"%string, 3); ("b"%string, 7); ("c"%string, 7)]
        = pre ++ ("b"%string, 7) :: post
        /\ (forall k n, In (k, n) pre -> n < 7)
        /\ (forall k n, In (k, n) post -> n <= 7)).
Proof.
  assert (findBest [] [("a"%string, 3); ("b"%string, 7); ("c"%string, 7)] []
          = (Some "b"%string, Some 7, Some "c"%string, Some 7)) as Hrun
    by reflexivity.
  split; [exact Hrun |].
  exact (proj1 (findBest_spec [] _ [] _ _ _ _ Hrun)).
Defined.

(** ** [findBest] and [findBest2] on the same dictionaries *)

(** A score that [findBest2] computes has the consolidated count as its
    total: the assertion of line 177 has passed. *)
Lemma findBest2_score_total_votes (votes : votes_t) (tile_map : tile_map_t)
    (k : string) (count : Z) (score : Score) :
  findBest2_score votes tile_map k count = Ok score ->
  total_votes score = count.
Proof.
  unfold findBest2_score. intros Hrun.
  apply bind_Ok_inv in Hrun. destruct Hrun as (tile & _ & Hrun).
  cbv zeta in Hrun.
  apply bind_Ok_inv in Hrun. destruct Hrun as (u & Hassert & Hrun).
  injection Hrun as <-.
  unfold assert in Hassert.
  match type of Hassert with
  | (if ?b then _ else _) = _ => destruct b eqn:Heq; [| discriminate Hassert]
  end.
  apply Z.eqb_eq in Heq. exact Heq.
Qed.

Lemma findBest_first_greatest (votes : votes_t)
    (consolidated_votes : consolidated_votes_t) (tile_map : tile_map_t)
    (kb : string) (nb : Z) (second_best : option string)
    (second_best_count : option Z) :
  findBest votes consolidated_votes tile_map
  = (Some kb, Some nb, second_best, second_best_count) ->
  In (kb, nb) consolidated_votes
  /\ forall k n, In (k, n) consolidated_votes -> n <= nb.
Proof.
  intros Hrun.
  pose proof (findBest_as_scan votes consolidated_votes tile_map) as Hscan.
  rewrite Hrun in Hscan.
  pose proof (best_two_loop fst (fun it : string * Z => Ok (snd it))
                Z.gtb findBest_update
                Z_gtb_refl_false Z_gtb_asym Z_gtb_above findBest_update_eq
                consolidated_votes [] (None, None, None, None) _
                eq_refl Hscan) as Hinv.
  cbn [app] in Hinv.
  destruct Hinv as (pre & [kb' nb'] & post & Hc & Hk & Hb & Hpre & Hpost & _).
  cbn [fst snd] in Hk, Hb. injection Hb as ->. subst kb'.
  split; [rewrite Hc; apply in_or_app; right; left; reflexivity |].
  intros k n Hin. rewrite Hc in Hin. apply in_app_or in Hin.
  destruct Hin as [Hin | [Heq | Hin]].
  - destruct (Hpre _ Hin) as (y & Hy & Hgy). cbn [snd] in Hy.
    injection Hy as <-. rewrite Z.gtb_ltb, Z.ltb_lt in Hgy. lia.
  - injection Heq as _ <-. lia.
  - destruct (Hpost _ Hin) as (y & Hy & Hgy). cbn [snd] in Hy.
    injection Hy as <-. rewrite Z.gtb_ltb, Z.ltb_ge in Hgy. exact Hgy.
Qed.

(** X17: on the same dictionaries, when [findBest2] returns, its best
    signature is one with the greatest count: the total votes of its best
    score are the best count of [findBest], and it has that count in
    [consolidated_votes]. *)
Theorem findBest2_best_has_findBest_count (votes : votes_t)
    (consolidated_votes : consolidated_votes_t) (tile_map : tile_map_t)
    (kb2 : string) (sb2 : Score) (second2 : option string)
    (second_score2 : option Score)
    (kb1 : string) (nb1 : Z) (second1 : option string)
    (second_count1 : option Z) :
  findBest2 votes consolidated_votes tile_map
  = Ok (Some kb2, Some sb2, second2, second_score2) ->
  findBest votes consolidated_votes tile_map
  = (Some kb1, Some nb1, second1, second_count1) ->
  total_votes sb2 = nb1 /\ In (kb2, nb1) consolidated_votes.
Proof.
  rewrite findBest2_as_scan. intros Hrun2 Hrun1.
  pose proof (best_two_loop fst
                (fun it : string * Z =>
                   findBest2_score votes tile_map (fst it) (snd it))
                Score_gt findBest2_update
                Score_gt_refl_false Score_gt_asym Score_gt_above
                findBest2_update_eq
                consolidated_votes [] (None, None, None, None) _
                eq_refl Hrun2) as Hinv.
  cbn [app] in Hinv.
  destruct Hinv as (pre & [kb n2] & post & Hc & Hk & Hb & Hpre & Hpost & _).
  cbn [fst snd] in Hk, Hb. subst kb.
  pose proof (findBest2_score_total_votes _ _ _ _ _ Hb) as Htot.
  destruct (findBest_first_greatest _ _ _ _ _ _ _ Hrun1) as [Hin1 Hmax1].
  assert (In (kb2, n2) consolidated_votes) as Hin2
    by (rewrite Hc; apply in_or_app; right; left; reflexivity).
  assert (nb1 <= n2) as Hle.
  { rewrite Hc in Hin1. apply in_app_or in Hin1.
    destruct Hin1 as [Hin1 | [Heq | Hin1]].
    - destruct (Hpre _ Hin1) as (y & Hy & Hgy). cbn [fst snd] in Hy.
      pose proof (findBest2_score_total_votes _ _ _ _ _ Hy) as Hty.
      apply Score_gt_lex in Hgy. lia.
    - injection Heq as _ <-. lia.
    - destruct (Hpost _ Hin1) as (y & Hy & Hgy). cbn [fst snd] in Hy.
      pose proof (findBest2_score_total_votes _ _ _ _ _ Hy) as Hty.
      apply Score_gt_false_lex in Hgy. lia. }
  pose proof (Hmax1 _ _ Hin2) as Hge.
  assert (n2 = nb1) as -> by lia.
  split; [exact Htot | exact Hin2].
Qed.

Lemma findBest2_best_has_findBest_count_witness :
  let votes : votes_t :=
    [("-1-234"%string, [(mkTransform false false 1, 5)]);
     ("-1234"%string, [(mkTransform false false 0, 5)])] in
  let tile_map : tile_map_t :=
    [("-1234"%string, [-1; 2; 3; 4]); ("-1-234"%string, [-1; -2; 3; 4])] in
  findBest2 votes [("-1-234"%string, 5); ("-1234"%string, 5)] tile_map
  = Ok (Some "-1234"%string, Some (mkScore 5 5 1),
        Some "-1-234"%string, Some (mkScore 5 0 2))
  /\ findBest votes [("-1-234"%string, 5); ("-1234"%string, 5)] tile_map
     = (Some "-1-234"%string, Some 5, Some "-1234"%string, Some 5)
  /\ total_votes (mkScore 5 5 1) = 5
  /\ In ("-1234"%string, 5) [("-1-234"%string, 5); ("-1234"%string, 5)].
Proof.
  intros votes tile_map.
  assert (findBest2 votes [("-1-234"%string, 5); ("-1234"%string, 5)] tile_map
          = Ok (Some "-1234"%string, Some (mkScore 5 5 1),
                Some "-1-234"%string, Some (mkScore 5 0 2))) as H2
    by reflexivity.
  assert (findBest votes [("-1-234"%string, 5); ("-1234"%string, 5)] tile_map
          = (Some "-1-234"%string, Some 5, Some "-1234"%string, Some 5)) as H1
    by reflexivity.
  split; [exact H2 |]. split; [exact H1 |].
  exact (findBest2_best_has_findBest_count _ _ _ _ _ _ _ _ _ _ _ H2 H1).
Defined.

(** ** When [findBest2] raises *)

(** What [findBest2] computes for one signature, case by case. *)
Lemma findBest2_score_cases (votes : votes_t) (tile_map : tile_map_t)
    (k : string) (count : Z) :
  match dict_get tile_map k with
  | None => findBest2_score votes tile_map k count = Raise KeyError
  | Some tile =>
      if sum_values (dict_get_default votes k []) =? count
      then exists score, findBest2_score votes tile_map k count = Ok score
      else findBest2_score votes tile_map k count = Raise AssertionError
  end.
Proof.
  destruct (dict_get tile_map k) as [tile |] eqn:Htile.
  - destruct (Z.eqb_spec (sum_values (dict_get_default votes k [])) count)
      as [Hsum | Hsum].
    + destruct (findBest2_score_total votes tile_map k count tile Htile Hsum)
        as (score & Hscore & _).
      exists score. exact Hscore.
    + unfold findBest2_score, dict_getitem. rewrite Htile. cbn [bind].
      cbv zeta. rewrite defaultdict_getitem_fst.
      match goal with
      | |- context [fold_left (findBest2_subcount count) ?d ?s] =>
          assert (total_votes (fold_left (findBest2_subcount count) d s)
                  = sum_values (dict_get_default votes k [])) as Htot
            by (rewrite findBest2_subcount_total, findBest2_label_total;
                reflexivity)
      end.
      rewrite Htot.
      destruct (Z.eqb_spec (sum_values (dict_get_default votes k [])) count);
        [contradiction | reflexivity].
  - unfold findBest2_score, dict_getitem. rewrite Htile. reflexivity.
Qed.

(** X18: [findBest2] returns when every signature of [consolidated_votes]
    has a tile in [tile_map] and per-transform counts that add up to its
    consolidated count.  It stops at the first signature for which this
    fails: with [KeyError] if the tile is missing, with [AssertionError]
    if the tile is there and the counts do not add up. *)
Theorem findBest2_raises (votes : votes_t) (tile_map : tile_map_t)
    (pre post : consolidated_votes_t) (k : string) (n : Z) :
  (forall k' n', In (k', n') pre ->
     dict_get tile_map k' <> None
     /\ sum_values (dict_get_default votes k' []) = n') ->
  (exists sel, findBest2 votes pre tile_map = Ok sel)
  /\ (dict_get tile_map k = None ->
      findBest2 votes (pre ++ (k, n) :: post) tile_map = Raise KeyError)
  /\ (dict_get tile_map k <> None ->
      sum_values (dict_get_default votes k []) <> n ->
      findBest2 votes (pre ++ (k, n) :: post) tile_map
      = Raise AssertionError).
Proof.
  intros Hpre.
  assert (exists sel, findBest2 votes pre tile_map = Ok sel) as [sel Hsel].
  { unfold findBest2. apply for_in_total. intros [k' n'] Hin st.
    destruct (Hpre k' n' Hin) as [Htile Hsum].
    pose proof (findBest2_score_cases votes tile_map k' n') as Hcases.
    destruct (dict_get tile_map k') as [tile |]; [| contradiction].
    rewrite Hsum, Z.eqb_refl in Hcases.
    destruct Hcases as (score & ->). eexists. reflexivity. }
  split; [exists sel; exact Hsel |].
  pose proof (findBest2_score_cases votes tile_map k n) as Hcases.
  unfold findBest2 in *. rewrite !for_in_app, Hsel. cbn [bind for_in].
  split.
  - intros Hnone. rewrite Hnone in Hcases. rewrite Hcases. reflexivity.
  - intros Hsome Hsum.
    destruct (dict_get tile_map k) as [tile |]; [| contradiction].
    destruct (Z.eqb_spec (sum_values (dict_get_default votes k [])) n);
      [contradiction |].
    rewrite Hcases. reflexivity.
Qed.

Lemma findBest2_raises_witness :
  let votes : votes_t := [("1234"%string, [(mkTransform false false 0, 2)])] in
  let tile_map : tile_map_t := [("1234"%string, [1; 2; 3; 4])] in
  (forall k' n', In (k', n') [("1234"%string, 2)] ->
     dict_get tile_map k' <> None
     /\ sum_values (dict_get_default votes k' []) = n')
  /\ findBest2 votes ([("1234"%string, 2)] ++ ("5678"%string, 1) :: [])
               tile_map = Raise KeyError
  /\ findBest2 votes ([("1234"%string, 2)] ++ ("1234"%string, 3) :: [])
               tile_map = Raise AssertionError.
Proof.
  intros votes tile_map.
  assert (forall k' n', In (k', n') [("1234"%string, 2)] ->
            dict_get tile_map k' <> None
            /\ sum_values (dict_get_default votes k' []) = n') as Hpre.
  { intros k' n' [Heq | []]. injection Heq as <- <-.
    split; [discriminate | reflexivity]. }
  split; [exact Hpre |]. split.
  - apply (proj1 (proj2 (findBest2_raises votes tile_map
                           [("1234"%string, 2)] [] "5678"%string 1 Hpre))).
    reflexivity.
  - apply (proj2 (proj2 (findBest2_raises votes tile_map
                           [("1234"%string, 2)] [] "1234"%string 3 Hpre))).
    + discriminate.
    + vm_compute. discriminate.
Defined.

(** ** The parts of a score *)

Lemma findBest2_label_flipped (tile : list Z) (score : Score) :
  flipped_edges (fold_left findBest2_label tile score)
  = flipped_edges score
    + Z.of_nat (List.length (filter (fun label => label <? 0) tile)).
Proof.
  revert score. induction tile as [| label tile IH]; intros score.
  - simpl. lia.
  - cbn [fold_left filter]. rewrite IH. unfold findBest2_label.
    destruct (label <? 0); cbn [flipped_edges List.length]; lia.
Qed.

Lemma findBest2_subcount_flipped (count : Z) (inner : dict Transform Z)
    (score : Score) :
  flipped_edges (fold_left (findBest2_subcount count) inner score)
  = flipped_edges score.
Proof.
  revert score. induction inner as [| [tr subcount] inner IH]; intros score.
  - reflexivity.
  - cbn [fold_left]. rewrite IH. simpl.
    destruct (isIdentity tr); reflexivity.
Qed.

(** X19: a score that [findBest2] computes for a signature has as flipped
    edges the number of negative labels of the tile kept for the
    signature, and as total votes the consolidated count, which is then
    the sum of the signature's per-transform counts. *)
Theorem findBest2_score_parts (votes : votes_t) (tile_map : tile_map_t)
    (k : string) (count : Z) (score : Score) :
  findBest2_score votes tile_map k count = Ok score ->
  exists tile,
    dict_get tile_map k = Some tile
    /\ flipped_edges score
       = Z.of_nat (List.length (filter (fun label => label <? 0) tile))
    /\ total_votes score = count
    /\ sum_values (dict_get_default votes k []) = count.
Proof.
  intros Hrun.
  pose proof (findBest2_score_total_votes _ _ _ _ _ Hrun) as Htot.
  unfold findBest2_score, dict_getitem in Hrun.
  destruct (dict_get tile_map k) as [tile |]; [| discriminate Hrun].
  cbn [bind] in Hrun. cbv zeta in Hrun.
  apply bind_Ok_inv in Hrun. destruct Hrun as (u & _ & Hrun).
  injection Hrun as Hscore.
  exists tile. split; [reflexivity |].
  rewrite <- Hscore in *. rewrite defaultdict_getitem_fst in *.
  split; [| split].
  - rewrite findBest2_subcount_flipped, findBest2_label_flipped. reflexivity.
  - exact Htot.
  - rewrite findBest2_subcount_total, findBest2_label_total in Htot.
    exact Htot.
Qed.

Lemma findBest2_score_parts_witness :
  findBest2_score [("-1-234"%string, [(mkTransform false false 1, 5)])]
                  [("-1-234"%string, [-1; -2; 3; 4])] "-1-234"%string 5
  = Ok (mkScore 5 0 2)
  /\ exists tile,
       dict_get [("-1-234"%string, [-1; -2; 3; 4])] "-1-234"%string
       = Some tile
       /\ flipped_edges (mkScore 5 0 2)
          = Z.of_nat (List.length (filter (fun label => label <? 0) tile))
       /\ total_votes (mkScore 5 0 2) = 5
       /\ sum_values
            (dict_get_default
               [("-1-234"%string, [(mkTransform false false 1, 5)])]
               "-1-234"%string []) = 5.
Proof.
  split; [reflexivity |].
  apply (findBest2_score_parts
           [("-1-234"%string, [(mkTransform false false 1, 5)])]
           [("-1-234"%string, [-1; -2; 3; 4])] "-1-234"%string 5).
  reflexivity.
Defined.

(** ** What [importVotes] can raise *)

Lemma for_in_raise {A S : Type} (l : list A) (body : A -> S -> result S)
    (P : error -> Prop) :
  (forall x s e, In x l -> body x s = Raise e -> P e) ->
  forall s e, for_in l body s = Raise e -> P e.
Proof.
  induction l as [| x l IH]; intros Hbody s e Hrun; simpl in Hrun.
  - discriminate Hrun.
  - destruct (body x s) as [s1 | e1] eqn:Hx; simpl in Hrun.
    + apply (IH (fun y t e' Hy => Hbody y t e' (or_intror Hy)) s1 e Hrun).
    + injection Hrun as <-. apply (Hbody x s e1 (or_introl eq_refl) Hx).
Qed.

Lemma assert_raise (b : bool) (e : error) :
  assert b = Raise e -> e = AssertionError.
Proof.
  destruct b; simpl; intros Heq; [discriminate Heq |].
  injection Heq as <-. reflexivity.
Qed.

Lemma importVotes_entry_raise (k : string) (entry : CountEntry)
    (st : votes_t * consolidated_votes_t) (e : error) :
  importVotes_entry k entry st = Raise e -> e = AssertionError.
Proof.
  destruct st as [cv cc]. rewrite importVotes_entry_eq. cbv zeta.
  destruct (assert _) as [u | e1] eqn:Hassert; simpl; intros Heq.
  - discriminate Heq.
  - injection Heq as <-. exact (assert_raise _ _ Hassert).
Qed.

Lemma importVotes_record_raise (v : VoteRecord)
    (st : votes_t * consolidated_votes_t * tile_map_t) (e : error) :
  importVotes_record v st = Raise e -> e = AssertionError.
Proof.
  destruct st as [[cv cc] tm]. unfold importVotes_record. cbv zeta.
  destruct (defaultdict_getitem 0 cc (hash_tile (record_tile v))) as [n cc1].
  destruct (assert (n =? 0)) as [u | e1] eqn:Hassert; cbn [bind]; intros Heq.
  - destruct (for_in (record_counts v)
                (importVotes_entry (hash_tile (record_tile v))) (cv, cc1))
      as [[cv2 cc2] | e2] eqn:Hloop; cbn [bind] in Heq.
    + discriminate Heq.
    + injection Heq as <-.
      apply (for_in_raise _ _ (fun e => e = AssertionError)
               (fun x s e' _ Hx => importVotes_entry_raise _ x s e' Hx)
               _ _ Hloop).
  - injection Heq as <-. exact (assert_raise _ _ Hassert).
Qed.

(** X20: the only exception that [importVotes] raises on a list of records
    is [AssertionError]: it never fails with a missing key or an index out
    of range. *)
Theorem importVotes_raises_assertion_only (raw_votes : list VoteRecord)
    (tile_map : tile_map_t) (e : error) :
  importVotes raw_votes tile_map = Raise e -> e = AssertionError.
Proof.
  unfold importVotes.
  apply (for_in_raise _ _ (fun e => e = AssertionError)).
  intros v st e' _ Hv. exact (importVotes_record_raise v st e' Hv).
Qed.

Lemma importVotes_raises_assertion_only_witness :
  importVotes [mkVoteRecord [1; 2; 3; 4]
                 [mkCountEntry (mkTransform false false 0) 2;
                  mkCountEntry (mkTransform false false 0) 3]] []
  = Raise AssertionError
  /\ AssertionError = AssertionError.
Proof.
  assert (importVotes [mkVoteRecord [1; 2; 3; 4]
                         [mkCountEntry (mkTransform false false 0) 2;
                          mkCountEntry (mkTransform false false 0) 3]] []
          = Raise AssertionError) as Hrun by reflexivity.
  split; [exact Hrun |].
  exact (importVotes_raises_assertion_only _ _ _ Hrun).
Defined.

(** ** What a successful import has checked *)

(** [votes[k][tr]], 0 when absent. *)
Local Abbreviation recorded cv k tr :=
  (dict_get_default (dict_get_default cv k []) tr 0).

Lemma recorded_update (cv : votes_t) (k k' : string) (tr tr' : Transform)
    (x : Z) :
  recorded (dict_setitem cv k (dict_setitem (dict_get_default cv k []) tr x))
           k' tr'
  = if String.eqb k' k && Transform_eqb tr' tr then x else recorded cv k' tr'.
Proof.
  destruct (String.eqb_spec k' k) as [-> | Hk]; cbn [andb].
  - rewrite dict_get_default_setitem.
    destruct (Transform_eqb tr' tr) eqn:Htr.
    + apply (proj1 (key_eqb_eq tr' tr)) in Htr. subst tr'.
      apply dict_get_default_setitem.
    + apply dict_get_default_setitem_other. intros ->.
      pose proof (proj2 (key_eqb_eq tr tr) eq_refl) as Hrefl.
      unfold key_eqb, PyKey_Transform in Hrefl. congruence.
  - rewrite dict_get_default_setitem_other by exact Hk. reflexivity.
Qed.

(** The entries imported so far, [seen], against the dictionary built from
    them: each (signature, transform) pair was met once, its count is the
    one recorded, and nothing else is recorded. *)
Local Abbreviation imported_once seen cv :=
  (NoDup (map fst seen)
   /\ (forall k tr c, In (k, tr, c) seen -> c <> 0 /\ recorded cv k tr = c)
   /\ (forall k tr, ~ In (k, tr) (map fst seen) -> recorded cv k tr = 0)).

Lemma importVotes_entry_once (k : string) (entry : CountEntry)
    (cv cv' : votes_t) (cc cc' : consolidated_votes_t)
    (seen : list (string * Transform * Z)) :
  imported_once seen cv ->
  entry_count entry <> 0 ->
  importVotes_entry k entry (cv, cc) = Ok (cv', cc') ->
  imported_once (seen ++ [(k, entry_transform entry, entry_count entry)]) cv'.
Proof.
  intros (Hnd & Hseen & Hnew) Hc Hrun.
  rewrite importVotes_entry_eq in Hrun. cbv zeta in Hrun.
  destruct (Z.eqb_spec (recorded cv k (entry_transform entry)) 0)
    as [Hzero | Hnz]; [| discriminate Hrun].
  cbn [assert bind] in Hrun. rewrite Hzero in Hrun.
  injection Hrun as <- _. cbn [Z.add].
  assert (~ In (k, entry_transform entry) (map fst seen)) as Hfresh.
  { intros Hin. apply in_map_iff in Hin.
    destruct Hin as ([[k0 tr0] c0] & Heq & Hin). cbn [fst] in Heq.
    injection Heq as -> ->.
    destruct (Hseen _ _ _ Hin) as [Hc0 Hrec]. congruence. }
  split; [| split].
  - rewrite map_app. cbn [map fst]. apply NoDup_app.
    + exact Hnd.
    + constructor; [intros [] | constructor].
    + intros a Ha [<- | []]. exact (Hfresh Ha).
  - intros k1 tr1 c1 Hin. apply in_app_or in Hin.
    rewrite recorded_update.
    destruct Hin as [Hin | [Heq | []]].
    + destruct (Hseen _ _ _ Hin) as [Hc1 Hrec]. split; [exact Hc1 |].
      destruct (String.eqb_spec k1 k) as [-> | Hk]; cbn [andb];
        [| exact Hrec].
      destruct (Transform_eqb tr1 (entry_transform entry)) eqn:Htr;
        [| exact Hrec].
      apply (proj1 (key_eqb_eq tr1 _)) in Htr. subst tr1.
      exfalso. apply Hfresh.
      change (k, entry_transform entry)
        with (fst (k, entry_transform entry, c1)).
      apply in_map. exact Hin.
    + injection Heq as <- <- <-. split; [exact Hc |].
      rewrite String.eqb_refl.
      pose proof (proj2 (key_eqb_eq (entry_transform entry) _) eq_refl)
        as Hrefl.
      unfold key_eqb, PyKey_Transform in Hrefl. rewrite Hrefl. reflexivity.
  - intros k1 tr1 Hnot. rewrite recorded_update.
    rewrite map_app in Hnot. cbn [map fst] in Hnot.
    destruct (String.eqb_spec k1 k) as [-> | Hk]; cbn [andb].
    + destruct (Transform_eqb tr1 (entry_transform entry)) eqn:Htr.
      * apply (proj1 (key_eqb_eq tr1 _)) in Htr. subst tr1.
        exfalso. apply Hnot. apply in_or_app. right. left. reflexivity.
      * apply Hnew. intros Hin. apply Hnot. apply in_or_app. left. exact Hin.
    + apply Hnew. intros Hin. apply Hnot. apply in_or_app. left. exact Hin.
Qed.

Lemma importVotes_entries_once (k : string) (entries : list CountEntry) :
  forall (cv cv' : votes_t) (cc cc' : consolidated_votes_t)
         (seen : list (string * Transform * Z)),
    imported_once seen cv ->
    (forall e, In e entries -> entry_count e <> 0) ->
    for_in entries (importVotes_entry k) (cv, cc) = Ok (cv', cc') ->
    imported_once
      (seen ++ map (fun e => (k, entry_transform e, entry_count e)) entries)
      cv'.
Proof.
  induction entries as [| e entries IH];
    intros cv cv' cc cc' seen Hinv Hnz Hrun.
  - simpl in Hrun. injection Hrun as <- <-. cbn [map].
    rewrite app_nil_r. exact Hinv.
  - cbn [for_in] in Hrun.
    apply bind_Ok_inv in Hrun. destruct Hrun as ([cv1 cc1] & He & Hrun).
    cbn [map].
    change (seen ++ (k, entry_transform e, entry_count e)
                 :: map (fun e0 => (k, entry_transform e0, entry_count e0))
                        entries)
      with (seen ++ [(k, entry_transform e, entry_count e)]
                 ++ map (fun e0 => (k, entry_transform e0, entry_count e0))
                        entries).
    rewrite app_assoc.
    apply (IH cv1 cv' cc1 cc').
    + apply (importVotes_entry_once k e cv cv1 cc cc1 seen Hinv).
      * apply Hnz. left. reflexivity.
      * exact He.
    + intros e0 He0. apply Hnz. right. exact He0.
    + exact Hrun.
Qed.

(** The entries of a dump, each with the signature of its record. *)
Local Abbreviation dump_entries raw_votes :=
  (flat_map (fun v : VoteRecord =>
               map (fun e => (hash_tile (record_tile v),
                              entry_transform e, entry_count e))
                   (record_counts v))
            raw_votes).

Lemma importVotes_records_once (raw_votes : list VoteRecord) :
  forall (cv cv' : votes_t) (cc cc' : consolidated_votes_t)
         (tm tm' : tile_map_t) (seen : list (string * Transform * Z)),
    imported_once seen cv ->
    (forall v e, In v raw_votes -> In e (record_counts v) ->
                 entry_count e <> 0) ->
    for_in raw_votes importVotes_record (cv, cc, tm) = Ok (cv', cc', tm') ->
    imported_once (seen ++ dump_entries raw_votes) cv'.
Proof.
  induction raw_votes as [| v raw_votes IH];
    intros cv cv' cc cc' tm tm' seen Hinv Hnz Hrun.
  - simpl in Hrun. injection Hrun as <- <- <-. cbn [flat_map].
    rewrite app_nil_r. exact Hinv.
  - cbn [for_in] in Hrun.
    apply bind_Ok_inv in Hrun. destruct Hrun as ([[cv1 cc1] tm1] & Hv & Hrun).
    unfold importVotes_record in Hv. cbv zeta in Hv.
    destruct (defaultdict_getitem 0 cc (hash_tile (record_tile v)))
      as [n cc0].
    apply bind_Ok_inv in Hv. destruct Hv as (u & _ & Hv).
    apply bind_Ok_inv in Hv. destruct Hv as ([cv2 cc2] & Hloop & Hv).
    injection Hv as <- <- <-.
    cbn [flat_map]. rewrite app_assoc.
    apply (IH cv2 cv' cc2 cc'
              (dict_setitem tm (hash_tile (record_tile v)) (record_tile v))
              tm').
    + apply (importVotes_entries_once _ _ cv cv2 cc0 cc2 seen Hinv).
      * intros e He. apply (Hnz v e); [left; reflexivity | exact He].
      * exact Hloop.
    + intros v0 e Hv0 He. apply (Hnz v0 e); [right; exact Hv0 | exact He].
    + exact Hrun.
Qed.

(** X21: when [importVotes] accepts a dump none of whose counts is 0, no
    (signature, transform) pair occurs twice in the dump, within a record
    or across records, and every count is stored as it is:
    [check_votes[k][tr]] is the count of the one entry with signature [k]
    and transform [tr]. *)
Theorem importVotes_accepts_no_duplicate (raw_votes : list VoteRecord)
    (tile_map : tile_map_t) (check_votes : votes_t)
    (check_consolidated_votes : consolidated_votes_t)
    (tile_map' : tile_map_t) :
  (forall v e, In v raw_votes -> In e (record_counts v) ->
               entry_count e <> 0) ->
  importVotes raw_votes tile_map
  = Ok (check_votes, check_consolidated_votes, tile_map') ->
  NoDup (map fst (dump_entries raw_votes))
  /\ forall v e, In v raw_votes -> In e (record_counts v) ->
       recorded check_votes (hash_tile (record_tile v)) (entry_transform e)
       = entry_count e.
Proof.
  intros Hnz Hrun. unfold importVotes in Hrun.
  assert (imported_once (@nil (string * Transform * Z)) (@nil (string * dict Transform Z)))
    as Hinit.
  { split; [constructor |]. split; [intros k tr c [] | reflexivity]. }
  destruct (importVotes_records_once raw_votes _ _ _ _ _ _ _ Hinit Hnz Hrun)
    as (Hnd & Hseen & _).
  cbn [app] in Hnd, Hseen.
  split; [exact Hnd |].
  intros v e Hv He.
  apply (Hseen (hash_tile (record_tile v)) (entry_transform e) (entry_count e)).
  apply in_flat_map. exists v. split; [exact Hv |].
  apply in_map_iff. exists e. split; [reflexivity | exact He].
Qed.

Lemma importVotes_accepts_no_duplicate_witness :
  let raw_votes :=
    [mkVoteRecord [1; 2; 3; 4]
       [mkCountEntry (mkTransform false false 0) 2;
        mkCountEntry (mkTransform false false 1) 3];
     mkVoteRecord [4; 3; 2; 1] [mkCountEntry (mkTransform false false 0) 1]] in
  (forall v e, In v raw_votes -> In e (record_counts v) -> entry_count e <> 0)
  /\ importVotes raw_votes []
     = Ok ([("1234"%string, [(mkTransform false false 0, 2);
                             (mkTransform false false 1, 3)]);
            ("4321"%string, [(mkTransform false false 0, 1)])],
           [("1234"%string, 5); ("4321"%string, 1)],
           [("1234"%string, [1; 2; 3; 4]); ("4321"%string, [4; 3; 2; 1])])
  /\ NoDup (map fst (dump_entries raw_votes)).
Proof.
  intros raw_votes.
  assert (forall v e, In v raw_votes -> In e (record_counts v) ->
                      entry_count e <> 0) as Hnz.
  { intros v e [<- | [<- | []]]; cbn [record_counts].
    - intros [<- | [<- | []]]; cbn [entry_count]; lia.
    - intros [<- | []]; cbn [entry_count]; lia. }
  assert (importVotes raw_votes []
          = Ok ([("1234"%string, [(mkTransform false false 0, 2);
                                  (mkTransform false false 1, 3)]);
                 ("4321"%string, [(mkTransform false false 0, 1)])],
                [("1234"%string, 5); ("4321"%string, 1)],
                [("1234"%string, [1; 2; 3; 4]); ("4321"%string, [4; 3; 2; 1])]))
    as Hrun by reflexivity.
  split; [exact Hnz |]. split; [exact Hrun |].
  exact (proj1 (importVotes_accepts_no_duplicate _ _ _ _ _ Hnz Hrun)).
Defined.

(** ** Scoring an imported dump *)

Lemma NoDup_keys_In_dict_get {K V : Type} {E : PyKey K} {L : PyKeyLawful K}
    (d : dict K V) (k : K) (v : V) :
  NoDup (keys d) -> In (k, v) d -> dict_get d k = Some v.
Proof.
  induction d as [| [k0 v0] d IH]; simpl; intros Hnd Hin.
  - destruct Hin.
  - inversion Hnd as [| ? ? Hnot Hnd']; subst.
    destruct Hin as [Heq | Hin].
    + injection Heq as -> ->. rewrite key_eqb_refl. reflexivity.
    + rewrite key_eqb_neq; [exact (IH Hnd' Hin) |].
      intros ->. apply Hnot. unfold keys.
      change k0 with (fst (k0, v)). apply in_map. exact Hin.
Qed.

(** The two vote dictionaries agree: the keys of the second are distinct,
    and for every signature the per-transform counts of the first add up
    to the count of the second. *)
Local Abbreviation counts_agree cv cc :=
  (NoDup (keys cc)
   /\ forall k : string,
        sum_values (dict_get_default cv k []) = dict_get_default cc k 0).

Lemma importVotes_entry_agree (k : string) (entry : CountEntry)
    (cv cv' : votes_t) (cc cc' : consolidated_votes_t) :
  counts_agree cv cc ->
  importVotes_entry k entry (cv, cc) = Ok (cv', cc') ->
  counts_agree cv' cc'
  /\ forall k', In k' (keys cc') -> In k' (keys cc) \/ k' = k.
Proof.
  intros [Hnd Hsum] Hrun.
  rewrite importVotes_entry_eq in Hrun. cbv zeta in Hrun.
  apply bind_Ok_inv in Hrun. destruct Hrun as (u & _ & Hrun).
  injection Hrun as <- <-.
  split; [split |].
  - apply NoDup_keys_setitem. exact Hnd.
  - intros k'. destruct (String.eqb_spec k' k) as [-> | Hk].
    + rewrite !dict_get_default_setitem, sum_values_increment, Hsum.
      reflexivity.
    + rewrite !dict_get_default_setitem_other by exact Hk. apply Hsum.
  - intros k' Hin. apply in_keys_setitem in Hin. exact Hin.
Qed.

Lemma importVotes_entries_agree (k : string) (entries : list CountEntry) :
  forall (cv cv' : votes_t) (cc cc' : consolidated_votes_t),
    counts_agree cv cc ->
    for_in entries (importVotes_entry k) (cv, cc) = Ok (cv', cc') ->
    counts_agree cv' cc'
    /\ forall k', In k' (keys cc') -> In k' (keys cc) \/ k' = k.
Proof.
  induction entries as [| e entries IH]; intros cv cv' cc cc' Hinv Hrun.
  - simpl in Hrun. injection Hrun as <- <-. split; [exact Hinv | auto].
  - cbn [for_in] in Hrun.
    apply bind_Ok_inv in Hrun. destruct Hrun as ([cv1 cc1] & He & Hrun).
    destruct (importVotes_entry_agree k e cv cv1 cc cc1 Hinv He)
      as [Hinv1 Hkeys1].
    destruct (IH cv1 cv' cc1 cc' Hinv1 Hrun) as [Hinv' Hkeys'].
    split; [exact Hinv' |].
    intros k' Hin. destruct (Hkeys' k' Hin) as [Hin1 | ->]; auto.
Qed.

Lemma importVotes_records_agree (raw_votes : list VoteRecord) :
  forall (cv cv' : votes_t) (cc cc' : consolidated_votes_t)
         (tm tm' : tile_map_t),
    counts_agree cv cc ->
    (forall k, In k (keys cc) -> dict_get tm k <> None) ->
    for_in raw_votes importVotes_record (cv, cc, tm) = Ok (cv', cc', tm') ->
    counts_agree cv' cc'
    /\ forall k, In k (keys cc') -> dict_get tm' k <> None.
Proof.
  induction raw_votes as [| v raw_votes IH];
    intros cv cv' cc cc' tm tm' Hinv Htiles Hrun.
  - simpl in Hrun. injection Hrun as <- <- <-. auto.
  - cbn [for_in] in Hrun.
    apply bind_Ok_inv in Hrun. destruct Hrun as ([[cv1 cc1] tm1] & Hv & Hrun).
    unfold importVotes_record in Hv. cbv zeta in Hv.
    rewrite (defaultdict_getitem_eq 0 cc) in Hv.
    apply bind_Ok_inv in Hv. destruct Hv as (u & _ & Hv).
    apply bind_Ok_inv in Hv. destruct Hv as ([cv2 cc2] & Hloop & Hv).
    injection Hv as <- <- <-.
    destruct Hinv as [Hnd Hsum].
    assert (counts_agree cv
              (dict_setitem cc (hash_tile (record_tile v))
                 (dict_get_default cc (hash_tile (record_tile v)) 0)))
      as Hinv0.
    { split; [apply NoDup_keys_setitem; exact Hnd |].
      intros k. rewrite Hsum.
      destruct (String.eqb_spec k (hash_tile (record_tile v))) as [-> | Hk].
      - rewrite dict_get_default_setitem. reflexivity.
      - rewrite dict_get_default_setitem_other by exact Hk. reflexivity. }
    destruct (importVotes_entries_agree _ _ _ _ _ _ Hinv0 Hloop)
      as [Hinv2 Hkeys2].
    apply (IH cv2 cv' cc2 cc'
              (dict_setitem tm (hash_tile (record_tile v)) (record_tile v))
              tm' Hinv2); [| exact Hrun].
    intros k Hin.
    destruct (String.eqb_spec k (hash_tile (record_tile v))) as [-> | Hk].
    + rewrite dict_get_setitem. discriminate.
    + rewrite dict_get_setitem_other by exact Hk. apply Htiles.
      destruct (Hkeys2 k Hin) as [Hin0 | Heq]; [| contradiction].
      apply in_keys_setitem in Hin0.
      destruct Hin0 as [Hin0 | Heq]; [exact Hin0 | contradiction].
Qed.

(** X22: whatever [importVotes] returns can be scored: in the dictionaries
    of a successful import every signature has a tile in [tile_map] and
    per-transform counts that add up to its consolidated count, so
    [findBest2] returns a selection on them, whatever the dump and the
    [tile_map] given. *)
Theorem importVotes_result_can_be_scored (raw_votes : list VoteRecord)
    (tile_map : tile_map_t) (check_votes : votes_t)
    (check_consolidated_votes : consolidated_votes_t)
    (tile_map' : tile_map_t) :
  importVotes raw_votes tile_map
  = Ok (check_votes, check_consolidated_votes, tile_map') ->
  (forall k n, In (k, n) check_consolidated_votes ->
     dict_get tile_map' k <> None
     /\ sum_values (dict_get_default check_votes k []) = n)
  /\ exists sel,
       findBest2 check_votes check_consolidated_votes tile_map' = Ok sel.
Proof.
  intros Hrun. unfold importVotes in Hrun.
  assert (counts_agree (@nil (string * dict Transform Z))
                       (@nil (string * Z))) as Hinit
    by (split; [constructor | reflexivity]).
  destruct (importVotes_records_agree raw_votes _ _ _ _ _ _ Hinit
              (fun k (H : In k []) => match H with end) Hrun)
    as [[Hnd Hsum] Htiles].
  assert (forall k n, In (k, n) check_consolidated_votes ->
            dict_get tile_map' k <> None
            /\ sum_values (dict_get_default check_votes k []) = n) as Hall.
  { intros k n Hin. split.
    - apply Htiles. unfold keys. change k with (fst (k, n)).
      apply in_map. exact Hin.
    - rewrite Hsum. unfold dict_get_default.
      rewrite (NoDup_keys_In_dict_get _ _ _ Hnd Hin). reflexivity. }
  split; [exact Hall |].
  unfold findBest2. apply for_in_total. intros [k n] Hin st.
  destruct (Hall k n Hin) as [Htile Hs].
  destruct (dict_get tile_map' k) as [tile |] eqn:Hget; [| contradiction].
  destruct (findBest2_score_total check_votes tile_map' k n tile Hget Hs)
    as (score & -> & _).
  eexists. reflexivity.
Qed.

Lemma importVotes_result_can_be_scored_witness :
  let raw_votes :=
    [mkVoteRecord [1; 2; 3; 4]
       [mkCountEntry (mkTransform false false 0) 2;
        mkCountEntry (mkTransform false false 1) 3];
     mkVoteRecord [4; 3; 2; 1] []] in
  importVotes raw_votes []
  = Ok ([("1234"%string, [(mkTransform false false 0, 2);
                          (mkTransform false false 1, 3)])],
        [("1234"%string, 5); ("4321"%string, 0)],
        [("1234"%string, [1; 2; 3; 4]); ("4321"%string, [4; 3; 2; 1])])
  /\ exists sel,
       findBest2 [("1234"%string, [(mkTransform false false 0, 2);
                                   (mkTransform false false 1, 3)])]
                 [("1234"%string, 5); ("4321"%string, 0)]
                 [("1234"%string, [1; 2; 3; 4]); ("4321"%string, [4; 3; 2; 1])]
       = Ok sel.
Proof.
  intros raw_votes.
  assert (importVotes raw_votes []
          = Ok ([("1234"%string, [(mkTransform false false 0, 2);
                                  (mkTransform false false 1, 3)])],
                [("1234"%string, 5); ("4321"%string, 0)],
                [("1234"%string, [1; 2; 3; 4]);
                 ("4321"%string, [4; 3; 2; 1])])) as Hrun by reflexivity.
  split; [exact Hrun |].
  exact (proj2 (importVotes_result_can_be_scored _ _ _ _ _ Hrun)).
Defined.

(** ** When nothing is suggested *)

Lemma flat_map_nil_inv {A B : Type} (f : A -> list B) (l : list A) :
  flat_map f l = [] -> forall x, In x l -> f x = [].
Proof.
  induction l as [| y l IH]; simpl; intros Hnil x Hin; [destruct Hin |].
  apply app_eq_nil in Hnil. destruct Hnil as [Hy Hl].
  destruct Hin as [<- | Hin]; [exact Hy | exact (IH Hl x Hin)].
Qed.

Lemma flat_map_nil_in {A B : Type} (f : A -> list B) (l : list A) :
  (forall x, In x l -> f x = []) -> flat_map f l = [].
Proof.
  induction l as [| y l IH]; simpl; intros Hf; [reflexivity |].
  rewrite (Hf y (or_introl eq_refl)), IH; [reflexivity |].
  intros x Hx. apply Hf. right. exact Hx.
Qed.

Lemma negated_product_nil_inv (s0 s1 s2 s3 : list Z) :
  negated_product [s0; s1; s2; s3] = [] -> In [] [s0; s1; s2; s3].
Proof.
  destruct s0 as [| x0 s0]; [simpl; tauto |].
  destruct s1 as [| x1 s1]; [simpl; tauto |].
  destruct s2 as [| x2 s2]; [simpl; tauto |].
  destruct s3 as [| x3 s3]; [simpl; tauto |].
  simpl. intros Hnil. discriminate Hnil.
Qed.

(** X23: on neighbourhoods of four slots the suggestion is computed, and
    it has no best tile exactly when there is no candidate at all, that
    is, when every neighbourhood has an empty slot. *)
Theorem suggestion_none_iff_no_candidate
    (neighborhood_labels : list (list (list Z))) :
  Forall (fun nb => List.length nb = 4%nat) neighborhood_labels ->
  exists best best_score second_best second_best_score,
    suggestion neighborhood_labels
    = Ok (best, best_score, second_best, second_best_score)
    /\ (best = None <-> Forall (fun nb => In [] nb) neighborhood_labels).
Proof.
  intros Hfour.
  destruct (consolidateVotes_total _ Hfour) as ([[votes c] t] & Hrun).
  destruct (consolidateVotes_aligned _ _ _ _ Hrun) as [Hal Hnd].
  destruct (findBest2_aligned _ _ _ Hal Hnd)
    as [_ ([[[best bs] sb] sbs] & Hsel)].
  exists best, bs, sb, sbs.
  split; [unfold suggestion; rewrite Hrun; exact Hsel |].
  destruct (consolidateVotes_inv _ _ _ _ Hrun) as (p & ap & Hp & Hap & Htally).
  rewrite (possibilities_of_four_slots _ Hfour) in Hp. injection Hp as Hp.
  pose proof (consolidateVotes_all_possibilities_length p ap Hap) as Hlen.
  pose proof (consolidateVotes_tally_sum ap _ _ _ _ _ _ Htally) as Hsum.
  split.
  - intros ->.
    rewrite findBest2_as_scan in Hsel.
    pose proof (best_two_loop fst
                  (fun it : string * Z =>
                     findBest2_score votes t (fst it) (snd it))
                  Score_gt findBest2_update
                  Score_gt_refl_false Score_gt_asym Score_gt_above
                  findBest2_update_eq
                  c [] (None, None, None, None) _ eq_refl Hsel) as Hinv.
    cbn [app] in Hinv.
    destruct bs as [s |]; [contradiction |].
    destruct sb as [k2 |]; [contradiction |].
    destruct sbs as [s2 |]; [contradiction |].
    subst c. unfold sum_values in Hsum. cbn [values map fold_right] in Hsum.
    assert (p = []) as Hnil by (destruct p; [reflexivity | simpl in Hlen; lia]).
    rewrite Hnil in Hp.
    apply Forall_forall. intros nb Hin.
    rewrite Forall_forall in Hfour. specialize (Hfour nb Hin).
    destruct nb as [| s0 [| s1 [| s2 [| s3 [| ? ?]]]]]; try discriminate Hfour.
    apply negated_product_nil_inv.
    exact (flat_map_nil_inv (fun nb => negated_product nb) _ Hp _ Hin).
  - intros Hempty.
    assert (p = []) as Hnil.
    { rewrite <- Hp. apply flat_map_nil_in. intros nb Hin.
      rewrite Forall_forall in Hfour, Hempty.
      pose proof (Hfour nb Hin) as Hlen4. pose proof (Hempty nb Hin) as He.
      destruct nb as [| s0 [| s1 [| s2 [| s3 [| ? ?]]]]];
        try discriminate Hlen4.
      exact (negated_product_empty_slot _ _ _ _ He). }
    rewrite Hnil in Hlen. cbn [List.length] in Hlen.
    destruct ap as [| q ap]; [| simpl in Hlen; lia].
    cbn [fold_left] in Htally. injection Htally as <- <- <-.
    cbn in Hsel. injection Hsel as <- _ _ _. reflexivity.
Qed.

Lemma suggestion_none_iff_no_candidate_witness :
  Forall (fun nb : list (list Z) => List.length nb = 4%nat)
         [[[1]; []; [3]; [-1]]; [[]; [2]; [3]; [4]]]
  /\ exists best best_score second_best second_best_score,
       suggestion [[[1]; []; [3]; [-1]]; [[]; [2]; [3]; [4]]]
       = Ok (best, best_score, second_best, second_best_score)
       /\ (best = None
           <-> Forall (fun nb : list (list Z) => In [] nb)
                      [[[1]; []; [3]; [-1]]; [[]; [2]; [3]; [4]]]).
Proof.
  assert (Forall (fun nb : list (list Z) => List.length nb = 4%nat)
                 [[[1]; []; [3]; [-1]]; [[]; [2]; [3]; [4]]]) as Hfour
    by (repeat constructor).
  split; [exact Hfour |].
  exact (suggestion_none_iff_no_candidate _ Hfour).
Defined.

(** ** The tiles that an import leaves *)

Lemma importVotes_records_tile_map (raw_votes : list VoteRecord) :
  forall (cv cv' : votes_t) (cc cc' : consolidated_votes_t)
         (tm tm' : tile_map_t),
    for_in raw_votes importVotes_record (cv, cc, tm) = Ok (cv', cc', tm') ->
    tm' = fold_left (fun (tm : tile_map_t) (v : VoteRecord) =>
                       dict_setitem tm (hash_tile (record_tile v))
                                    (record_tile v))
                    raw_votes tm.
Proof.
  induction raw_votes as [| v raw_votes IH];
    intros cv cv' cc cc' tm tm' Hrun.
  - simpl in Hrun. injection Hrun as _ _ <-. reflexivity.
  - cbn [for_in] in Hrun.
    apply bind_Ok_inv in Hrun. destruct Hrun as ([[cv1 cc1] tm1] & Hv & Hrun).
    unfold importVotes_record in Hv. cbv zeta in Hv.
    destruct (defaultdict_getitem 0 cc (hash_tile (record_tile v)))
      as [n cc0].
    apply bind_Ok_inv in Hv. destruct Hv as (u & _ & Hv).
    apply bind_Ok_inv in Hv. destruct Hv as ([cv2 cc2] & _ & Hv).
    injection Hv as <- <- <-.
    cbn [fold_left]. exact (IH _ _ _ _ _ _ Hrun).
Qed.

Lemma fold_setitem_tiles_other (raw_votes : list VoteRecord) (k : string) :
  (forall v, In v raw_votes -> hash_tile (record_tile v) <> k) ->
  forall tm : tile_map_t,
    dict_get (fold_left (fun (tm : tile_map_t) (v : VoteRecord) =>
                           dict_setitem tm (hash_tile (record_tile v))
                                        (record_tile v))
                        raw_votes tm) k
    = dict_get tm k.
Proof.
  induction raw_votes as [| v raw_votes IH]; intros Hother tm.
  - reflexivity.
  - cbn [fold_left]. rewrite IH.
    + apply dict_get_setitem_other. intros ->.
      exact (Hother v (or_introl eq_refl) eq_refl).
    + intros v0 Hv0. apply Hother. right. exact Hv0.
Qed.

(** X24: a successful [importVotes] changes [tile_map] only at the
    signatures of the records: it leaves every other entry as it was, and
    at the signature of a record it leaves the tile of the last record
    with that signature. *)
Theorem importVotes_tile_map (raw_votes : list VoteRecord)
    (tile_map : tile_map_t) (check_votes : votes_t)
    (check_consolidated_votes : consolidated_votes_t)
    (tile_map' : tile_map_t) :
  importVotes raw_votes tile_map
  = Ok (check_votes, check_consolidated_votes, tile_map') ->
  (forall k, (forall v, In v raw_votes -> hash_tile (record_tile v) <> k) ->
             dict_get tile_map' k = dict_get tile_map k)
  /\ (forall before v after,
        raw_votes = before ++ v :: after ->
        (forall v', In v' after ->
                    hash_tile (record_tile v') <> hash_tile (record_tile v)) ->
        dict_get tile_map' (hash_tile (record_tile v))
        = Some (record_tile v)).
Proof.
  unfold importVotes. intros Hrun.
  rewrite (importVotes_records_tile_map _ _ _ _ _ _ _ Hrun).
  split.
  - intros k Hother. exact (fold_setitem_tiles_other raw_votes k Hother _).
  - intros before v after -> Hafter.
    rewrite fold_left_app. cbn [fold_left].
    rewrite (fold_setitem_tiles_other after _ Hafter).
    apply dict_get_setitem.
Qed.

Lemma importVotes_tile_map_witness :
  let raw_votes :=
    [mkVoteRecord [1; 23; 4; 5] [mkCountEntry (mkTransform false false 0) 0];
     mkVoteRecord [12; 3; 4; 5] [mkCountEntry (mkTransform false false 0) 2]] in
  importVotes raw_votes [("7"%string, [7])]
  = Ok ([("12345"%string, [(mkTransform false false 0, 2)])],
        [("12345"%string, 2)],
        [("7"%string, [7]); ("12345"%string, [12; 3; 4; 5])])
  /\ (forall k,
        (forall v, In v raw_votes -> hash_tile (record_tile v) <> k) ->
        dict_get [("7"%string, [7]); ("12345"%string, [12; 3; 4; 5])] k
        = dict_get [("7"%string, [7])] k).
Proof.
  intros raw_votes.
  assert (importVotes raw_votes [("7"%string, [7])]
          = Ok ([("12345"%string, [(mkTransform false false 0, 2)])],
                [("12345"%string, 2)],
                [("7"%string, [7]); ("12345"%string, [12; 3; 4; 5])]))
    as Hrun by reflexivity.
  split; [exact Hrun |].
  exact (proj1 (importVotes_tile_map _ _ _ _ _ Hrun)).
Defined.

(** ** The order of the signatures *)

Lemma keys_setitem_string {V : Type} (d : dict string V) (k : string) (v : V) :
  keys (dict_setitem d k v)
  = if in_dec string_dec k (keys d) then keys d else keys d ++ [k].
Proof.
  unfold keys. induction d as [| [k0 v0] d IH].
  - reflexivity.
  - cbn [dict_setitem].
    destruct (in_dec string_dec k (map fst ((k0, v0) :: d))) as [Hin | Hout].
    + destruct (string_dec k k0) as [-> | Hk].
      * rewrite key_eqb_refl. reflexivity.
      * rewrite key_eqb_neq by exact Hk. cbn [map fst]. rewrite IH.
        destruct (in_dec string_dec k (map fst d)) as [_ | Hout'];
          [reflexivity |].
        exfalso. destruct Hin as [Heq | Hin]; [| exact (Hout' Hin)].
        apply Hk. symmetry. exact Heq.
    + assert (k <> k0) as Hk
        by (intros ->; apply Hout; left; reflexivity).
      rewrite key_eqb_neq by exact Hk. cbn [map fst app]. rewrite IH.
      destruct (in_dec string_dec k (map fst d)) as [Hin' | _];
        [| reflexivity].
      exfalso. apply Hout. right. exact Hin'.
Qed.

(** The signatures of a list in the order in which they first occur. *)
Local Abbreviation first_occurrences l :=
  (rev (nodup string_dec (rev l))).

Lemma first_occurrences_snoc (l : list string) (x : string) :
  first_occurrences (l ++ [x])
  = if in_dec string_dec x (first_occurrences l)
    then first_occurrences l
    else first_occurrences l ++ [x].
Proof.
  rewrite rev_app_distr. cbn [rev app nodup].
  destruct (in_dec string_dec x (rev l)) as [Hin | Hout];
    destruct (in_dec string_dec x (rev (nodup string_dec (rev l))))
      as [Hin' | Hout'].
  - reflexivity.
  - exfalso. apply Hout'. apply -> in_rev. apply nodup_In. exact Hin.
  - exfalso. apply Hout. apply in_rev in Hin'. apply nodup_In in Hin'.
    exact Hin'.
  - reflexivity.
Qed.

Lemma consolidateVotes_tally_keys (all_possibilities : list (list Z * Transform)) :
  keys (snd (fst (consolidateVotes_tally all_possibilities)))
  = first_occurrences (map (fun q => hash_tile (fst q)) all_possibilities).
Proof.
  unfold consolidateVotes_tally.
  induction all_possibilities as [| [tile tr] rest IH] using rev_ind.
  - reflexivity.
  - rewrite fold_left_app, map_app. cbn [fold_left map fst].
    destruct (fold_left consolidateVotes_vote rest ([], [], []))
      as [[v c] t].
    rewrite consolidateVotes_vote_eq. cbv zeta. cbn [fst snd] in *.
    rewrite keys_setitem_string, first_occurrences_snoc, IH. reflexivity.
Qed.

(** X25: the signatures of the dictionaries that [consolidateVotes] returns
    come in the order in which the (transformed candidate, transform)
    pairs first produce them; this is the iteration order in which
    [findBest2] breaks ties. *)
Theorem consolidateVotes_key_order
    (neighborhood_labels : list (list (list Z)))
    (votes : votes_t) (consolidated_votes : consolidated_votes_t)
    (tile_map : tile_map_t) :
  consolidateVotes neighborhood_labels
  = Ok (votes, consolidated_votes, tile_map) ->
  exists possibilities all_possibilities,
    consolidateVotes_possibilities neighborhood_labels = Ok possibilities
    /\ consolidateVotes_all_possibilities possibilities = Ok all_possibilities
    /\ keys consolidated_votes
       = first_occurrences
           (map (fun q => hash_tile (fst q)) all_possibilities).
Proof.
  intros Hrun.
  destruct (consolidateVotes_inv _ _ _ _ Hrun) as (p & ap & Hp & Hap & Htally).
  exists p, ap. split; [exact Hp |]. split; [exact Hap |].
  rewrite <- consolidateVotes_tally_keys. unfold consolidateVotes_tally.
  rewrite Htally. reflexivity.
Qed.

Lemma consolidateVotes_key_order_witness :
  consolidateVotes [[[0]; [0]; [0]; [0]]]
  = Ok ([("0000"%string, map (fun tr => (tr, 1)) all_transforms)],
        [("0000"%string, 16)], [("0000"%string, [0; 0; 0; 0])])
  /\ exists possibilities all_possibilities,
       consolidateVotes_possibilities [[[0]; [0]; [0]; [0]]] = Ok possibilities
       /\ consolidateVotes_all_possibilities possibilities
          = Ok all_possibilities
       /\ keys [("0000"%string, 16)]
          = first_occurrences
              (map (fun q => hash_tile (fst q)) all_possibilities).
Proof.
  split; [reflexivity |].
  apply (consolidateVotes_key_order [[[0]; [0]; [0]; [0]]]
           [("0000"%string, map (fun tr => (tr, 1)) all_transforms)]
           [("0000"%string, 16)] [("0000"%string, [0; 0; 0; 0])]).
  reflexivity.
Defined.

(** ** The best score does not depend on the order *)

(** When [findBest2] returns, every entry has a score, and a best score
    that is one of them and that none of them beats. *)
Lemma findBest2_best_greatest (votes : votes_t)
    (consolidated_votes : consolidated_votes_t) (tile_map : tile_map_t)
    (sel : selection) :
  findBest2 votes consolidated_votes tile_map = Ok sel ->
  (forall k n, In (k, n) consolidated_votes ->
     exists s, findBest2_score votes tile_map k n = Ok s)
  /\ (consolidated_votes <> [] ->
      exists kb nb sb,
        fst (fst (fst sel)) = Some kb /\ snd (fst (fst sel)) = Some sb
        /\ In (kb, nb) consolidated_votes
        /\ findBest2_score votes tile_map kb nb = Ok sb
        /\ forall k n s, In (k, n) consolidated_votes ->
             findBest2_score votes tile_map k n = Ok s ->
             Score_gt s sb = false).
Proof.
  rewrite findBest2_as_scan. intros Hrun.
  destruct sel as [[[best bs] sb2] sbs2].
  pose proof (best_two_loop fst
                (fun it : string * Z =>
                   findBest2_score votes tile_map (fst it) (snd it))
                Score_gt findBest2_update
                Score_gt_refl_false Score_gt_asym Score_gt_above
                findBest2_update_eq
                consolidated_votes [] (None, None, None, None) _
                eq_refl Hrun) as Hinv.
  cbn [app] in Hinv.
  destruct best as [kb |], bs as [sb |]; try contradiction.
  - destruct Hinv as (pre & [kb' nb] & post & Hc & Hk & Hb & Hpre & Hpost & _).
    cbn [fst snd] in Hk, Hb. subst kb'.
    assert (forall k n, In (k, n) consolidated_votes ->
              exists s, findBest2_score votes tile_map k n = Ok s
                        /\ Score_gt s sb = false) as Hall.
    { intros k n Hin. rewrite Hc in Hin. apply in_app_or in Hin.
      destruct Hin as [Hin | [Heq | Hin]].
      - destruct (Hpre _ Hin) as (s & Hs & Hgt). exists s.
        split; [exact Hs | exact (Score_gt_asym _ _ Hgt)].
      - injection Heq as <- <-. exists sb.
        split; [exact Hb | apply Score_gt_refl_false].
      - exact (Hpost _ Hin). }
    split.
    + intros k n Hin. destruct (Hall k n Hin) as (s & Hs & _). eauto.
    + intros _. exists kb, nb, sb. cbn [fst snd].
      repeat (split; [reflexivity |]).
      split; [rewrite Hc; apply in_or_app; right; left; reflexivity |].
      split; [exact Hb |].
      intros k n s Hin Hs. destruct (Hall k n Hin) as (s' & Hs' & Hgt).
      rewrite Hs in Hs'. injection Hs' as <-. exact Hgt.
  - destruct sb2 as [k2 |]; [contradiction |].
    destruct sbs2 as [s2 |]; [contradiction |].
    subst consolidated_votes.
    split; [intros k n [] | intros Hne; contradiction Hne; reflexivity].
Qed.

(** X26: the best score of [findBest2] does not depend on the order of the
    signatures: if [findBest2] returns on [consolidated_votes], it returns
    on every reordering of it, with the same best score; the order only
    decides which of the signatures with that score is returned. *)
Theorem findBest2_best_score_any_order (votes : votes_t)
    (consolidated_votes reordered : consolidated_votes_t)
    (tile_map : tile_map_t) (sel : selection) :
  Permutation consolidated_votes reordered ->
  findBest2 votes consolidated_votes tile_map = Ok sel ->
  exists sel',
    findBest2 votes reordered tile_map = Ok sel'
    /\ snd (fst (fst sel')) = snd (fst (fst sel)).
Proof.
  intros Hperm Hrun.
  destruct (findBest2_best_greatest _ _ _ _ Hrun) as [Hscores Hbest].
  assert (exists sel', findBest2 votes reordered tile_map = Ok sel')
    as [sel' Hrun'].
  { unfold findBest2. apply for_in_total. intros [k n] Hin st.
    destruct (Hscores k n) as (s & ->).
    - apply (Permutation_in _ (Permutation_sym Hperm)). exact Hin.
    - eexists. reflexivity. }
  exists sel'. split; [exact Hrun' |].
  destruct (findBest2_best_greatest _ _ _ _ Hrun') as [_ Hbest'].
  destruct consolidated_votes as [| item c].
  - apply Permutation_nil in Hperm. subst reordered.
    cbn in Hrun, Hrun'. injection Hrun as <-. injection Hrun' as <-.
    reflexivity.
  - assert (reordered <> []) as Hne'.
    { intros ->. apply Permutation_sym, Permutation_nil in Hperm.
      discriminate Hperm. }
    destruct (Hbest ltac:(discriminate))
      as (kb & nb & sb & _ & Hsb & Hin & Hscore & Hmax).
    destruct (Hbest' Hne')
      as (kb' & nb' & sb' & _ & Hsb' & Hin' & Hscore' & Hmax').
    rewrite Hsb, Hsb'. f_equal.
    assert (Score_gt sb' sb = false) as H1.
    { apply (Hmax kb' nb' sb'); [| exact Hscore'].
      apply (Permutation_in _ (Permutation_sym Hperm)). exact Hin'. }
    assert (Score_gt sb sb' = false) as H2.
    { apply (Hmax' kb nb sb); [| exact Hscore].
      apply (Permutation_in _ Hperm). exact Hin. }
    apply Score_gt_false_lex in H1. apply Score_gt_false_lex in H2.
    destruct sb as [t1 u1 f1], sb' as [t2 u2 f2].
    cbn [total_votes untransformed_votes flipped_edges] in H1, H2.
    f_equal; lia.
Qed.

Lemma findBest2_best_score_any_order_witness :
  let votes : votes_t :=
    [("-1234"%string, [(mkTransform false false 0, 5)]);
     ("-1-234"%string, [(mkTransform false false 1, 5)])] in
  let tile_map : tile_map_t :=
    [("-1234"%string, [-1; 2; 3; 4]); ("-1-234"%string, [-1; -2; 3; 4])] in
  Permutation [("-1234"%string, 5); ("-1-234"%string, 5)]
              [("-1-234"%string, 5); ("-1234"%string, 5)]
  /\ findBest2 votes [("-1234"%string, 5); ("-1-234"%string, 5)] tile_map
     = Ok (Some "-1234"%string, Some (mkScore 5 5 1),
           Some "-1-234"%string, Some (mkScore 5 0 2))
  /\ exists sel',
       findBest2 votes [("-1-234"%string, 5); ("-1234"%string, 5)] tile_map
       = Ok sel'
       /\ snd (fst (fst sel')) = Some (mkScore 5 5 1).
Proof.
  intros votes tile_map.
  assert (Permutation [("-1234"%string, 5); ("-1-234"%string, 5)]
                      [("-1-234"%string, 5); ("-1234"%string, 5)]) as Hperm
    by apply perm_swap.
  assert (findBest2 votes [("-1234"%string, 5); ("-1-234"%string, 5)] tile_map
          = Ok (Some "-1234"%string, Some (mkScore 5 5 1),
                Some "-1-234"%string, Some (mkScore 5 0 2))) as Hrun
    by reflexivity.
  split; [exact Hperm |]. split; [exact Hrun |].
  exact (findBest2_best_score_any_order _ _ _ _ _ Hperm Hrun).
Defined.

(** * Export and re-import *)

(** ** The counts of a consolidation are positive *)

Lemma Forall_values_setitem {K V : Type} {E : PyKey K} (P : V -> Prop)
    (d : dict K V) (k : K) (v : V) :
  Forall (fun p : K * V => P (snd p)) d -> P v ->
  Forall (fun p : K * V => P (snd p)) (dict_setitem d k v).
Proof.
  intros Hd Hv. induction d as [| [k0 v0] d IH]; cbn [dict_setitem].
  - constructor; [exact Hv | constructor].
  - inversion Hd as [| ? ? H0 Hd']; subst.
    destruct (key_eqb k k0).
    + constructor; [exact Hv | exact Hd'].
    + constructor; [exact H0 | apply IH; exact Hd'].
Qed.

Lemma Forall_values_get_default {K V : Type} {E : PyKey K} (P : V -> Prop)
    (d : dict K V) (k : K) (default : V) :
  Forall (fun p : K * V => P (snd p)) d -> P default ->
  P (dict_get_default d k default).
Proof.
  intros Hd Hdef. unfold dict_get_default.
  induction d as [| [k0 v0] d IH]; cbn [dict_get].
  - exact Hdef.
  - inversion Hd as [| ? ? H0 Hd']; subst.
    destruct (key_eqb k k0); [exact H0 | apply IH; exact Hd'].
Qed.

(** Every count that the tally holds is at least 1. *)
Local Abbreviation positive_counts votes :=
  (Forall (fun item : string * dict Transform Z =>
             Forall (fun p : Transform * Z => 0 < snd p) (snd item))
          votes).

Lemma consolidateVotes_tally_positive
    (all_possibilities : list (list Z * Transform)) :
  forall votes consolidated_votes tile_map votes' consolidated_votes' tile_map',
    positive_counts votes ->
    fold_left consolidateVotes_vote all_possibilities
              (votes, consolidated_votes, tile_map)
    = (votes', consolidated_votes', tile_map') ->
    positive_counts votes'.
Proof.
  induction all_possibilities as [| [tile tr] rest IH];
    intros v c t v' c' t' Hpos Hrun; cbn [fold_left] in Hrun.
  - injection Hrun as <- <- <-. exact Hpos.
  - rewrite consolidateVotes_vote_eq in Hrun. cbv zeta in Hrun.
    apply (IH _ _ _ _ _ _) in Hrun; [exact Hrun |].
    assert (Forall (fun p : Transform * Z => 0 < snd p)
                   (dict_get_default v (hash_tile tile) [])) as Hinner.
    { apply (Forall_values_get_default
               (fun inner : dict Transform Z =>
                  Forall (fun p : Transform * Z => 0 < snd p) inner));
        [exact Hpos | constructor]. }
    apply (Forall_values_setitem
             (fun inner : dict Transform Z =>
                Forall (fun p : Transform * Z => 0 < snd p) inner));
      [exact Hpos |].
    apply (Forall_values_setitem (fun n : Z => 0 < n)); [exact Hinner |].
    assert (0 <= dict_get_default (dict_get_default v (hash_tile tile) [])
                                  tr 0) as Hold.
    { apply (Forall_values_get_default (fun n : Z => 0 <= n)); [| lia].
      apply (Forall_impl _ (fun (p : Transform * Z) (H : 0 < snd p) =>
                              Z.lt_le_incl _ _ H) Hinner). }
    lia.
Qed.

Lemma consolidateVotes_positive (neighborhood_labels : list (list (list Z)))
    (votes : votes_t) (consolidated_votes : consolidated_votes_t)
    (tile_map : tile_map_t) :
  consolidateVotes neighborhood_labels
  = Ok (votes, consolidated_votes, tile_map) ->
  positive_counts votes.
Proof.
  intros Hrun.
  destruct (consolidateVotes_inv _ _ _ _ Hrun) as (p & ap & _ & _ & Htally).
  apply (consolidateVotes_tally_positive ap _ _ _ _ _ _ (Forall_nil _) Htally).
Qed.

(** ** A record against the entry it exports *)

Lemma sum_values_permutation {K : Type} (d d' : dict K Z) :
  Permutation d d' -> sum_values d = sum_values d'.
Proof.
  unfold sum_values, values.
  induction 1 as [| x l l' _ IH | x y l | l l' l'' _ IH1 _ IH2];
    cbn [map fold_right]; lia.
Qed.

(** The order of the per-transform counts does not matter to a score. *)
Lemma findBest2_subcount_swap (count : Z) (score : Score)
    (a b : Transform * Z) :
  findBest2_subcount count (findBest2_subcount count score a) b
  = findBest2_subcount count (findBest2_subcount count score b) a.
Proof.
  destruct a as [ta ca], b as [tb cb]. unfold findBest2_subcount.
  destruct (isIdentity ta), (isIdentity tb);
    cbn [total_votes untransformed_votes flipped_edges]; f_equal; lia.
Qed.

Lemma findBest2_subcount_permutation (count : Z)
    (inner inner' : dict Transform Z) :
  Permutation inner inner' ->
  forall score,
    fold_left (findBest2_subcount count) inner score
    = fold_left (findBest2_subcount count) inner' score.
Proof.
  induction 1 as [| x l l' _ IH | x y l | l l' l'' _ IH1 _ IH2];
    intros score; cbn [fold_left].
  - reflexivity.
  - apply IH.
  - rewrite findBest2_subcount_swap. reflexivity.
  - rewrite IH1. apply IH2.
Qed.

(** Two dictionaries without a zero that give every key the same count hold
    the same entries. *)
Lemma same_counts_permutation {K : Type} {E : PyKey K} {L : PyKeyLawful K}
    (p q : dict K Z) :
  NoDup (keys p) -> NoDup (keys q) ->
  (forall k c, In (k, c) p -> c <> 0) ->
  (forall k c, In (k, c) q -> c <> 0) ->
  (forall k, dict_get_default p k 0 = dict_get_default q k 0) ->
  Permutation p q.
Proof.
  intros Hp Hq Hzp Hzq Hsame.
  assert (forall (a b : dict K Z),
            NoDup (keys a) -> (forall k c, In (k, c) a -> c <> 0) ->
            (forall k, dict_get_default a k 0 = dict_get_default b k 0) ->
            forall k c, In (k, c) a -> In (k, c) b) as Hincl.
  { intros a b Ha Hza Hab k c Hin.
    pose proof (NoDup_keys_In_dict_get a k c Ha Hin) as Hget.
    specialize (Hab k). unfold dict_get_default in Hab. rewrite Hget in Hab.
    destruct (dict_get b k) as [c' |] eqn:Hb.
    - subst c'. apply dict_get_In. exact Hb.
    - exfalso. exact (Hza k c Hin Hab). }
  apply NoDup_Permutation.
  - apply (NoDup_map_inv fst). exact Hp.
  - apply (NoDup_map_inv fst). exact Hq.
  - intros [k c]. split.
    + apply Hincl; assumption.
    + apply Hincl; try assumption. intros k'. symmetry. apply Hsame.
Qed.

(** A record is its tile with the entries of its pairs. *)
Lemma record_eta (v : VoteRecord) :
  mkVoteRecord (record_tile v) (entries_of (record_pairs v)) = v.
Proof.
  destruct v as [tile counts]. unfold record_pairs.
  cbn [record_tile record_counts]. f_equal.
  rewrite map_map. rewrite <- (map_id counts) at 2.
  apply map_ext. intros [tr c]. reflexivity.
Qed.

Lemma record_pairs_entries (tile : list Z) (inner : dict Transform Z) :
  record_pairs (mkVoteRecord tile (entries_of inner)) = inner.
Proof.
  unfold record_pairs. cbn [record_counts].
  rewrite map_map. rewrite <- (map_id inner) at 2.
  apply map_ext. intros [tr c]. reflexivity.
Qed.

(** ** Importing records of distinct signatures *)

(** What the import makes of the records, and the tiles it assigns. *)
Local Abbreviation imported_votes raw_votes :=
  (map (fun v : VoteRecord => (record_signature v, record_pairs v))
       raw_votes).
Local Abbreviation imported_counts raw_votes :=
  (map (fun v : VoteRecord =>
          (record_signature v, sum_values (record_pairs v))) raw_votes).
Local Abbreviation assigned_tiles raw_votes tile_map0 :=
  (fold_left (fun (tm : tile_map_t) (v : VoteRecord) =>
                dict_setitem tm (hash_tile (record_tile v)) (record_tile v))
             raw_votes tile_map0).

Lemma importVotes_fresh_records (raw_votes : list VoteRecord) :
  forall (v1 : votes_t) (c1 : consolidated_votes_t) (tile_map0 : tile_map_t),
    NoDup (keys v1 ++ map record_signature raw_votes) ->
    keys c1 = keys v1 ->
    (forall v, In v raw_votes ->
       record_pairs v <> [] /\ NoDup (keys (record_pairs v))) ->
    for_in raw_votes importVotes_record (v1, c1, tile_map0)
    = Ok (v1 ++ imported_votes raw_votes,
          c1 ++ imported_counts raw_votes,
          assigned_tiles raw_votes tile_map0).
Proof.
  induction raw_votes as [| v raw IH]; intros v1 c1 tm0 Hnd Hkeys Hrec.
  - simpl. rewrite !app_nil_r. reflexivity.
  - cbn [for_in map fold_left].
    destruct (Hrec v (or_introl eq_refl)) as [Hne Hndp].
    assert (~ In (record_signature v) (keys v1)) as Hv.
    { cbn [map] in Hnd. apply NoDup_remove_2 in Hnd. intros Hin.
      apply Hnd. apply in_or_app. left. exact Hin. }
    assert (~ In (record_signature v) (keys c1)) as Hc
      by (rewrite Hkeys; exact Hv).
    pose proof (importVotes_record_new (record_tile v) (record_pairs v)
                  v1 c1 tm0 Hv Hc Hne Hndp) as Hstep.
    rewrite record_eta in Hstep. rewrite Hstep. cbn [bind].
    rewrite IH.
    + rewrite <- !app_assoc. reflexivity.
    + unfold keys in *. rewrite map_app, <- app_assoc. exact Hnd.
    + unfold keys in *. rewrite !map_app, Hkeys. reflexivity.
    + intros v' Hin. apply Hrec. right. exact Hin.
Qed.

Lemma assigned_tiles_in (raw_votes : list VoteRecord) :
  NoDup (map record_signature raw_votes) ->
  forall (v : VoteRecord) (tile_map0 : tile_map_t),
    In v raw_votes ->
    dict_get (assigned_tiles raw_votes tile_map0) (record_signature v)
    = Some (record_tile v).
Proof.
  induction raw_votes as [| v0 raw IH]; intros Hnd v tm0 Hin.
  - destruct Hin.
  - cbn [map] in Hnd. inversion Hnd as [| ? ? Hnot Hnd']; subst.
    cbn [fold_left]. destruct Hin as [-> | Hin].
    + rewrite fold_setitem_tiles_other.
      * apply dict_get_setitem.
      * intros v' Hin' Heq. apply Hnot. rewrite <- Heq.
        exact (in_map record_signature raw v' Hin').
    + apply IH; assumption.
Qed.

(** ** The export in the map's order *)

(** The records that list every signature of the map in its order, each
    with its entries as the map holds them. *)
Local Abbreviation records_in_order votes tile_map :=
  (map (fun item : string * dict Transform Z =>
          mkVoteRecord (dict_get_default tile_map (fst item) [])
                       (entries_of (snd item))) votes).

Lemma records_in_order_exported (votes : votes_t)
    (consolidated_votes : consolidated_votes_t) (tile_map : tile_map_t) :
  aligned votes consolidated_votes tile_map ->
  NoDup (keys votes) ->
  positive_counts votes ->
  exported votes tile_map (records_in_order votes tile_map)
  /\ in_map_order votes (records_in_order votes tile_map)
  /\ no_zero_count (records_in_order votes tile_map).
Proof.
  intros Hal Hnd Hpos.
  destruct (aligned_entries _ _ _ Hal Hnd) as [Hall _].
  rewrite Forall_forall in Hall, Hpos.
  assert (forall item : string * dict Transform Z, In item votes ->
            dict_get tile_map (fst item)
            = Some (dict_get_default tile_map (fst item) [])
            /\ hash_tile (dict_get_default tile_map (fst item) [])
               = fst item) as Htile.
  { intros item Hin. destruct (Hall _ Hin) as (_ & _ & tile & Ht & Hh).
    unfold dict_get_default. rewrite Ht. split; [reflexivity | exact Hh]. }
  assert (map record_signature (records_in_order votes tile_map)
          = keys votes) as Hsigs.
  { rewrite map_map. apply map_ext_in. intros item Hin.
    unfold record_signature. cbn [record_tile].
    apply (Htile item Hin). }
  split; [split |]; [| | split].
  - rewrite Hsigs. apply Permutation_refl.
  - intros v Hin. apply in_map_iff in Hin.
    destruct Hin as ([k inner] & <- & Hin).
    destruct (Hall _ Hin) as (_ & Hndi & _).
    destruct (Htile _ Hin) as [Ht Hh]. cbn [fst snd] in *.
    unfold record_signature. cbn [record_tile].
    rewrite record_pairs_entries, Hh.
    split; [exact Ht |]. split; [exact Hndi |].
    intros tr.
    replace (dict_get_default votes k []) with inner; [reflexivity |].
    unfold dict_get_default.
    rewrite (NoDup_keys_In_dict_get votes k inner Hnd Hin). reflexivity.
  - exact Hsigs.
  - intros v e Hin He. apply in_map_iff in Hin.
    destruct Hin as ([k inner] & <- & Hin). cbn [record_counts snd] in He.
    apply in_map_iff in He. destruct He as ([tr c] & <- & Hc).
    cbn [entry_count fst snd].
    pose proof (Hpos _ Hin) as Hinner. cbn [snd] in Hinner.
    rewrite Forall_forall in Hinner. specialize (Hinner _ Hc).
    cbn [snd] in Hinner. lia.
Qed.

(** ** Importing an export in the map's order *)

(** In an export without a zero count every record holds the entries of
    its signature, in some order. *)
Lemma exported_record_entries (votes : votes_t)
    (consolidated_votes : consolidated_votes_t) (tile_map : tile_map_t)
    (raw_votes : list VoteRecord) :
  aligned votes consolidated_votes tile_map ->
  NoDup (keys votes) ->
  positive_counts votes ->
  exported votes tile_map raw_votes ->
  no_zero_count raw_votes ->
  forall v, In v raw_votes ->
    Permutation (record_pairs v)
                (dict_get_default votes (record_signature v) [])
    /\ record_pairs v <> [].
Proof.
  intros Hal Hnd Hpos [Hperm Hrec] Hnz v Hin.
  destruct (aligned_entries _ _ _ Hal Hnd) as [Hall _].
  rewrite Forall_forall in Hall, Hpos.
  destruct (Hrec v Hin) as (_ & Hndp & Hcnt).
  assert (In (record_signature v) (keys votes)) as Hk.
  { apply (Permutation_in _ Hperm). apply in_map. exact Hin. }
  unfold keys in Hk. apply in_map_iff in Hk.
  destruct Hk as ([k inner] & Hfst & Hitem). cbn [fst] in Hfst. subst k.
  assert (dict_get_default votes (record_signature v) [] = inner) as Hlive.
  { unfold dict_get_default.
    rewrite (NoDup_keys_In_dict_get votes _ inner Hnd Hitem). reflexivity. }
  rewrite Hlive in *.
  destruct (Hall _ Hitem) as (Hne & Hndi & _). cbn [snd] in Hne, Hndi.
  assert (Permutation (record_pairs v) inner) as Hp.
  { apply same_counts_permutation.
    - exact Hndp.
    - exact Hndi.
    - intros tr c Hc. unfold record_pairs in Hc. apply in_map_iff in Hc.
      destruct Hc as (e & Heq & He). injection Heq as <- <-.
      exact (Hnz v e Hin He).
    - intros tr c Hc. pose proof (Hpos _ Hitem) as Hinner.
      cbn [snd] in Hinner. rewrite Forall_forall in Hinner.
      specialize (Hinner _ Hc). cbn [snd] in Hinner. lia.
    - exact Hcnt. }
  split; [exact Hp |].
  intros Hnil. rewrite Hnil in Hp. apply Permutation_nil in Hp.
  exact (Hne Hp).
Qed.

Lemma import_of_ordered_export (votes : votes_t)
    (consolidated_votes : consolidated_votes_t)
    (tile_map tile_map0 : tile_map_t) (raw_votes : list VoteRecord) :
  aligned votes consolidated_votes tile_map ->
  NoDup (keys votes) ->
  positive_counts votes ->
  exported votes tile_map raw_votes ->
  in_map_order votes raw_votes ->
  no_zero_count raw_votes ->
  exists check_votes check_consolidated_votes tile_map' sel,
    importVotes raw_votes tile_map0
    = Ok (check_votes, check_consolidated_votes, tile_map')
    /\ findBest2 votes consolidated_votes tile_map = Ok sel
    /\ findBest2 check_votes check_consolidated_votes tile_map' = Ok sel.
Proof.
  intros Hal Hnd Hpos Hexp Hord Hnz.
  pose proof (exported_record_entries _ _ _ _ Hal Hnd Hpos Hexp Hnz)
    as Hentries.
  destruct Hexp as [_ Hrec]. unfold in_map_order in Hord.
  destruct (aligned_entries _ _ _ Hal Hnd) as [_ Hc].
  destruct (aligned_keys _ _ _ Hal) as [Hkc _].
  assert (NoDup (map record_signature raw_votes)) as Hsig
    by (rewrite Hord; exact Hnd).
  assert (importVotes raw_votes tile_map0
          = Ok (imported_votes raw_votes, imported_counts raw_votes,
                assigned_tiles raw_votes tile_map0)) as Himp.
  { unfold importVotes.
    apply (importVotes_fresh_records raw_votes [] [] tile_map0).
    - exact Hsig.
    - reflexivity.
    - intros v Hin. split; [apply (Hentries v Hin) | apply (Hrec v Hin)]. }
  assert (imported_counts raw_votes = consolidated_votes) as Hcv.
  { rewrite Hc.
    transitivity
      (map (fun k : string =>
              (k, sum_values (dict_get_default votes k [])))
           (map record_signature raw_votes)).
    - rewrite map_map. apply map_ext_in. intros v Hin. f_equal.
      apply sum_values_permutation. apply (Hentries v Hin).
    - rewrite Hord. unfold keys. rewrite map_map. apply map_ext_in.
      intros [k inner] Hin. cbn [fst snd]. f_equal. f_equal.
      unfold dict_get_default.
      rewrite (NoDup_keys_In_dict_get votes k inner Hnd Hin). reflexivity. }
  rewrite Hcv in Himp.
  destruct (findBest2_aligned _ _ _ Hal Hnd) as [_ (sel & Hsel)].
  exists (imported_votes raw_votes), consolidated_votes,
         (assigned_tiles raw_votes tile_map0), sel.
  split; [exact Himp |]. split; [exact Hsel |].
  rewrite <- Hsel. unfold findBest2. apply for_in_ext.
  intros [k n] st Hin.
  assert (In k (map record_signature raw_votes)) as Hk.
  { rewrite Hord, <- Hkc. unfold keys.
    exact (in_map fst consolidated_votes (k, n) Hin). }
  apply in_map_iff in Hk. destruct Hk as (v & <- & Hv).
  assert (findBest2_score (imported_votes raw_votes)
                          (assigned_tiles raw_votes tile_map0)
                          (record_signature v) n
          = findBest2_score votes tile_map (record_signature v) n) as Hscore.
  { unfold findBest2_score, dict_getitem.
    rewrite (assigned_tiles_in raw_votes Hsig v tile_map0 Hv).
    rewrite (proj1 (Hrec v Hv)). cbn [bind].
    rewrite !defaultdict_getitem_fst.
    assert (@dict_get_default string (list (Transform * Z)) _
              (imported_votes raw_votes) (record_signature v) []
            = record_pairs v) as Hchecked.
    { unfold dict_get_default.
      rewrite (NoDup_keys_In_dict_get (imported_votes raw_votes)
                 (record_signature v) (record_pairs v)).
      - reflexivity.
      - unfold keys. rewrite map_map. exact Hsig.
      - exact (in_map (fun v0 : VoteRecord =>
                         (record_signature v0, record_pairs v0))
                      raw_votes v Hv). }
    rewrite Hchecked.
    rewrite (findBest2_subcount_permutation n (record_pairs v)
               (@dict_get_default string (list (Transform * Z)) _
                  votes (record_signature v) [])
               (proj1 (Hentries v Hv))).
    reflexivity. }
  rewrite Hscore. reflexivity.
Qed.

(** ** The round trip *)

(** The consolidation of the one neighbourhood [[0], [1], [0], [1]]: four
    signatures with four votes each. *)
Local Abbreviation counted_once trs :=
  (map (fun tr : Transform => (tr, 1)) trs).
Local Abbreviation listed_once tile trs :=
  (mkVoteRecord tile (map (fun tr : Transform => mkCountEntry tr 1) trs)).
Local Abbreviation checkerboard_votes :=
  [("0-10-1"%string,
    counted_once [mkTransform false false 0; mkTransform false false 2;
                  mkTransform false true 0; mkTransform false true 2]);
   ("-10-10"%string,
    counted_once [mkTransform false false 1; mkTransform false false 3;
                  mkTransform false true 1; mkTransform false true 3]);
   ("0101"%string,
    counted_once [mkTransform true false 0; mkTransform true false 2;
                  mkTransform true true 0; mkTransform true true 2]);
   ("1010"%string,
    counted_once [mkTransform true false 1; mkTransform true false 3;
                  mkTransform true true 1; mkTransform true true 3])].
Local Abbreviation checkerboard_counts :=
  [("0-10-1"%string, 4); ("-10-10"%string, 4); ("0101"%string, 4);
   ("1010"%string, 4)].
Local Abbreviation checkerboard_tiles :=
  [("0-10-1"%string, [0; -1; 0; -1]); ("-10-10"%string, [-1; 0; -1; 0]);
   ("0101"%string, [0; 1; 0; 1]); ("1010"%string, [1; 0; 1; 0])].

(** The records of that consolidation, last signature first. *)
Local Abbreviation checkerboard_records_reversed :=
  [listed_once [1; 0; 1; 0]
     [mkTransform true false 1; mkTransform true false 3;
      mkTransform true true 1; mkTransform true true 3];
   listed_once [0; 1; 0; 1]
     [mkTransform true false 0; mkTransform true false 2;
      mkTransform true true 0; mkTransform true true 2];
   listed_once [-1; 0; -1; 0]
     [mkTransform false false 1; mkTransform false false 3;
      mkTransform false true 1; mkTransform false true 3];
   listed_once [0; -1; 0; -1]
     [mkTransform false false 0; mkTransform false false 2;
      mkTransform false true 0; mkTransform false true 2]].

(** The claim C1 as it is stated fails: the records above are an export of
    the consolidation of [[0], [1], [0], [1]], without a zero count, and
    on their import [findBest2] selects "1010" and then "0101", where on
    the live consolidation it selects "0101" and then "1010".  The two
    signatures have the same score, and each selection keeps the one that
    its dictionary lists first. *)
Lemma export_import_order_matters :
  consolidateVotes [[[0]; [1]; [0]; [1]]]
  = Ok (checkerboard_votes, checkerboard_counts, checkerboard_tiles)
  /\ exported checkerboard_votes checkerboard_tiles
              checkerboard_records_reversed
  /\ no_zero_count checkerboard_records_reversed
  /\ findBest2 checkerboard_votes checkerboard_counts checkerboard_tiles
     = Ok (Some "0101"%string, Some (mkScore 4 0 0),
           Some "1010"%string, Some (mkScore 4 0 0))
  /\ exists check_votes check_consolidated_votes tile_map',
       importVotes checkerboard_records_reversed checkerboard_tiles
       = Ok (check_votes, check_consolidated_votes, tile_map')
       /\ findBest2 check_votes check_consolidated_votes tile_map'
          = Ok (Some "1010"%string, Some (mkScore 4 0 0),
                Some "0101"%string, Some (mkScore 4 0 0)).
Proof.
  split; [reflexivity |]. split; [| split; [| split; [reflexivity |]]].
  - split.
    + exact (Permutation_sym
               (Permutation_rev ["0-10-1"; "-10-10"; "0101"; "1010"]%string)).
    + intros v Hin.
      repeat (destruct Hin as [<- | Hin]; [| try contradiction]);
        (split; [reflexivity |]);
        (split; [| intros tr; reflexivity]);
        repeat constructor; cbn [In fst map]; intuition discriminate.
  - intros v e Hin He.
    repeat (destruct Hin as [<- | Hin]; [| try contradiction]);
      repeat (destruct He as [<- | He]; [| try contradiction]);
      discriminate.
  - do 3 eexists. split; reflexivity.
Qed.

(** C1, as the code has it: the consolidated vote map that
    [consolidateVotes] returns has an export that lists its signatures in
    the map's order and no count 0; and every such export, in whatever
    order each record lists its pairs, imported with [importVotes] (which
    is given some [tile_map0] to fill: the live [tile_map], as [main]
    does, or any other), gives dictionaries on which [findBest2] returns
    the selection that it returns on the live consolidation. *)
Theorem export_import_same_selection
    (neighborhood_labels : list (list (list Z)))
    (votes : votes_t) (consolidated_votes : consolidated_votes_t)
    (tile_map tile_map0 : tile_map_t) :
  consolidateVotes neighborhood_labels
  = Ok (votes, consolidated_votes, tile_map) ->
  (exists raw_votes,
     exported votes tile_map raw_votes
     /\ in_map_order votes raw_votes
     /\ no_zero_count raw_votes)
  /\ forall raw_votes,
       exported votes tile_map raw_votes ->
       in_map_order votes raw_votes ->
       no_zero_count raw_votes ->
       exists check_votes check_consolidated_votes tile_map' sel,
         importVotes raw_votes tile_map0
         = Ok (check_votes, check_consolidated_votes, tile_map')
         /\ findBest2 votes consolidated_votes tile_map = Ok sel
         /\ findBest2 check_votes check_consolidated_votes tile_map' = Ok sel.
Proof.
  intros Hrun.
  destruct (consolidateVotes_aligned _ _ _ _ Hrun) as [Hal Hnd].
  pose proof (consolidateVotes_positive _ _ _ _ Hrun) as Hpos.
  split.
  - exists (records_in_order votes tile_map).
    exact (records_in_order_exported _ _ _ Hal Hnd Hpos).
  - intros raw_votes Hexp Hord Hnz.
    exact (import_of_ordered_export _ _ _ tile_map0 _
             Hal Hnd Hpos Hexp Hord Hnz).
Qed.

Lemma export_import_same_selection_witness :
  consolidateVotes [[[0]; [1]; [0]; [1]]]
  = Ok (checkerboard_votes, checkerboard_counts, checkerboard_tiles)
  /\ (exists raw_votes,
        exported checkerboard_votes checkerboard_tiles raw_votes
        /\ in_map_order checkerboard_votes raw_votes
        /\ no_zero_count raw_votes)
  /\ forall raw_votes,
       exported checkerboard_votes checkerboard_tiles raw_votes ->
       in_map_order checkerboard_votes raw_votes ->
       no_zero_count raw_votes ->
       exists check_votes check_consolidated_votes tile_map' sel,
         importVotes raw_votes checkerboard_tiles
         = Ok (check_votes, check_consolidated_votes, tile_map')
         /\ findBest2 checkerboard_votes checkerboard_counts
                      checkerboard_tiles = Ok sel
         /\ findBest2 check_votes check_consolidated_votes tile_map' = Ok sel.
Proof.
  split; [reflexivity |].
  apply (export_import_same_selection [[[0]; [1]; [0]; [1]]]
           checkerboard_votes checkerboard_counts checkerboard_tiles
           checkerboard_tiles).
  reflexivity.
Defined.

(** The records of the same consolidation in the map's order, the record
    of "0101" listing also the identity transform, which has no vote for
    this signature, with the count 0. *)
Local Abbreviation checkerboard_records_zero :=
  [listed_once [0; -1; 0; -1]
     [mkTransform false false 0; mkTransform false false 2;
      mkTransform false true 0; mkTransform false true 2];
   listed_once [-1; 0; -1; 0]
     [mkTransform false false 1; mkTransform false false 3;
      mkTransform false true 1; mkTransform false true 3];
   mkVoteRecord [0; 1; 0; 1]
     (mkCountEntry (mkTransform false false 0) 0
      :: map (fun tr : Transform => mkCountEntry tr 1)
             [mkTransform true false 0; mkTransform true false 2;
              mkTransform true true 0; mkTransform true true 2]);
   listed_once [1; 0; 1; 0]
     [mkTransform true false 1; mkTransform true false 3;
      mkTransform true true 1; mkTransform true true 3]].

(** An export in the map's order that lists a count 0 need not give the
    same selection either: with the identity transform listed for "0101",
    line 176 gives the signature its whole count as untransformed votes. *)
Lemma export_import_zero_count_identity :
  exported checkerboard_votes checkerboard_tiles checkerboard_records_zero
  /\ in_map_order checkerboard_votes checkerboard_records_zero
  /\ findBest2 checkerboard_votes checkerboard_counts checkerboard_tiles
     = Ok (Some "0101"%string, Some (mkScore 4 0 0),
           Some "1010"%string, Some (mkScore 4 0 0))
  /\ exists check_votes check_consolidated_votes tile_map',
       importVotes checkerboard_records_zero checkerboard_tiles
       = Ok (check_votes, check_consolidated_votes, tile_map')
       /\ findBest2 check_votes check_consolidated_votes tile_map'
          = Ok (Some "0101"%string, Some (mkScore 4 4 0),
                Some "1010"%string, Some (mkScore 4 0 0)).
Proof.
  split; [| split; [reflexivity | split; [reflexivity |]]].
  - split; [apply Permutation_refl |].
    intros v Hin.
    repeat (destruct Hin as [<- | Hin]; [| try contradiction]);
      (split; [reflexivity |]);
      (split; [repeat constructor; cbn [In fst map]; intuition discriminate |]);
      try (intros tr; reflexivity).
    intros [fx fy r]. unfold dict_get_default, record_pairs.
    cbn [record_counts map entry_transform entry_count dict_get
         record_signature record_tile].
    unfold key_eqb, PyKey_Transform, Transform_eqb.
    cbn [flipX flipY rotation].
    destruct fx, fy; cbn [Bool.eqb andb]; try reflexivity.
    destruct (r =? 0) eqn:Hr; reflexivity.
  - do 3 eexists. split; reflexivity.
Qed.
